(** * DINCAE in-situ driver: binning, filtering, augmentation, output, scoring

    A shallow embedding of the data-preparation functions of
    [run_DINCAE_insitu.py] ([loadobs], [binaverage], [binanalysis], [dist],
    [loadobsdata.datagen], [savesample], [monthlyCVRMS],
    [monthlyCVRMS_files]) and the properties stated about them.

    Numbers.  NumPy arrays of floats are modelled by [num]: exact rationals
    extended with the two infinities and NaN, with the IEEE rules for the
    special values (division by zero, NaN propagation, comparisons with NaN
    false).  Rounding to float64/float32 and overflow to infinity are not
    modelled: every finite operation is exact.  There is one zero, [Fin 0],
    which stands for the positive zero; the sign of a zero result is
    followed at the one place where the code divides by a product that can
    be the negative zero (line 130, [correction_factor]).

    External library functions whose values are not rational ([np.sqrt],
    [np.cos], [np.sin], the random generators, [scipy.interpolate.interpn],
    the calendar conversion of [datetime64]) are parameters of the
    definitions that call them. *)

From stdpp Require Import base option list gmap strings.
From Stdlib Require Import QArith Qround Qabs Lqa ZArith Lia.

Local Open Scope Z_scope.

(** ** Extended rational numbers *)

Inductive num : Type :=
  | Fin (q : Q)
  | PInf
  | NInf
  | NaN.

Global Instance num_inhabited : Inhabited num := populate NaN.

(** Sign of a number as a [comparison] with zero; [Eq] also for NaN. *)
Definition nsign (a : num) : comparison :=
  match a with
  | Fin q => (q ?= 0)%Q
  | PInf => Gt
  | NInf => Lt
  | NaN => Eq
  end.

Definition inf_of_sign (c : comparison) : num :=
  match c with Gt => PInf | Lt => NInf | Eq => NaN end.

Definition mul_sign (c d : comparison) : comparison :=
  match c, d with
  | Eq, _ | _, Eq => Eq
  | Gt, Gt | Lt, Lt => Gt
  | _, _ => Lt
  end.

Definition nneg (a : num) : num :=
  match a with
  | Fin q => Fin (- q)
  | PInf => NInf
  | NInf => PInf
  | NaN => NaN
  end.

Definition nadd (a b : num) : num :=
  match a, b with
  | NaN, _ | _, NaN => NaN
  | Fin p, Fin q => Fin (p + q)
  | PInf, NInf | NInf, PInf => NaN
  | PInf, _ | _, PInf => PInf
  | NInf, _ | _, NInf => NInf
  end.

Definition nsub (a b : num) : num := nadd a (nneg b).

Definition nmul (a b : num) : num :=
  match a, b with
  | NaN, _ | _, NaN => NaN
  | Fin p, Fin q => Fin (p * q)
  | _, _ => inf_of_sign (mul_sign (nsign a) (nsign b))
  end.

(** Division.  A finite zero divisor is the positive zero: [x / 0] is
    [+inf], [-inf] or NaN by the sign of [x]. *)
Definition ndiv (a b : num) : num :=
  match a, b with
  | NaN, _ | _, NaN => NaN
  | Fin p, Fin q =>
      if Qeq_bool q 0 then inf_of_sign (p ?= 0)%Q else Fin (p / q)
  | Fin _, _ => Fin 0
  | _, Fin q =>
      match (q ?= 0)%Q with
      | Lt => nneg a
      | _ => a
      end
  | _, _ => NaN
  end.

(** [x ** 2] *)
Definition nsq (a : num) : num := nmul a a.

Definition Qltb (p q : Q) : bool :=
  match (p ?= q)%Q with Lt => true | _ => false end.

Definition nlt (a b : num) : bool :=
  match a, b with
  | NaN, _ | _, NaN => false
  | Fin p, Fin q => Qltb p q
  | NInf, (Fin _ | PInf) => true
  | Fin _, PInf => true
  | _, _ => false
  end.

Definition nle (a b : num) : bool :=
  match a, b with
  | NaN, _ | _, NaN => false
  | Fin p, Fin q => Qle_bool p q
  | NInf, _ => true
  | _, PInf => true
  | _, _ => false
  end.

Definition ngt (a b : num) : bool := nlt b a.

Definition nabs (a : num) : num :=
  match a with
  | Fin q => Fin (Qabs q)
  | PInf | NInf => PInf
  | NaN => NaN
  end.

(** [np.isfinite] *)
Definition isfinite (a : num) : bool :=
  match a with Fin _ => true | _ => false end.

(** Equality of numbers up to the representation of the rational. *)
Definition neq (a b : num) : Prop :=
  match a, b with
  | Fin p, Fin q => (p == q)%Q
  | PInf, PInf | NInf, NInf | NaN, NaN => True
  | _, _ => False
  end.

Definition neqb (a b : num) : bool :=
  match a, b with
  | Fin p, Fin q => Qeq_bool p q
  | PInf, PInf | NInf, NInf | NaN, NaN => true
  | _, _ => false
  end.

Global Instance num_equiv : Equiv num := neq.

(** [np.rint]: round to the nearest integer, ties to the even one. *)
Definition rint_Z (q : Q) : Z :=
  let f := Qfloor q in
  match (q - inject_Z f ?= 1 # 2)%Q with
  | Lt => f
  | Gt => f + 1
  | Eq => if Z.even f then f else f + 1
  end.

Definition rint (a : num) : num :=
  match a with
  | Fin q => Fin (inject_Z (rint_Z q))
  | _ => a
  end.

(** Conversion of a float array to [dtype = np.int64]: truncation toward
    zero; a value that is not finite or does not fit yields the most
    negative integer (the "integer indefinite" value of the conversion
    instruction, which is what NumPy stores). *)
Definition int64_min : Z := - 2 ^ 63.
Definition int64_max : Z := 2 ^ 63 - 1.

Definition Qtrunc (q : Q) : Z := Z.quot (Qnum q) (Zpos (Qden q)).

Definition to_int64 (a : num) : Z :=
  match a with
  | Fin q =>
      let z := Qtrunc q in
      if (int64_min <=? z) && (z <=? int64_max) then z else int64_min
  | _ => int64_min
  end.

(** Arithmetic on [np.int64] wraps around. *)
Definition wrap64 (z : Z) : Z := (z + 2 ^ 63) mod 2 ^ 64 - 2 ^ 63.

Definition num_of_Z (z : Z) : num := Fin (inject_Z z).

(** ** Array helpers *)

(** Boolean-mask indexing [a[mask]]: the elements of [a] at the positions
    where [mask] is true, in order. *)
Fixpoint select {A} (mask : list bool) (a : list A) : list A :=
  match mask, a with
  | m :: mask', x :: a' =>
      if m then x :: select mask' a' else select mask' a'
  | _, _ => []
  end.

(** Boolean-mask assignment [a[mask] = vals]: the k-th true position of
    [mask] receives the k-th element of [vals]. *)
Fixpoint put {A} (mask : list bool) (a : list A) (vals : list A) : list A :=
  match mask, a with
  | m :: mask', x :: a' =>
      if m then
        match vals with
        | v :: vals' => v :: put mask' a' vals'
        | [] => x :: put mask' a' []
        end
      else x :: put mask' a' vals
  | _, _ => a
  end.

(** Number of true entries of a mask, [np.sum(mask)]. *)
Definition count_true (mask : list bool) : nat :=
  length (filter (λ b, b = true) mask).

(** Number of selected positions before position [k]. *)
Definition rank (mask : list bool) (k : nat) : nat :=
  count_true (take k mask).

Definition nsum (l : list num) : num := fold_left nadd l (Fin 0).

(** [np.bincount(lin, weights=w, minlength=n)]: an array of length
    [max n (max lin + 1)], where entry [k] accumulates, in input order, the
    weights whose index is [k].  NumPy raises on a negative index and on
    arrays of different lengths. *)
Definition bincount (lin : list Z) (weights : list num) (minlength : nat)
  : option (list num) :=
  if forallb (Z.leb 0) lin && (length lin =? length weights)%nat then
    let n := foldr (λ k m, Nat.max (S (Z.to_nat k)) m) minlength lin in
    Some (fold_left
            (λ out kw, alter (λ s, nadd s kw.2) (Z.to_nat kw.1) out)
            (zip lin weights) (replicate n (Fin 0)))
  else None.

(** [a.reshape(sz)] of a flat array: the data is unchanged (row-major), the
    call raises unless the sizes agree. *)
Definition reshape (nrow ncol : nat) (a : list num) : option (list num) :=
  if (length a =? nrow * ncol)%nat then Some a else None.

(** NumPy's broadcasting of two one-dimensional arrays, or of two flat
    grids, under an element-wise operation: equal lengths go position by
    position, an array of length one is repeated, anything else raises. *)
Definition broadcast2 {A B C} (f : A → B → C) (a : list A) (b : list B)
  : option (list C) :=
  if (length a =? length b)%nat then Some (zip_with f a b)
  else
    match a, b with
    | [x], _ => Some (map (f x) b)
    | _, [y] => Some (map (λ x, f x y) a)
    | _, _ => None
    end.

(** ** binanalysis *)

(** [np.array(np.rint((obs - a[0]) / (a[1] - a[0])), dtype = np.int64)] *)
Definition grid_index (a0 a1 : num) (o : num) : Z :=
  to_int64 (rint (ndiv (nsub o a0) (nsub a1 a0))).

Definition in_grid (nlon nlat : Z) (i j : Z) : bool :=
  (0 <=? i) && (i <? nlon) && (0 <=? j) && (j <? nlat).

Definition same_length4 {A} (a b c d : list A) : bool :=
  (length a =? length b)%nat && (length b =? length c)%nat &&
  (length c =? length d)%nat.

(** Lines 112-117: the selection and the linear indices of the selected
    observations. *)
Definition binanalysis_lin (obslon obslat lon lat : list num)
  : option (list bool * list Z) :=
  lon0 ← lon !! 0%nat; lon1 ← lon !! 1%nat;
  lat0 ← lat !! 0%nat; lat1 ← lat !! 1%nat;
  if (length obslon =? length obslat)%nat then
    let nlon := Z.of_nat (length lon) in
    let nlat := Z.of_nat (length lat) in
    let i := map (grid_index lon0 lon1) obslon in
    let j := map (grid_index lat0 lat1) obslat in
    let sel := zip_with (in_grid nlon nlat) i j in
    let lin :=
      zip_with (λ j i, wrap64 (wrap64 (j * nlon) + i))
               (select sel j) (select sel i) in
    Some (sel, lin)
  else None.

(** Lines 112-124: the two accumulated fields, before the floor
    correction. *)
Definition binanalysis_accumulate
    (obslon obslat obsvalue obsinvsigma2 lon lat : list num)
  : option (list num * list num) :=
  '(sel, lin) ← binanalysis_lin obslon obslat lon lat;
  if same_length4 obslon obslat obsvalue obsinvsigma2 then
    let len := (length lat * length lon)%nat in
    msum ← bincount lin
              (zip_with nmul (select sel obsvalue) (select sel obsinvsigma2))
              len
            ≫= reshape (length lat) (length lon);
    minvsigma2 ← bincount lin (select sel obsinvsigma2) len
            ≫= reshape (length lat) (length lon);
    Some (msum, minvsigma2)
  else None.

(** The product [m * s] of two finite numbers is the negative zero: one
    factor is zero and the other one is negative.  (A cell of an accumulated
    field is never the negative zero: it is a sum that was started at
    [0.0].) *)
Definition negative_zero_product (m s : num) : bool :=
  match m, s with
  | Fin p, Fin q =>
      (Qeq_bool p 0 && Qltb q 0) || (Qltb p 0 && Qeq_bool q 0)
  | _, _ => false
  end.

(** Lines 130-131: [alpha = 1/(minvsigma2 * sigma2_min); alpha[alpha > 1] = 1].
    The reciprocal of a zero product is [+inf], which line 131 replaces
    by 1, or, for the negative zero, [-inf], which it keeps. *)
Definition correction_factor (sigma2_min : num) (m : num) : num :=
  let alpha :=
    if negative_zero_product m sigma2_min then NInf
    else ndiv (Fin 1) (nmul m sigma2_min) in
  if ngt alpha (Fin 1) then Fin 1 else alpha.

(** The default [sigma2_min = (0.2)**2]. *)
Definition sigma2_min_default : num := Fin (1 # 25).

(** The whole function; it returns [(mmean, msum, minvsigma2)]. *)
Definition binanalysis
    (obslon obslat obsvalue obsinvsigma2 lon lat : list num)
    (sigma2_min : num)
  : option (list num * list num * list num) :=
  '(msum, minvsigma2) ←
     binanalysis_accumulate obslon obslat obsvalue obsinvsigma2 lon lat;
  let alpha := map (correction_factor sigma2_min) minvsigma2 in
  let minvsigma2 := zip_with nmul alpha minvsigma2 in
  let msum := zip_with nmul alpha msum in
  let mmean := replicate (length lat * length lon) NaN in
  let pos := map (λ m, ngt m (Fin 0)) minvsigma2 in
  let mmean := put pos mmean
                 (zip_with ndiv (select pos msum) (select pos minvsigma2)) in
  Some (mmean, msum, minvsigma2).

(** ** loadobs *)

(** A NetCDF file of observations: its variables by name, each a flat
    array.  The file system maps file names to such files. *)
Abbreviation dataset := (gmap string (list num)).

(** [np.datetime64('1900-01-01T00:00:00')] as seconds since 1970-01-01,
    the integer a [datetime64[s]] holds. *)
Definition epoch_1900 : Z := -2208988800.

(** The integer that a [datetime64] or a [timedelta64] reads as NaT, "not
    a time". *)
Definition NaT : Z := int64_min.

(** Line 83: days since 1900 to a [datetime64[s]].  A number of seconds
    that is not finite or does not fit is converted to the most negative
    integer, which the addition reads as NaT: the sum is NaT. *)
Definition obstime_of_days (t : num) : Z :=
  let seconds := to_int64 (nmul (Fin 86400) t) in
  if seconds =? NaT then NaT else wrap64 (epoch_1900 + seconds).

(** Line 86, for one observation. *)
Definition loadobs_sel (lon0 lonN lat0 latN : num)
    (obsdepth obslon obslat obsvalue : num) : bool :=
  nlt obsdepth (Fin 10) && nlt lon0 obslon && nlt obslon lonN &&
  nlt lat0 obslat && nlt obslat latN && nlt (nabs obsvalue) (Fin 200).

Definition same_length5 {A B} (a b c d : list A) (e : list B) : bool :=
  same_length4 a b c d && (length d =? length e)%nat.

Definition loadobs (fs : gmap string dataset) (lon lat : list num)
    (fname varname : string)
  : option (list num * list num * list num * list num * list Z) :=
  ds ← fs !! fname;
  obslon ← ds !! "obslon";
  obslat ← ds !! "obslat";
  obsdepth ← ds !! "obsdepth";
  obstime ← ds !! "obstime";
  obsvalue ← ds !! varname;
  let obstime := map obstime_of_days obstime in
  lon0 ← lon !! 0%nat; lonN ← last lon;
  lat0 ← lat !! 0%nat; latN ← last lat;
  if same_length5 obsvalue obslon obslat obsdepth obstime then
    let sel :=
      zip_with (λ d '(lo, (la, v)), loadobs_sel lon0 lonN lat0 latN d lo la v)
               obsdepth (zip obslon (zip obslat obsvalue)) in
    Some (select sel obsvalue, select sel obslon, select sel obslat,
          select sel obsdepth, select sel obstime)
  else None.

(** The observations as records [(value, lon, lat, depth, time)]. *)
Definition obsrec : Type := num * num * num * num * Z.

Definition zip5 (v lo la d : list num) (t : list Z) : list obsrec :=
  zip_with (λ '(v, lo, la, d) t, (v, lo, la, d, t))
    (zip_with (λ '(v, lo, la) d, (v, lo, la, d))
       (zip_with (λ '(v, lo) la, (v, lo, la)) (zip v lo) la) d) t.

Definition loadobs_keep (lon0 lonN lat0 latN : num) (r : obsrec) : bool :=
  let '(v, lo, la, d, _) := r in loadobs_sel lon0 lonN lat0 latN d lo la v.

(** ** dist *)

Section math.
(** [np.sqrt], [np.cos], [np.sin] and [math.pi] *)
Variable np_sqrt np_cos np_sin : num → num.
Variable math_pi : num.

Definition dist (lon1 lat1 lon2 lat2 : num) : num :=
  np_sqrt (nadd (nsq (nsub lon1 lon2)) (nsq (nsub lat2 lat1))).

(** The distance from a grid point to a gap centre, with the arguments
    in the order of the parameters of [dist]. *)
Definition euclid (lon_c lat_c gap_lon gap_lat : num) : num :=
  dist lon_c lat_c gap_lon gap_lat.
End math.

(** ** Arrays that are updated in place *)

(** A tensor of shape [(len(lat), len(lon), nvar)]: the grid cells in
    row-major order, each cell holding its channels. *)
Abbreviation tensor := (list (list num)).

(** The mutable state of a run: the arrays that are updated in place, by
    location, and the positions in the two random streams. *)
Record state := State {
  heap : gmap nat tensor;
  py_pos : nat;
  np_pos : nat;
}.

Definition M (A : Type) : Type := state → option (A * state).

Definition ret {A} (a : A) : M A := λ s, Some (a, s).
Definition bind {A B} (m : M A) (k : A → M B) : M B :=
  λ s, match m s with Some (a, s') => k a s' | None => None end.
Definition raise {A} : M A := λ _, None.
Definition lift {A} (o : option A) : M A :=
  λ s, match o with Some a => Some (a, s) | None => None end.

Notation "'let!' x ':=' m 'in' k" := (bind m (λ x, k))
  (at level 10, x pattern, m at level 100, k at level 200,
   format "'[v' 'let!'  x  ':='  m  'in' '/' k ']'").
Notation "'do!' m 'in' k" := (bind m (λ _, k))
  (at level 10, m at level 100, k at level 200,
   format "'[v' 'do!'  m  'in' '/' k ']'").

(** Allocation of a new array. *)
Definition alloc (t : tensor) : M nat :=
  λ s, let l := fresh (dom (heap s)) in
       Some (l, State (<[l := t]> (heap s)) (py_pos s) (np_pos s)).

Definition read (l : nat) : M tensor := λ s, lift (heap s !! l) s.

Definition write (l : nat) (t : tensor) : M unit :=
  λ s, match heap s !! l with
       | Some _ => Some (tt, State (<[l := t]> (heap s)) (py_pos s) (np_pos s))
       | None => None
       end.

(** [np.zeros((nlat, nlon, nvar))] *)
Definition np_zeros (ncell nvar : nat) : M nat :=
  alloc (replicate ncell (replicate nvar (Fin 0))).

(** [x.copy()] *)
Definition np_copy (l : nat) : M nat := let! t := read l in alloc t.

(** The view [x[:,:,ch]], read out. *)
Definition channel (ch : nat) (t : tensor) : list num :=
  map (λ px, px !!! ch) t.

Definition get_channel (l : nat) (ch : nat) : M (list num) :=
  let! t := read l in ret (channel ch t).

(** The tensor [t] with channel [ch] replaced by the grid [g]. *)
Definition assign_channel (ch : nat) (g : list num) (t : tensor) : tensor :=
  zip_with (λ px v, <[ch := v]> px) t g.

(** [x[:,:,ch] = g] for a grid [g] of the shape of [x]. *)
Definition set_channel (l : nat) (ch : nat) (g : list num) : M unit :=
  let! t := read l in
  if (length g =? length t)%nat then write l (assign_channel ch g t)
  else raise.

(** [a[mask]] with NumPy's check that the mask has the shape of [a]. *)
Definition getmask {A} (mask : list bool) (a : list A) : option (list A) :=
  if (length mask =? length a)%nat then Some (select mask a) else None.

(** [a[mask] = v] for a scalar [v]. *)
Definition fill (mask : list bool) (a : list num) (v : num) : list num :=
  zip_with (λ (m : bool) x, if m then v else x) mask a.

(** ** loadobsdata and its generator *)

Definition nvar : nat := 6.
Definition ntime : nat := 12.
Definition meandataval : num := Fin 15.
Definition size_gap : num := Fin (3 # 2).
Definition min_gap_count : nat := 50.

(** [np.ma] arrays: data and mask (true where masked).  The mask is an
    array of its own, as the one line 189 builds.  An array without a mask
    ([nomask]) behaves as one whose mask is false everywhere where its data
    and its mask are used together; where its mask alone is handed on
    (lines 298-299) it is not represented, since [nomask] fits data of any
    size. *)
Record marray := MArray { ma_data : list num; ma_mask : list bool }.

Section loadobsdata.
Variable np_sqrt np_cos np_sin : num → num.
Variable math_pi : num.
(** The values [random.random()] and [np.random.randn] return, in the
    order of the calls. *)
Variable uniform : nat → num.
Variable randn : nat → num.
(** [datetime64[s]] to [datetime64[M]] as an integer: the number of the
    month since January 1970. *)
Variable month_index : Z → Z.

(** The module-level arrays. *)
Variable lon lat : list num.
Variable mask : list bool.
Variable obsvalue obslon obslat obsdepth : list num.
Variable obstime : list Z.

Variable train : bool.
Variable jitter_std_lon jitter_std_lat jitter_std_value : num.

(** Line 156 *)
Definition obsmonths : list Z :=
  map (λ t, month_index t mod 12 + 1) obstime.

(** Line 189 *)
Definition meandata : marray :=
  MArray (map (nmul meandataval) (replicate (length lat * length lon) (Fin 1)))
         (map negb mask).

Definition random_random : M num :=
  λ s, Some (uniform (py_pos s), State (heap s) (S (py_pos s)) (np_pos s)).

Definition np_random_randn (n : nat) : M (list num) :=
  λ s, Some (map randn (seq (np_pos s) n),
             State (heap s) (py_pos s) (np_pos s + n)).

(** [lon.reshape(1,len(lon))] and [lat.reshape(len(lat),1)] broadcast to
    the grid. *)
Definition lon_grid : list num := lat ≫= λ _, lon.
Definition lat_grid : list num := lat ≫= replicate (length lon).

Definition month_angle (month : Z) : num :=
  ndiv (nmul (nmul (Fin 2) math_pi) (num_of_Z (month - 1))) (Fin 12).

(** Lines 214-221: the clean tensor. *)
Definition build_x (month : Z) (msum minvsigma2 : list num) : M nat :=
  let ncell := (length lat * length lon)%nat in
  let! x := np_zeros ncell nvar in
  do! set_channel x 0 msum in
  do! set_channel x 1 minvsigma2 in
  do! set_channel x 2 lon_grid in
  do! set_channel x 3 lat_grid in
  do! set_channel x 4 (replicate ncell (np_cos (month_angle month))) in
  do! set_channel x 5 (replicate ncell (np_sin (month_angle month))) in
  ret x.

(** Lines 230-235 *)
Definition noise_step (xin : nat) (minvsigma2 : list num) : M unit :=
  let sel := map (λ m, ngt m (Fin 0)) minvsigma2 in
  let! c0 := get_channel xin 0 in
  let! old := lift (getmask sel c0) in
  let! z := np_random_randn (count_true sel) in
  do! set_channel xin 0
    (put sel c0 (zip_with nadd old (map (nmul jitter_std_value) z))) in
  let! c1 := get_channel xin 1 in
  let! m := lift (getmask sel minvsigma2) in
  do! set_channel xin 1
    (put sel c1
       (map (λ m, ndiv (Fin 1)
                    (nadd (ndiv (Fin 1) m) (nsq jitter_std_value))) m)) in
  let ncell := (length lat * length lon)%nat in
  let! c2 := get_channel xin 2 in
  let! z := np_random_randn ncell in
  do! set_channel xin 2 (zip_with nadd c2 (map (nmul jitter_std_lon) z)) in
  let! c3 := get_channel xin 3 in
  let! z := np_random_randn ncell in
  set_channel xin 3 (zip_with nadd c3 (map (nmul jitter_std_lat) z)).

(** One candidate gap, lines 245-248. *)
Definition gap_mask (gap_lon gap_lat : num) (x2 x3 xin1 : list num)
  : list bool :=
  let dist_gap :=
    zip_with (λ a b, dist np_sqrt a gap_lon b gap_lat) x2 x3 in
  zip_with (λ d m, nlt d size_gap && ngt m (Fin 0)) dist_gap xin1.

(** The loop of lines 244-250; it gives up when the fuel is spent. *)
Fixpoint gap_loop (fuel : nat) (x xin : nat) : M (list bool) :=
  match fuel with
  | O => raise
  | S fuel' =>
      let! lon0 := lift (lon !! 0%nat) in
      let! lonN := lift (last lon) in
      let! u := random_random in
      let gap_lon := nadd lon0 (nmul (nsub lonN lon0) u) in
      let! lat0 := lift (lat !! 0%nat) in
      let! latN := lift (last lat) in
      let! v := random_random in
      let gap_lat := nadd lat0 (nmul (nsub latN lat0) v) in
      let! x2 := get_channel x 2 in
      let! x3 := get_channel x 3 in
      let! xin1 := get_channel xin 1 in
      let selmask := gap_mask gap_lon gap_lat x2 x3 xin1 in
      if (min_gap_count <=? count_true selmask)%nat then ret selmask
      else gap_loop fuel' x xin
  end.

(** Lines 239-255 *)
Definition gap_step (fuel : nat) (x xin : nat) : M unit :=
  let! selmask := gap_loop fuel x xin in
  let! c0 := get_channel xin 0 in
  let! _ := lift (getmask selmask c0) in
  do! set_channel xin 0 (fill selmask c0 (Fin 0)) in
  let! c1 := get_channel xin 1 in
  set_channel xin 1 (fill selmask c1 (Fin 0)).

(** The body of the loop over the months, up to the [yield]: it returns
    the locations of [xin] and of [x]. *)
Definition datagen_body (fuel : nat) (month : Z) : M (nat * nat) :=
  let sel := map (Z.eqb month) obsmonths in
  let! mobsvalue := lift (getmask sel obsvalue) in
  let! mobslon := lift (getmask sel obslon) in
  let! mobslat := lift (getmask sel obslat) in
  let! mobsdepth := lift (getmask sel obsdepth) in
  let! mobstime := lift (getmask sel obstime) in
  let mobsinvsigma2 := replicate (length mobsvalue) (Fin 1) in
  let! (mmean, msum, minvsigma2) :=
    lift (binanalysis mobslon mobslat
            (map (λ v, nsub v meandataval) mobsvalue)
            mobsinvsigma2 lon lat sigma2_min_default) in
  let! x := build_x month msum minvsigma2 in
  let! xin := np_copy x in
  do! (if train then noise_step xin minvsigma2 else ret tt) in
  do! (if train then gap_step fuel x xin else ret tt) in
  ret (xin, x).

(** What the consumer receives at a [yield (xin, x[:,:,0:2])]. *)
Abbreviation sample := (tensor * tensor)%type.

Definition yielded (s : state) (p : nat * nat) : option sample :=
  xin ← heap s !! p.1;
  x ← heap s !! p.2;
  Some (xin, map (take 2) x).

(** The generator run to its end over a list of months: all the samples,
    in the order they are yielded; there is no result when the body of one
    of the months raises or does not leave the loop of the gap step. *)
Fixpoint datagen_months (fuel : nat) (months : list Z)
  : state → option (list sample * state) :=
  match months with
  | [] => λ s, Some ([], s)
  | month :: rest =>
      λ s,
        '(p, s1) ← datagen_body fuel month s;
        smp ← yielded s1 p;
        '(smps, s2) ← datagen_months fuel rest s1;
        Some (smp :: smps, s2)
  end.

(** [for month in range(1,ntime+1)] *)
Definition datagen (fuel : nat) : state → option (list sample * state) :=
  datagen_months fuel (map Z.of_nat (seq 1 ntime)).

(** The generator as its consumer sees it: the samples it has yielded, in
    order, when the body of a month raises or does not leave the loop of
    the gap step within the fuel, or when the months are exhausted.  The
    samples yielded before such a month are part of it. *)
Fixpoint datagen_yields_months (fuel : nat) (months : list Z) (s : state)
  : list sample :=
  match months with
  | [] => []
  | month :: rest =>
      match datagen_body fuel month s with
      | Some (p, s1) =>
          match yielded s1 p with
          | Some smp => smp :: datagen_yields_months fuel rest s1
          | None => []
          end
      | None => []
      end
  end.

Definition datagen_yields (fuel : nat) (s : state) : list sample :=
  datagen_yields_months fuel (map Z.of_nat (seq 1 ntime)) s.
End loadobsdata.

(** ** savesample *)

(** The output file: the two coordinate variables, [meandata], and the two
    record variables along the unlimited dimension [time].  The dimensions
    [lat] and [lon] have the lengths of the coordinate variables; a record
    is a grid of [len(lat) * len(lon)] cells.

    Grids are flat lists in row-major order.  Two grids of one size stand
    for arrays of one shape, and a list of one element for an array of one
    element; arrays of other shapes (a single row or column of a grid, a
    transposed grid) are not represented. *)
Record ncfile := NcFile {
  nc_lon : list num;
  nc_lat : list num;
  nc_meandata : list num;
  nc_batch_m_rec : list (list num);
  nc_batch_sigma_rec : list (list num);
}.

Definition fill_value : num := Fin (-9999).

(** A masked array as it is stored in a variable that has a fill value. *)
Definition filled (a : marray) : list num :=
  zip_with (λ (m : bool) x, if m then fill_value else x) (ma_mask a) (ma_data a).

(** [np.ma.masked_array(data, mask)]: a mask that has not the shape of the
    data is reshaped when it has the size of the data and repeated when it
    has one element; any other mask is refused ("Mask and data not
    compatible"). *)
Definition masked_array (data : list num) (mask : list bool) : option marray :=
  if (length mask =? length data)%nat then Some (MArray data mask)
  else
    match mask with
    | [m] => Some (MArray data (replicate (length data) m))
    | _ => None
    end.

(** [a + b] on masked arrays: the sum of the data, masked where either
    operand is; an operand of one element is broadcast. *)
Definition ma_add (a b : marray) : option marray :=
  data ← broadcast2 nadd (ma_data a) (ma_data b);
  mask ← broadcast2 orb (ma_mask a) (ma_mask b);
  if (length data =? length mask)%nat then Some (MArray data mask) else None.

(** The data of an assignment [var[t,:,:] = g] to a record of the file
    [f]: [g] must have the size of a record ("size of data array does not
    conform to slice"). *)
Definition record_data (f : ncfile) (g : list num) : option (list num) :=
  if (length g =? length (nc_lat f) * length (nc_lon f))%nat then Some g
  else None.

(** Writing the record at time index [t] of a variable: the unlimited
    dimension grows to [t + 1], records never written hold the fill value. *)
Definition grow (ncell : nat) (t : nat) (recs : list (list num))
  : list (list num) :=
  recs ++ replicate (S t - length recs) (replicate ncell fill_value).

Definition write_m_rec (t : nat) (g : list num) (f : ncfile) : ncfile :=
  let ncell := length g in
  NcFile (nc_lon f) (nc_lat f) (nc_meandata f)
         (<[t := g]> (grow ncell t (nc_batch_m_rec f)))
         (grow ncell t (nc_batch_sigma_rec f)).

Definition write_sigma_rec (t : nat) (g : list num) (f : ncfile) : ncfile :=
  let ncell := length g in
  NcFile (nc_lon f) (nc_lat f) (nc_meandata f)
         (grow ncell t (nc_batch_m_rec f))
         (<[t := g]> (grow ncell t (nc_batch_sigma_rec f))).

Section savesample.
Variable np_sqrt : num → num.

(** The body of the loop of lines 297-299 for one [n]. *)
Definition save_row (batch_m_rec batch_sigma_rec : list (list num))
    (meandata : marray) (offset : nat) (root_grp : ncfile) (n : nat)
  : option ncfile :=
  m ← batch_m_rec !! n;
  m ← masked_array m (ma_mask meandata);
  m ← ma_add m meandata;
  g ← record_data root_grp (filled m);
  let root_grp := write_m_rec (n + offset) g root_grp in
  sg ← batch_sigma_rec !! n;
  sg ← masked_array sg (ma_mask meandata);
  g ← record_data root_grp (filled sg);
  Some (write_sigma_rec (n + offset) g root_grp).

Fixpoint save_rows (batch_m_rec batch_sigma_rec : list (list num))
    (meandata : marray) (offset : nat) (root_grp : ncfile) (ns : list nat)
  : option ncfile :=
  match ns with
  | [] => Some root_grp
  | n :: ns' =>
      root_grp ← save_row batch_m_rec batch_sigma_rec meandata offset
                          root_grp n;
      save_rows batch_m_rec batch_sigma_rec meandata offset root_grp ns'
  end.

(** Lines 268-302.  With [ii == 0] the file is created: whatever was
    stored under [fname] is gone, the new file has no record yet, and
    [meandata] must have the size of the grid to be stored.  Otherwise the
    file must exist. *)
Definition savesample (fs : gmap string ncfile) (fname : string)
    (batch_m_rec batch_sigma2_rec : list (list num)) (meandata : marray)
    (lon lat : list num) (ii : Z) (offset : nat)
  : option (gmap string ncfile) :=
  let batch_sigma_rec := map (map np_sqrt) batch_sigma2_rec in
  root_grp ←
    (if ii =? 0 then
       if (length (ma_data meandata) =? length lat * length lon)%nat
          && (length (ma_mask meandata) =? length lat * length lon)%nat
       then Some (NcFile lon lat (filled meandata) [] [])
       else None
     else fs !! fname);
  root_grp ← save_rows batch_m_rec batch_sigma_rec meandata offset root_grp
               (seq 0 (length batch_m_rec));
  Some (<[fname := root_grp]> fs).
End savesample.

(** ** monthlyCVRMS *)

(** [np.mean]; the mean of an empty array is NaN. *)
Definition np_mean (l : list num) : num :=
  ndiv (nsum l) (num_of_Z (Z.of_nat (length l))).

Section monthlyCVRMS.
Variable np_sqrt : num → num.
Variable month_index : Z → Z.
(** [scipy.interpolate.interpn((lat,lon), field, points)] with its default
    (linear) method: one value per point; it raises on a point outside
    the grid. *)
Variable interpn :
  list num * list num → list num → list (num * num) → option (list num).

(** Lines 317-319 for the observations of one month. *)
Definition month_rms (lon lat field : list num)
    (mobsvalue mobslon mobslat : list num) : option num :=
  mclim ← interpn (lat, lon) field (zip mobslat mobslon);
  let sel := map isfinite mclim in
  a ← getmask sel mclim;
  b ← getmask sel mobsvalue;
  Some (np_sqrt (np_mean (map nsq (zip_with nsub a b)))).

Definition month_score (lon lat : list num) (value : list (list num))
    (obsvalue obslon obslat obsdepth : list num) (obstime : list Z)
    (month : nat) : option num :=
  let obsmonths := map (λ t, month_index t mod 12) obstime in
  let sel := map (Z.eqb (Z.of_nat month)) obsmonths in
  mobsvalue ← getmask sel obsvalue;
  mobslon ← getmask sel obslon;
  mobslat ← getmask sel obslat;
  mobsdepth ← getmask sel obsdepth;
  mobstime ← getmask sel obstime;
  field ← value !! month;
  month_rms lon lat field mobsvalue mobslon mobslat.

Definition monthlyCVRMS (lon lat : list num) (value : list (list num))
    (obsvalue obslon obslat obsdepth : list num) (obstime : list Z)
  : option (list num * num) :=
  RMS ← mapM (month_score lon lat value obsvalue obslon obslat obsdepth
                obstime) (seq 0 12);
  Some (RMS, np_sqrt (np_mean (map nsq RMS))).
End monthlyCVRMS.

(** ** Specification-side notions for [binanalysis] *)

(** The observations as rows [(lon, lat, value, invsigma2)]. *)
Definition obsrow : Type := num * (num * (num * num)).

Definition obs_table (obslon obslat obsvalue obsinvsigma2 : list num)
  : list obsrow :=
  zip obslon (zip obslat (zip obsvalue obsinvsigma2)).

(** [round((o - a0)/(a1 - a0))] as a mathematical integer; there is none
    when the quotient is not finite. *)
Definition nearest (a0 a1 o : num) : option Z :=
  match ndiv (nsub o a0) (nsub a1 a0) with
  | Fin q => Some (rint_Z q)
  | _ => None
  end.

(** The observation [o] is assigned to the cell in row [r], column [c]. *)
Definition assigned (lon0 lon1 lat0 lat1 : num) (r c : nat) (o : obsrow)
  : Prop :=
  nearest lon0 lon1 o.1 = Some (Z.of_nat c) ∧
  nearest lat0 lat1 o.2.1 = Some (Z.of_nat r).

Global Instance assigned_dec lon0 lon1 lat0 lat1 r c o :
  Decision (assigned lon0 lon1 lat0 lat1 r c o).
Proof. unfold assigned. apply _. Defined.

(** The rounded indices of [o] fall outside the grid. *)
Definition outside (lon0 lon1 lat0 lat1 : num) (nlat nlon : nat) (o : obsrow)
  : Prop :=
  ∀ i j, nearest lon0 lon1 o.1 = Some i → nearest lat0 lat1 o.2.1 = Some j →
         ¬ (0 <= i < Z.of_nat nlon ∧ 0 <= j < Z.of_nat nlat).

Definition weighted (o : obsrow) : num := nmul o.2.2.1 o.2.2.2.
Definition weight (o : obsrow) : num := o.2.2.2.

(** The selection and the linear index of line 115-117, per observation. *)
Definition sel_of (lon0 lon1 lat0 lat1 : num) (nlon nlat : Z) (o : obsrow)
  : bool :=
  in_grid nlon nlat (grid_index lon0 lon1 o.1) (grid_index lat0 lat1 o.2.1).

Definition lin_of (lon0 lon1 lat0 lat1 : num) (nlon : Z) (o : obsrow) : Z :=
  wrap64 (wrap64 (grid_index lat0 lat1 o.2.1 * nlon) + grid_index lon0 lon1 o.1).

(** A finite, non-negative number: what an inverse variance is. *)
Definition finite_nonneg (a : num) : bool :=
  match a with Fin q => Qle_bool 0 q | _ => false end.

(** ** Specification-side notions for the generator *)

Section clean.
Variable np_cos np_sin : num → num.
Variable math_pi : num.
Variable lon lat : list num.

(** The cell in row [r], column [c] of the clean tensor:
    binned sum, binned inverse variance, longitude of the column, latitude
    of the row, cosine and sine of the month angle. *)
Definition clean_cell (month : Z) (msum minvsigma2 : list num) (r c : nat)
  : list num :=
  [ msum !!! (r * length lon + c)%nat;
    minvsigma2 !!! (r * length lon + c)%nat;
    lon !!! c;
    lat !!! r;
    np_cos (month_angle math_pi month);
    np_sin (month_angle math_pi month) ].

Definition clean_tensor (month : Z) (msum minvsigma2 : list num) : tensor :=
  r ← seq 0 (length lat);
  c ← seq 0 (length lon);
  [clean_cell month msum minvsigma2 r c].
End clean.

(** The selection of one month out of the module-level observations and
    its binning, lines 193-206. *)
Definition month_binned (month_index : Z → Z) (lon lat : list num)
    (obsvalue obslon obslat : list num) (obstime : list Z) (month : Z)
  : option (list num * list num * list num) :=
  let sel := map (Z.eqb month) (obsmonths month_index obstime) in
  mobsvalue ← getmask sel obsvalue;
  mobslon ← getmask sel obslon;
  mobslat ← getmask sel obslat;
  binanalysis mobslon mobslat (map (λ v, nsub v meandataval) mobsvalue)
    (replicate (length mobsvalue) (Fin 1)) lon lat sigma2_min_default.

(** The cells a gap centred at [(gap_lon, gap_lat)] covers when the
    distance is the one from the grid point to the centre. *)
Definition euclid_mask (np_sqrt : num → num) (gap_lon gap_lat : num)
    (x2 x3 xin1 : list num) : list bool :=
  let dist_gap :=
    zip_with (λ a b, euclid np_sqrt a b gap_lon gap_lat) x2 x3 in
  zip_with (λ d m, nlt d size_gap && ngt m (Fin 0)) dist_gap xin1.

(** A tensor of [n] cells with [nvar] channels each. *)
Definition shaped (n : nat) (t : tensor) : Prop :=
  length t = n ∧ Forall (λ px, length px = nvar) t.

(** The tensor [noise_step] leaves in [xin], from the tensor [t] it finds
    there, the inverse variances [minvsigma2] and the position [n0] in the
    stream of normal draws. *)
Definition noise_tensor (randn : nat → num) (lon lat : list num)
    (jitter_std_lon jitter_std_lat jitter_std_value : num)
    (n0 : nat) (minvsigma2 : list num) (t : tensor) : tensor :=
  let ncell := (length lat * length lon)%nat in
  let sel := map (λ m, ngt m (Fin 0)) minvsigma2 in
  let z0 := map randn (seq n0 (count_true sel)) in
  let t1 :=
    assign_channel 0
      (put sel (channel 0 t)
         (zip_with nadd (select sel (channel 0 t))
            (map (nmul jitter_std_value) z0))) t in
  let t2 :=
    assign_channel 1
      (put sel (channel 1 t1)
         (map (λ m, ndiv (Fin 1)
                      (nadd (ndiv (Fin 1) m) (nsq jitter_std_value)))
              (select sel minvsigma2))) t1 in
  let z2 := map randn (seq (n0 + count_true sel) ncell) in
  let t3 :=
    assign_channel 2
      (zip_with nadd (channel 2 t2) (map (nmul jitter_std_lon) z2)) t2 in
  let z3 := map randn (seq (n0 + count_true sel + ncell) ncell) in
  assign_channel 3
    (zip_with nadd (channel 3 t3) (map (nmul jitter_std_lat) z3)) t3.

(** The tensor [gap_step] leaves in [xin]: channels 0 and 1 set to zero on
    the cells of [selmask]. *)
Definition gap_tensor (selmask : list bool) (t : tensor) : tensor :=
  let t0 := assign_channel 0 (fill selmask (channel 0 t) (Fin 0)) t in
  assign_channel 1 (fill selmask (channel 1 t0) (Fin 0)) t0.

(** ** Specification-side notions for the gap step *)

(** What the selection of gap cells needs of a square root: it does not
    move a value across the threshold [size_gap].  The exact square root
    satisfies it. *)
Definition sqrt_threshold (np_sqrt : num → num) : Prop :=
  ∀ q, (0 <= q)%Q →
    nlt (np_sqrt (Fin q)) size_gap = nlt (Fin q) (nsq size_gap).

(** Every grid longitude differs from every grid latitude by at least
    [size_gap]. *)
Definition far_apart (lon lat : list num) : bool :=
  forallb (λ a,
    forallb (λ b,
      match a, b with
      | Fin qa, Fin qb =>
          Qle_bool ((3 # 2) * (3 # 2)) ((qa + - qb) * (qa + - qb))
      | _, _ => false
      end) lat) lon.

(** [euclid_mask] with the comparison of the squares. *)
Definition euclid_mask_sq (gap_lon gap_lat : num) (x2 x3 xin1 : list num)
  : list bool :=
  let dist2 :=
    zip_with (λ a b, nadd (nsq (nsub a gap_lon)) (nsq (nsub gap_lat b)))
             x2 x3 in
  zip_with (λ d m, nlt d (nsq size_gap) && ngt m (Fin 0)) dist2 xin1.

(** ** Specification-side notions for [savesample] *)

(** The record of the reconstructed mean for a batch row: the row plus
    [meandata], the fill value where [meandata] is masked. *)
Definition rec_mean (meandata : marray) (row : list num) : list num :=
  zip_with (λ (m : bool) v, if m then fill_value else v)
    (ma_mask meandata) (zip_with nadd row (ma_data meandata)).

(** The record of the standard deviation: the square root of the row, the
    fill value where [meandata] is masked. *)
Definition rec_sigma (np_sqrt : num → num) (meandata : marray)
    (row : list num) : list num :=
  zip_with (λ (m : bool) v, if m then fill_value else np_sqrt v)
    (ma_mask meandata) row.

(** The records of a record variable in a file that has just been
    created, after a batch of [rows] has been written from the time index
    [offset] on: no record for an empty batch, otherwise [offset] records
    that were never written, which hold the fill value, and then the
    rows. *)
Definition fresh_records (ncell offset : nat) (rows : list (list num))
  : list (list num) :=
  match rows with
  | [] => []
  | _ => replicate offset (replicate ncell fill_value) ++ rows
  end.

(** ** Specification-side notions for [monthlyCVRMS] *)

(** The selection of the observations of calendar month [month] (0 for
    January), and the positions [(lat, lon)] of the selected ones. *)
Definition month_sel (month_index : Z → Z) (obstime : list Z) (month : nat)
  : list bool :=
  map (Z.eqb (Z.of_nat month)) (map (λ t, month_index t mod 12) obstime).

Definition month_points (month_index : Z → Z) (obstime : list Z)
    (obslat obslon : list num) (month : nat) : list (num * num) :=
  let sel := month_sel month_index obstime month in
  zip (select sel obslat) (select sel obslon).

(** Root of the mean of the squared differences between the interpolated
    and the observed values, over the pairs whose interpolated value is
    finite. *)
Definition rms_finite (np_sqrt : num → num) (mclim mobsvalue : list num)
  : num :=
  np_sqrt (np_mean
    (map (λ p : num * num, nsq (nsub p.1 p.2))
       (filter (λ p : num * num, isfinite p.1 = true) (zip mclim mobsvalue)))).

(** ** Computable instances of the external functions

    Used to run the definitions on concrete inputs. *)

(** The square root: the exact root rounded down to a multiple of
    [1/(2d)], [d] the denominator of the argument. *)
Definition sqrt_floor (a : num) : num :=
  match a with
  | Fin q =>
      if Qltb q 0 then NaN
      else Fin (Z.sqrt (4 * Qnum q * Zpos (Qden q)) # 2 * Qden q)
  | PInf => PInf
  | _ => NaN
  end.

(** Cosine and sine where the month angle is zero, the one month angle
    whose cosine and sine are rational; NaN stands for the values that are
    not represented. *)
Definition cos_at_zero (a : num) : num :=
  match a with Fin q => if Qeq_bool q 0 then Fin 1 else NaN | _ => NaN end.
Definition sin_at_zero (a : num) : num :=
  match a with Fin q => if Qeq_bool q 0 then Fin 0 else NaN | _ => NaN end.

(** [math.pi], to two decimals. *)
Definition pi_approx : num := Fin (314 # 100).

(** The month of a time stamp of the year 1970, in seconds since the start
    of that year. *)
Definition month_index_1970 (t : Z) : Z :=
  Z.of_nat (length (filter (λ c, c <= t / 86400)
              [31; 59; 90; 120; 151; 181; 212; 243; 273; 304; 334; 365])).

(** The eleventh day of each month of 1970. *)
Definition mid_months : list Z :=
  map (λ d, (d + 10) * 86400)
      [0; 31; 59; 90; 120; 151; 181; 212; 243; 273; 304; 334].

(** ** A computable bilinear interpolation

    For running [monthlyCVRMS]: the interpolation of a field given on the
    nodes of an ascending grid, raising on a point outside the grid. *)
Fixpoint find_interval (axis : list num) (v : num) (i : nat)
  : option (nat * num * num) :=
  match axis with
  | a :: (b :: _) as rest =>
      if nle a v && nle v b then Some (i, a, b)
      else find_interval rest v (S i)
  | _ => None
  end.

Definition interp_point (lat lon field : list num) (p : num * num)
  : option num :=
  '(i, y0, y1) ← find_interval lat p.1 0;
  '(j, x0, x1) ← find_interval lon p.2 0;
  let ty := ndiv (nsub p.1 y0) (nsub y1 y0) in
  let tx := ndiv (nsub p.2 x0) (nsub x1 x0) in
  let n := length lon in
  f00 ← field !! (i * n + j)%nat;
  f01 ← field !! (i * n + S j)%nat;
  f10 ← field !! (S i * n + j)%nat;
  f11 ← field !! (S i * n + S j)%nat;
  Some (nadd
          (nadd (nmul (nmul (nsub (Fin 1) ty) (nsub (Fin 1) tx)) f00)
                (nmul (nmul (nsub (Fin 1) ty) tx) f01))
          (nadd (nmul (nmul ty (nsub (Fin 1) tx)) f10)
                (nmul (nmul ty tx) f11))).

Definition interp_bilinear (axes : list num * list num) (field : list num)
    (points : list (num * num)) : option (list num) :=
  mapM (interp_point axes.1 axes.2 field) points.

(** ** Concrete inputs

    A grid of three columns and two rows with unit spacing, and five
    observations: three nearest to the grid point (0,0), the fourth of them
    half-way between four grid points, one nearest to the grid point in
    row 1, column 2, and one to the east of the grid. *)
Definition ex_lon : list num := [Fin 0; Fin 1; Fin 2].
Definition ex_lat : list num := [Fin 0; Fin 1].
Definition ex_obslon : list num :=
  [Fin (2 # 5); Fin (8 # 5); Fin 5; Fin (1 # 2); Fin (1 # 4)].
Definition ex_obslat : list num :=
  [Fin (1 # 5); Fin (9 # 10); Fin 0; Fin (1 # 2); Fin 0].
Definition ex_obsvalue : list num :=
  [Fin 16; Fin 14; Fin 20; Fin 18; Fin 17].
Definition ex_obsinvsigma2 : list num := replicate 5 (Fin 1).

(** A file of seven observations for the same grid: the first and the
    last pass the selection of [loadobs], the others fail one test each
    (longitude on the western edge, depth, value, missing depth, longitude
    east of the grid). *)
Definition ex_file_obslon : list num :=
  [Fin (1 # 2); Fin 0; Fin (3 # 2); Fin 1; Fin 1; Fin 5; Fin (3 # 2)].
Definition ex_file_obslat : list num := replicate 7 (Fin (1 # 2)).
Definition ex_file_obsdepth : list num :=
  [Fin 5; Fin 5; Fin 12; Fin 5; NaN; Fin 5; Fin 0].
Definition ex_file_obstime : list num :=
  [Fin 0; Fin 1; Fin 2; Fin 3; Fin 4; Fin 5; Fin (3 # 2)].
Definition ex_file_obsvalue : list num :=
  [Fin 16; Fin 17; Fin 18; Fin 250; Fin 19; Fin 20; Fin (-2)].

Definition ex_dataset : dataset :=
  {[ "obslon" := ex_file_obslon;
     "obslat" := ex_file_obslat;
     "obsdepth" := ex_file_obsdepth;
     "obstime" := ex_file_obstime;
     "Temperature" := ex_file_obsvalue ]}.

Definition ex_fs : gmap string dataset :=
  {[ "Temperature.train.nc" := ex_dataset ]}.

(** The clean tensor of the first month on the small grid, for the five
    observations above, alone in the store. *)
Definition ex_minvsigma2 : list num :=
  [Fin 3; Fin 0; Fin 0; Fin 0; Fin 0; Fin 1].
Definition ex_tensor : tensor :=
  clean_tensor cos_at_zero sin_at_zero pi_approx ex_lon ex_lat 1
    [Fin 6; Fin 0; Fin 0; Fin 0; Fin 0; Fin (-1)] ex_minvsigma2.
Definition ex_state : state := State {[ 0%nat := ex_tensor ]} 0 0.

(** A batch of two rows on the small grid; the two cells of the first
    column are land. *)
Definition ex_meandata : marray :=
  MArray (replicate 6 (Fin 15)) [true; false; false; true; false; false].
Definition ex_batch_m_rec : list (list num) :=
  [ [Fin 1; Fin 2; Fin 3; Fin 4; Fin 5; Fin 6];
    [Fin (-1); Fin (-2); Fin (-3); Fin (-4); Fin (-5); Fin (-6)] ].
Definition ex_batch_sigma2_rec : list (list num) :=
  [ replicate 6 (Fin 4); replicate 6 (Fin (9 # 4)) ].

(** A file system that holds the file this batch gives, written from
    time index 1 on. *)
Definition ex_out_fs : gmap string ncfile :=
  {[ "out.nc" :=
       NcFile ex_lon ex_lat
         [Fin (-9999); Fin 15; Fin 15; Fin (-9999); Fin 15; Fin 15]
         [ replicate 6 (Fin (-9999));
           [Fin (-9999); Fin 17; Fin 18; Fin (-9999); Fin 20; Fin 21];
           [Fin (-9999); Fin 13; Fin 12; Fin (-9999); Fin 10; Fin 9] ]
         [ replicate 6 (Fin (-9999));
           [Fin (-9999); Fin (4 # 2); Fin (4 # 2); Fin (-9999); Fin (4 # 2);
            Fin (4 # 2)];
           [Fin (-9999); Fin (12 # 8); Fin (12 # 8); Fin (-9999);
            Fin (12 # 8); Fin (12 # 8)] ] ]}.

(** Reconstructions for the twelve months on the small grid: the field
    [lon + month], with one cell missing in January; and four
    observations, three in January and one in February. *)
Definition ex_value : list (list num) :=
  map (λ m, if (m =? 0)%nat
            then [Fin 0; Fin 1; Fin 2; Fin 0; Fin 1; NaN]
            else map (λ x, nadd x (num_of_Z (Z.of_nat m))) 
                     [Fin 0; Fin 1; Fin 2; Fin 0; Fin 1; Fin 2])
      (seq 0 12).
Definition ex_cv_obsvalue : list num := [Fin 1; Fin 0; Fin 3; Fin 2].
Definition ex_cv_obslon : list num :=
  [Fin (1 # 2); Fin (1 # 4); Fin (3 # 2); Fin (1 # 2)].
Definition ex_cv_obslat : list num :=
  [Fin (1 # 2); Fin (1 # 4); Fin (1 # 2); Fin (1 # 2)].
Definition ex_cv_obsdepth : list num := replicate 4 (Fin 1).
Definition ex_cv_obstime : list Z :=
  [10 * 86400; 11 * 86400; 12 * 86400; 41 * 86400].

(** An 8 x 8 grid with spacing 1/8 in both directions starting at (0, 0),
    and for every month one observation of value 16 next to every grid
    point: a quarter of the spacing away from it along both axes, towards
    the interior of the grid.  Every observation is strictly inside the
    bounds that [loadobs] tests, and nearest to its grid point. *)
Definition axis8 (start : Q) : list num :=
  map (λ k, Fin (start + (Z.of_nat k # 8))) (seq 0 8).

Definition inner8 (start : Q) : list num :=
  map (λ k, Fin (start +
                 ((if (k <? 7)%nat then 4 * Z.of_nat k + 1 else 27) # 32)))
      (seq 0 8).

Definition run_lon : list num := axis8 0.
Definition run_lat : list num := axis8 0.
Definition run_obslon : list num :=
  concat (replicate 12 (concat (replicate 8 (inner8 0)))).
Definition run_obslat : list num :=
  concat (replicate 12 (inner8 0 ≫= replicate 8)).
Definition run_obsvalue : list num := replicate (12 * 64) (Fin 16).
Definition run_obsdepth : list num := replicate (12 * 64) (Fin 1).
Definition run_obstime : list Z := mid_months ≫= replicate 64.

Definition run_uniform : nat → num := λ _, Fin (1 # 2).
Definition run_randn : nat → num :=
  λ k, Fin ((Z.of_nat (k mod 5) - 2) # 2).

Definition state0 : state := State ∅ 0 0.

Definition run_datagen (train : bool) (fuel : nat) :=
  datagen sqrt_floor cos_at_zero sin_at_zero pi_approx run_uniform run_randn
    month_index_1970 run_lon run_lat run_obsvalue run_obslon run_obslat
    run_obsdepth run_obstime train
    (Fin (1 # 10)) (Fin (1 # 10)) (Fin (1 # 2)) fuel state0.

Definition run_datagen_yields (train : bool) (fuel : nat)
  : list (tensor * tensor) :=
  datagen_yields sqrt_floor cos_at_zero sin_at_zero pi_approx run_uniform
    run_randn month_index_1970 run_lon run_lat run_obsvalue run_obslon
    run_obslat run_obsdepth run_obstime train
    (Fin (1 # 10)) (Fin (1 # 10)) (Fin (1 # 2)) fuel state0.

(** The same observations on a grid whose latitudes start at 10. *)
Definition far_lat : list num := axis8 10.
Definition far_obslat : list num :=
  concat (replicate 12 (inner8 10 ≫= replicate 8)).

(** The files these observations are loaded from: the times are days
    since 1900, the eleventh day of each month of 1970. *)
Definition run_file_obstime : list num :=
  map (λ t, num_of_Z (25567 + t / 86400)) run_obstime.

Definition run_dataset (obslat : list num) : dataset :=
  {[ "obslon" := run_obslon;
     "obslat" := obslat;
     "obsdepth" := run_obsdepth;
     "obstime" := run_file_obstime;
     "Temperature" := run_obsvalue ]}.

Definition run_fs : gmap string dataset :=
  {[ "Temperature.train.nc" := run_dataset run_obslat ]}.
Definition far_fs : gmap string dataset :=
  {[ "Temperature.train.nc" := run_dataset far_obslat ]}.

(** The first cell of the first sample, input and target: in the test
    generator the input is clean, in the training generator the gap step
    has set channels 0 and 1 to zero and the jitter has moved channels 2
    and 3. *)
Definition first_cells (r : option (list (tensor * tensor) * state))
  : option (option (list num) * option (list num)) :=
  match r with
  | Some (smp :: _, _) => Some (head smp.1, head smp.2)
  | _ => None
  end.

(** ** binaverage *)

(** [np.bincount(lin, minlength=n)] without weights: entry [k] counts the
    occurrences of the index [k].  NumPy raises on a negative index. *)
Definition bincount_count (lin : list Z) (minlength : nat)
  : option (list nat) :=
  if forallb (Z.leb 0) lin then
    let n := foldr (λ k m, Nat.max (S (Z.to_nat k)) m) minlength lin in
    Some (fold_left (λ out k, alter S (Z.to_nat k) out) lin
                    (replicate n 0%nat))
  else None.

(** [a.reshape(sz)] for the array of counts. *)
Definition reshape_count (nrow ncol : nat) (a : list nat)
  : option (list nat) :=
  if (length a =? nrow * ncol)%nat then Some a else None.

Definition num_of_nat (n : nat) : num := num_of_Z (Z.of_nat n).

(** Lines 93-106.  Unlike [binanalysis] the indices are not filtered
    before they are handed to [bincount]. *)
Definition binaverage (obslon obslat obsvalue lon lat : list num)
  : option (list num) :=
  lon0 ← lon !! 0%nat; lon1 ← lon !! 1%nat;
  lat0 ← lat !! 0%nat; lat1 ← lat !! 1%nat;
  let nlon := Z.of_nat (length lon) in
  let i := map (grid_index lon0 lon1) obslon in
  let j := map (grid_index lat0 lat1) obslat in
  lin ← broadcast2 (λ j i, wrap64 (wrap64 (j * nlon) + i)) j i;
  let len := (length lat * length lon)%nat in
  mcount ← bincount_count lin len ≫= reshape_count (length lat) (length lon);
  msum ← bincount lin obsvalue len ≫= reshape (length lat) (length lon);
  let mmean := replicate len NaN in
  let pos := map (λ n, (0 <? n)%nat) mcount in
  Some (put pos mmean
          (zip_with ndiv (select pos msum)
                         (map num_of_nat (select pos mcount)))).

(** The observations handed to [binaverage] as rows, with the weight one
    that an average gives to each. *)
Definition average_table (obslon obslat obsvalue : list num) : list obsrow :=
  obs_table obslon obslat obsvalue (replicate (length obsvalue) (Fin 1)).

Definition obs_value (o : obsrow) : num := o.2.2.1.

(** The arithmetic mean [sum / count] of a non-empty list of values, NaN
    for the empty list. *)
Definition mean_or_nan (l : list num) : num :=
  match l with
  | [] => NaN
  | _ => ndiv (nsum l) (num_of_nat (length l))
  end.

(** The observations of the small grid without the one east of it: the
    rounded indices of all four are inside the grid. *)
Definition ex_in_obslon : list num :=
  [Fin (2 # 5); Fin (8 # 5); Fin (1 # 2); Fin (1 # 4)].
Definition ex_in_obslat : list num :=
  [Fin (1 # 5); Fin (9 # 10); Fin (1 # 2); Fin 0].
Definition ex_in_obsvalue : list num := [Fin 16; Fin 14; Fin 18; Fin 17].

(** The third of the five observations, at longitude 5 and latitude 0:
    row 0, column 5 of a grid that has three columns. *)
Definition ex_east_obs : obsrow := (Fin 5, (Fin 0, (Fin 20, Fin 1))).

(** Depths and times for the five observations of the small grid: all
    near the surface, all on the eleventh of January 1970. *)
Definition ex_obsdepth : list num := replicate 5 (Fin 1).
Definition ex_obstime : list Z := replicate 5 (10 * 86400).

(** The training generator on the small grid, for one month. *)
Definition ex_datagen_body (train : bool) (fuel : nat) (month : Z) :=
  datagen_body sqrt_floor cos_at_zero sin_at_zero pi_approx run_uniform
    run_randn month_index_1970 ex_lon ex_lat ex_obsvalue ex_obslon ex_obslat
    ex_obsdepth ex_obstime train (Fin (1 # 10)) (Fin (1 # 10)) (Fin (1 # 2))
    fuel month state0.

(** The first iteration of the training generator on the 8 x 8 grid. *)
Definition run_datagen_body (train : bool) (fuel : nat) :=
  datagen_body sqrt_floor cos_at_zero sin_at_zero pi_approx run_uniform
    run_randn month_index_1970 run_lon run_lat run_obsvalue run_obslon
    run_obslat run_obsdepth run_obstime train
    (Fin (1 # 10)) (Fin (1 # 10)) (Fin (1 # 2)) fuel 1 state0.

(** ** monthlyCVRMS_files *)

(** A file of reconstructions as [monthlyCVRMS_files] reads it: the two
    axes and the variable [mean_rec], one masked field per time index. *)
Record recfile := RecFile {
  rec_lon : list num;
  rec_lat : list num;
  rec_mean_rec : list marray;
}.

(** [a.filled(np.NaN)] *)
Definition filled_nan (a : marray) : list num :=
  zip_with (λ (m : bool) x, if m then NaN else x) (ma_mask a) (ma_data a).

Section monthlyCVRMS_files.
Variable np_sqrt : num → num.
Variable month_index : Z → Z.
Variable interpn :
  list num * list num → list num → list (num * num) → option (list num).
(** The module-level grid, which [loadobs] reads. *)
Variable lon lat : list num.

(** Lines 326-334.  The axes handed to [monthlyCVRMS] are those of the
    file of reconstructions; the selection of [loadobs] uses the grid of
    the module. *)
Definition monthlyCVRMS_files (recs : gmap string recfile)
    (fs : gmap string dataset) (fname fnamecv varname : string)
  : option (list num * num) :=
  ds ← recs !! fname;
  let v := map filled_nan (rec_mean_rec ds) in
  '(obsvalue, obslon, obslat, obsdepth, obstime) ←
     loadobs fs lon lat fnamecv varname;
  monthlyCVRMS np_sqrt month_index interpn (rec_lon ds) (rec_lat ds) v
    obsvalue obslon obslat obsdepth obstime.
End monthlyCVRMS_files.

(** A file of twelve reconstructions on the small grid, the last cell of
    the first row masked in every month, and a file of observations for
    the cross-validation, the times in days since 1900. *)
Definition ex_recfile : recfile :=
  RecFile ex_lon ex_lat
    (map (λ field, MArray field [false; false; true; false; false; false])
       ex_value).

Definition ex_cv_dataset : dataset :=
  {[ "obslon" := ex_cv_obslon;
     "obslat" := ex_cv_obslat;
     "obsdepth" := ex_cv_obsdepth;
     "obstime" := [Fin 25577; Fin 25578; Fin 25579; Fin 25608];
     "Temperature" := ex_cv_obsvalue ]}.

Definition ex_recs : gmap string recfile := {[ "rec.nc" := ex_recfile ]}.
Definition ex_cv_fs : gmap string dataset :=
  {[ "Temperature.cv.nc" := ex_cv_dataset ]}.

(** * Properties *)

(** ** Numbers *)

Lemma Qltb_lt p q : Qltb p q = true ↔ (p < q)%Q.
Proof.
  unfold Qltb. rewrite Qlt_alt. destruct (p ?= q)%Q; split; congruence.
Qed.

Lemma Qltb_ge p q : Qltb p q = false ↔ (q <= p)%Q.
Proof.
  rewrite <- not_true_iff_false, Qltb_lt. split; [apply Qnot_lt_le | apply Qle_not_lt].
Qed.

Lemma Qle_bool_gt p q : Qle_bool p q = false ↔ (q < p)%Q.
Proof.
  rewrite <- not_true_iff_false, Qle_bool_iff.
  split; [apply Qnot_le_lt | apply Qlt_not_le].
Qed.

Global Instance neq_equivalence : Equivalence neq.
Proof.
  split.
  - intros []; simpl; auto. reflexivity.
  - intros [] []; simpl; auto. intros; by symmetry.
  - intros [] [] []; simpl; auto; try tauto. intros; by etrans.
Qed.

Lemma neqb_neq a b : neqb a b = true ↔ neq a b.
Proof.
  destruct a, b; simpl; try (split; (done || congruence)).
  apply Qeq_bool_iff.
Qed.

Lemma Qtrunc_inject_Z z : Qtrunc (inject_Z z) = z.
Proof. unfold Qtrunc. simpl. apply Z.quot_1_r. Qed.

Lemma wrap64_small z : - 2 ^ 63 <= z < 2 ^ 63 → wrap64 z = z.
Proof.
  intros H. unfold wrap64. rewrite Z.mod_small; lia.
Qed.

(** The stored index is the mathematical one exactly when that one is a
    non-negative [int64]. *)
Lemma grid_index_nearest a0 a1 o (c : Z) :
  0 <= c < 2 ^ 63 →
  grid_index a0 a1 o = c ↔ nearest a0 a1 o = Some c.
Proof.
  intros Hc. unfold grid_index, nearest.
  destruct (ndiv (nsub o a0) (nsub a1 a0)) as [q| | |]; simpl;
    try (unfold int64_min; split; intros; [lia | congruence]).
  rewrite Qtrunc_inject_Z.
  destruct (andb _ _) eqn:E.
  - split; congruence.
  - split.
    + unfold int64_min. lia.
    + intros [= Heq]. rewrite Heq in E. unfold int64_min, int64_max in E.
      apply andb_false_iff in E as [E|E]; lia.
Qed.

Lemma grid_index_range a0 a1 o :
  0 <= grid_index a0 a1 o →
  nearest a0 a1 o = Some (grid_index a0 a1 o) ∧ grid_index a0 a1 o < 2 ^ 63.
Proof.
  intros H. unfold grid_index, nearest in *.
  destruct (ndiv (nsub o a0) (nsub a1 a0)) as [q| | |]; simpl in *;
    try (unfold int64_min in H; lia).
  rewrite Qtrunc_inject_Z in *.
  destruct (andb _ _) eqn:E; [| unfold int64_min in H; lia].
  split; [done|]. unfold int64_max in E. lia.
Qed.

(** ** Masks *)

Arguments rank : simpl never.
Arguments count_true : simpl never.

Section masks.
Context {A B : Type}.
Implicit Types (mask : list bool) (a : list A).

Lemma select_map (f : A → B) mask a :
  select mask (map f a) = map f (select mask a).
Proof.
  revert a; induction mask as [|m mask IH]; intros [|x a]; simpl; auto.
  destruct m; simpl; by rewrite IH.
Qed.

Lemma select_filter (p : A → bool) a :
  select (map p a) a = filter (λ x, p x = true) a.
Proof.
  induction a as [|x a IH]; simpl; [done|].
  rewrite filter_cons. destruct (p x) eqn:E; simpl; by rewrite IH.
Qed.

Lemma count_true_cons (m : bool) mask :
  count_true (m :: mask) = ((if m then 1 else 0) + count_true mask)%nat.
Proof.
  unfold count_true. rewrite filter_cons. by destruct m.
Qed.

Lemma length_select mask a :
  length mask = length a → length (select mask a) = count_true mask.
Proof.
  revert a; induction mask as [|m mask IH]; intros [|x a] H; simpl in *;
    try done.
  rewrite count_true_cons. destruct m; simpl; rewrite IH; auto.
Qed.

Lemma length_put mask a vals : length (put mask a vals) = length a.
Proof.
  revert a vals; induction mask as [|m mask IH]; intros [|x a] vals;
    simpl; try done.
  destruct m; [destruct vals|]; simpl; by rewrite IH.
Qed.

Lemma rank_S (m : bool) mask k :
  rank (m :: mask) (S k) = ((if m then 1 else 0) + rank mask k)%nat.
Proof. unfold rank. simpl. apply count_true_cons. Qed.

(** Reading [a[mask] = vals] back: a selected position holds the value
    of its rank, any other position is unchanged. *)
Lemma lookup_put mask a vals k :
  length mask = length a → length vals = count_true mask →
  put mask a vals !! k =
    match mask !! k with
    | Some true => vals !! rank mask k
    | _ => a !! k
    end.
Proof.
  revert a vals k; induction mask as [|m mask IH]; intros [|x a] vals k Hl Hv;
    simpl in *; try done.
  rewrite count_true_cons in Hv.
  destruct m.
  - destruct vals as [|v vals]; [done|]. simpl in Hv.
    destruct k as [|k]; [done|]. rewrite rank_S. simpl.
    apply IH; lia.
  - destruct k as [|k]; [done|]. rewrite rank_S. simpl.
    apply IH; lia.
Qed.

Lemma select_nil_r mask : select mask (@nil A) = [].
Proof. by destruct mask. Qed.

Lemma lookup_select mask a k :
  mask !! k = Some true → select mask a !! rank mask k = a !! k.
Proof.
  revert a k; induction mask as [|m mask IH]; intros [|x a] k Hk;
    try done.
  destruct k as [|k]; simpl in *.
  - simplify_eq. done.
  - rewrite rank_S. destruct m; simpl; by apply IH.
Qed.
End masks.

(** ** bincount *)

Section bincount.
Context {X : Type} (f : X → Z) (g : X → num).

Local Abbreviation step :=
  (λ (out : list num) (kw : Z * num),
     alter (λ s, nadd s kw.2) (Z.to_nat kw.1) out).

Lemma accumulate_length (kws : list (Z * num)) init :
  length (fold_left step kws init) = length init.
Proof.
  revert init; induction kws as [|kw kws IH]; intros init; simpl; [done|].
  by rewrite IH, length_alter.
Qed.

Lemma accumulate_lookup (F : list X) init (k : nat) :
  Forall (λ o, 0 <= f o) F →
  fold_left step (zip (map f F) (map g F)) init !! k =
    (λ s0, fold_left nadd (map g (filter (λ o, f o = Z.of_nat k) F)) s0)
      <$> init !! k.
Proof.
  intros HF; revert init; induction HF as [|o F Ho HF IH]; intros init.
  { simpl. by destruct (init !! k). }
  simpl. rewrite IH. rewrite filter_cons.
  destruct (decide (f o = Z.of_nat k)) as [E|E].
  - rewrite E, Nat2Z.id, list_lookup_alter.
    rewrite decide_True by done.
    destruct (init !! k); simpl; done.
  - rewrite list_lookup_alter_ne by lia. done.
Qed.

Lemma bincount_minlength (lin : list Z) (n : nat) :
  Forall (λ k, 0 <= k < Z.of_nat n) lin →
  foldr (λ k m, Nat.max (S (Z.to_nat k)) m) n lin = n.
Proof.
  induction 1 as [|k lin Hk _ IH]; simpl; [done|].
  rewrite IH. lia.
Qed.

(** The entry [k] of the result is the sum, in input order, of the
    weights whose index is [k]. *)
Lemma bincount_map (F : list X) (n : nat) :
  Forall (λ o, 0 <= f o < Z.of_nat n) F →
  ∃ out, bincount (map f F) (map g F) n = Some out ∧ length out = n ∧
    ∀ k, (k < n)%nat →
      out !! k = Some (nsum (map g (filter (λ o, f o = Z.of_nat k) F))).
Proof.
  intros HF. unfold bincount.
  assert (forallb (Z.leb 0) (map f F) = true) as ->.
  { apply forallb_forall. intros k Hk. apply in_map_iff in Hk as (o&<-&Ho).
    rewrite Forall_forall in HF. apply list_elem_of_In, HF in Ho. lia. }
  rewrite !length_map, Nat.eqb_refl. simpl.
  rewrite bincount_minlength.
  2:{ apply Forall_fmap. apply (Forall_impl _ _ _ HF). done. }
  eexists; split; [done|]. split.
  - by rewrite accumulate_length, length_replicate.
  - intros k Hk. rewrite accumulate_lookup.
    + rewrite lookup_replicate_2 by done. done.
    + apply (Forall_impl _ _ _ HF). intros; lia.
Qed.
End bincount.

(** ** binanalysis: the accumulated fields *)

Lemma same_length4_spec {A} (a b c d : list A) :
  same_length4 a b c d = true ↔
  length a = length b ∧ length b = length c ∧ length c = length d.
Proof.
  unfold same_length4. rewrite !andb_true_iff, !Nat.eqb_eq. tauto.
Qed.

Lemma obs_table_cols obslon obslat obsvalue obsinvsigma2 :
  same_length4 obslon obslat obsvalue obsinvsigma2 = true →
  let T := obs_table obslon obslat obsvalue obsinvsigma2 in
  obslon = map fst T ∧ obslat = map (λ o : obsrow, o.2.1) T ∧
  obsvalue = map (λ o : obsrow, o.2.2.1) T ∧
  obsinvsigma2 = map weight T.
Proof.
  intros (H1&H2&H3)%same_length4_spec. simpl. unfold obs_table, weight.
  revert obslat obsvalue obsinvsigma2 H1 H2 H3.
  induction obslon as [|a l IH]; intros [|b l2] [|c l3] [|d l4] H1 H2 H3;
    simplify_eq/=; try done.
  destruct (IH l2 l3 l4) as (?&?&?&?); [done..|].
  repeat split; congruence.
Qed.

Lemma zip_with_map_same {A B C D} (h : B → C → D) (f : A → B) (g : A → C) l :
  zip_with h (map f l) (map g l) = map (λ x, h (f x) (g x)) l.
Proof. induction l; simpl; congruence. Qed.

(** The selection and the linear indices, over the rows. *)
Lemma binanalysis_lin_rows (T : list obsrow) lon lat lon0 lon1 lat0 lat1 :
  lon !! 0%nat = Some lon0 → lon !! 1%nat = Some lon1 →
  lat !! 0%nat = Some lat0 → lat !! 1%nat = Some lat1 →
  let nlon := Z.of_nat (length lon) in
  let nlat := Z.of_nat (length lat) in
  binanalysis_lin (map fst T) (map (λ o : obsrow, o.2.1) T) lon lat =
    Some (map (sel_of lon0 lon1 lat0 lat1 nlon nlat) T,
          map (lin_of lon0 lon1 lat0 lat1 nlon)
            (filter (λ o, sel_of lon0 lon1 lat0 lat1 nlon nlat o = true) T)).
Proof.
  intros Hlon0 Hlon1 Hlat0 Hlat1. simpl.
  unfold binanalysis_lin.
  rewrite Hlon0, Hlon1, Hlat0, Hlat1. simpl.
  rewrite !length_map, Nat.eqb_refl.
  rewrite !map_map.
  rewrite (zip_with_map_same (in_grid _ _)).
  change (map (λ x : obsrow, in_grid _ _ _ _) T)
    with (map (sel_of lon0 lon1 lat0 lat1 (Z.of_nat (length lon))
                 (Z.of_nat (length lat))) T).
  rewrite !select_map, !select_filter.
  by rewrite !zip_with_map_same.
Qed.

(** [binanalysis_accumulate] as two [bincount]s over the rows that are
    selected. *)
Lemma binanalysis_accumulate_rows (T : list obsrow) lon lat lon0 lon1 lat0 lat1 :
  lon !! 0%nat = Some lon0 → lon !! 1%nat = Some lon1 →
  lat !! 0%nat = Some lat0 → lat !! 1%nat = Some lat1 →
  let nlon := Z.of_nat (length lon) in
  let nlat := Z.of_nat (length lat) in
  let F := filter (λ o, sel_of lon0 lon1 lat0 lat1 nlon nlat o = true) T in
  let lin := map (lin_of lon0 lon1 lat0 lat1 nlon) F in
  binanalysis_accumulate (map fst T) (map (λ o : obsrow, o.2.1) T)
      (map (λ o : obsrow, o.2.2.1) T) (map weight T) lon lat =
    (msum ← bincount lin (map weighted F) (length lat * length lon)
              ≫= reshape (length lat) (length lon);
     minvsigma2 ← bincount lin (map weight F) (length lat * length lon)
              ≫= reshape (length lat) (length lon);
     Some (msum, minvsigma2)).
Proof.
  intros Hlon0 Hlon1 Hlat0 Hlat1. simpl.
  unfold binanalysis_accumulate.
  rewrite (binanalysis_lin_rows T lon lat lon0 lon1 lat0 lat1) by done.
  simpl.
  assert (same_length4 (map fst T) (map (λ o : obsrow, o.2.1) T)
            (map (λ o : obsrow, o.2.2.1) T) (map weight T) = true) as ->.
  { apply same_length4_spec. by rewrite !length_map. }
  rewrite !select_map, !select_filter.
  by rewrite !zip_with_map_same.
Qed.

Lemma binanalysis_accumulate_table
    obslon obslat obsvalue obsinvsigma2 lon lat lon0 lon1 lat0 lat1 :
  lon !! 0%nat = Some lon0 → lon !! 1%nat = Some lon1 →
  lat !! 0%nat = Some lat0 → lat !! 1%nat = Some lat1 →
  same_length4 obslon obslat obsvalue obsinvsigma2 = true →
  let nlon := Z.of_nat (length lon) in
  let nlat := Z.of_nat (length lat) in
  let F := filter (λ o, sel_of lon0 lon1 lat0 lat1 nlon nlat o = true)
             (obs_table obslon obslat obsvalue obsinvsigma2) in
  let lin := map (lin_of lon0 lon1 lat0 lat1 nlon) F in
  binanalysis_accumulate obslon obslat obsvalue obsinvsigma2 lon lat =
    (msum ← bincount lin (map weighted F) (length lat * length lon)
              ≫= reshape (length lat) (length lon);
     minvsigma2 ← bincount lin (map weight F) (length lat * length lon)
              ≫= reshape (length lat) (length lon);
     Some (msum, minvsigma2)).
Proof.
  intros Hlon0 Hlon1 Hlat0 Hlat1 Hlen. simpl.
  destruct (obs_table_cols _ _ _ _ Hlen) as (E1&E2&E3&E4).
  rewrite <- (binanalysis_accumulate_rows _ lon lat) by done.
  by rewrite <- E1, <- E2, <- E3, <- E4.
Qed.

Section cells.
Context (lon0 lon1 lat0 lat1 : num) (nlon nlat : nat).
Hypothesis Hsize : Z.of_nat nlat * Z.of_nat nlon < 2 ^ 63.

Local Abbreviation sel := (sel_of lon0 lon1 lat0 lat1 (Z.of_nat nlon) (Z.of_nat nlat)).
Local Abbreviation lin := (lin_of lon0 lon1 lat0 lat1 (Z.of_nat nlon)).

Lemma in_grid_spec (i j : Z) :
  in_grid (Z.of_nat nlon) (Z.of_nat nlat) i j = true ↔
  0 <= i < Z.of_nat nlon ∧ 0 <= j < Z.of_nat nlat.
Proof. unfold in_grid. rewrite !andb_true_iff. lia. Qed.

Lemma lin_of_selected (o : obsrow) :
  sel o = true →
  lin o = grid_index lat0 lat1 o.2.1 * Z.of_nat nlon + grid_index lon0 lon1 o.1.
Proof.
  unfold sel_of, lin_of. rewrite in_grid_spec.
  generalize (grid_index lat0 lat1 o.2.1), (grid_index lon0 lon1 o.1).
  intros j i [Hi Hj].
  assert (0 <= j * Z.of_nat nlon) by (clear Hsize; nia).
  assert (j * Z.of_nat nlon + i < Z.of_nat nlat * Z.of_nat nlon)
    by (clear Hsize; nia).
  rewrite (wrap64_small (j * _)) by lia. rewrite wrap64_small by lia. done.
Qed.

(** A selected observation has its linear index inside the flat field. *)
Lemma lin_of_range (o : obsrow) :
  sel o = true → 0 <= lin o < Z.of_nat (nlat * nlon).
Proof.
  intros Hs. rewrite lin_of_selected by done.
  unfold sel_of in Hs. apply in_grid_spec in Hs as [Hi Hj].
  clear Hsize. nia.
Qed.

(** Selected with linear index [r * nlon + c] means: the nearest grid
    point is the one in row [r], column [c]. *)
Lemma selected_cell_assigned (o : obsrow) (r c : nat) :
  (r < nlat)%nat → (c < nlon)%nat →
  lin o = Z.of_nat (r * nlon + c) ∧ sel o = true ↔
  assigned lon0 lon1 lat0 lat1 r c o.
Proof.
  intros Hr Hc. unfold assigned. split.
  - intros [Hl Hs]. rewrite lin_of_selected in Hl by done.
    unfold sel_of in Hs. apply in_grid_spec in Hs as [Hi Hj].
    assert (Z.of_nat nlat <= 2 ^ 63 ∧ Z.of_nat nlon <= 2 ^ 63) as [? ?]
      by (split; nia).
    assert (grid_index lat0 lat1 o.2.1 = Z.of_nat r) as Er
      by (clear Hsize; nia).
    assert (grid_index lon0 lon1 o.1 = Z.of_nat c) as Ec
      by (clear Hsize; nia).
    split; apply grid_index_nearest; (lia || done).
  - intros [Hc' Hr'].
    assert (Z.of_nat nlat <= 2 ^ 63 ∧ Z.of_nat nlon <= 2 ^ 63) as [? ?]
      by (split; nia).
    apply grid_index_nearest in Hc'; [|lia].
    apply grid_index_nearest in Hr'; [|lia].
    assert (sel o = true) as Hs.
    { unfold sel_of. apply in_grid_spec. lia. }
    split; [|done]. rewrite lin_of_selected by done. lia.
Qed.

(** An observation whose rounded indices fall outside the grid is not
    selected. *)
Lemma outside_not_selected (o : obsrow) :
  outside lon0 lon1 lat0 lat1 nlat nlon o → sel o = false.
Proof.
  intros Ho. apply not_true_iff_false. intros Hs.
  unfold sel_of in Hs. apply in_grid_spec in Hs as [Hi Hj].
  destruct (grid_index_range lon0 lon1 o.1) as [Ei _]; [lia|].
  destruct (grid_index_range lat0 lat1 o.2.1) as [Ej _]; [lia|].
  by apply (Ho _ _ Ei Ej).
Qed.
End cells.

(** The two accumulated fields, cell by cell. *)
Lemma binanalysis_accumulate_cells
    obslon obslat obsvalue obsinvsigma2 lon lat lon0 lon1 lat0 lat1 :
  lon !! 0%nat = Some lon0 → lon !! 1%nat = Some lon1 →
  lat !! 0%nat = Some lat0 → lat !! 1%nat = Some lat1 →
  same_length4 obslon obslat obsvalue obsinvsigma2 = true →
  Z.of_nat (length lat) * Z.of_nat (length lon) < 2 ^ 63 →
  let T := obs_table obslon obslat obsvalue obsinvsigma2 in
  ∃ msum minvsigma2,
    binanalysis_accumulate obslon obslat obsvalue obsinvsigma2 lon lat
      = Some (msum, minvsigma2) ∧
    length msum = (length lat * length lon)%nat ∧
    length minvsigma2 = (length lat * length lon)%nat ∧
    ∀ r c, (r < length lat)%nat → (c < length lon)%nat →
      msum !! (r * length lon + c)%nat =
        Some (nsum (map weighted (filter (assigned lon0 lon1 lat0 lat1 r c) T))) ∧
      minvsigma2 !! (r * length lon + c)%nat =
        Some (nsum (map weight (filter (assigned lon0 lon1 lat0 lat1 r c) T))).
Proof.
  intros Hlon0 Hlon1 Hlat0 Hlat1 Hlen Hsize T.
  rewrite (binanalysis_accumulate_table _ _ _ _ _ _ _ _ _ _
             Hlon0 Hlon1 Hlat0 Hlat1 Hlen).
  fold T.
  set (F := filter _ T).
  assert (Forall (λ o, 0 <= lin_of lon0 lon1 lat0 lat1 (Z.of_nat (length lon)) o
                       < Z.of_nat (length lat * length lon)) F) as HF.
  { apply Forall_forall. intros o [Ho _]%list_elem_of_filter.
    by apply lin_of_range. }
  destruct (bincount_map _ weighted F _ HF) as (msum&->&Lm&Hm).
  destruct (bincount_map _ weight F _ HF) as (minv&->&Li&Hi).
  simpl. unfold reshape. rewrite Lm, Li, Nat.eqb_refl. simpl.
  exists msum, minv. repeat split; try done.
  - rewrite Hm by nia. do 3 f_equal. unfold F.
    rewrite list_filter_filter. apply list_filter_iff. intros o.
    by apply selected_cell_assigned.
  - rewrite Hi by nia. do 3 f_equal. unfold F.
    rewrite list_filter_filter. apply list_filter_iff. intros o.
    by apply selected_cell_assigned.
Qed.

(** ** binanalysis: the returned fields *)

Arguments ngt : simpl never.

(** [a[mask] = f(c[mask], b[mask])] with [mask = p(b)], position by
    position. *)
Lemma lookup_put_masked {A} (p : A → bool) (f : A → A → A) (a b c : list A) k :
  length a = length b → length c = length b →
  put (map p b) a (zip_with f (select (map p b) c) (select (map p b) b)) !! k =
    match b !! k, c !! k with
    | Some y, Some x => if p y then Some (f x y) else a !! k
    | _, _ => a !! k
    end.
Proof.
  intros Ha Hc.
  rewrite lookup_put.
  2:{ by rewrite length_map. }
  2:{ rewrite length_zip_with, !length_select by (rewrite length_map; lia).
      lia. }
  rewrite list_lookup_fmap.
  destruct (b !! k) as [y|] eqn:Eb; simpl.
  - destruct (lookup_lt_is_Some_2 c k) as [x Ec].
    { rewrite Hc. by eapply lookup_lt_Some. }
    rewrite Ec. destruct (p y) eqn:Ep; [|done].
    rewrite lookup_zip_with.
    rewrite !lookup_select by (by rewrite list_lookup_fmap, Eb; simpl; rewrite Ep).
    by rewrite Ec, Eb.
  - done.
Qed.

Lemma binanalysis_result
    obslon obslat obsvalue obsinvsigma2 lon lat sigma2_min msum0 minv0 :
  binanalysis_accumulate obslon obslat obsvalue obsinvsigma2 lon lat
    = Some (msum0, minv0) →
  length msum0 = (length lat * length lon)%nat →
  length minv0 = (length lat * length lon)%nat →
  ∃ mmean,
    let alpha := map (correction_factor sigma2_min) minv0 in
    let msum := zip_with nmul alpha msum0 in
    let minvsigma2 := zip_with nmul alpha minv0 in
    binanalysis obslon obslat obsvalue obsinvsigma2 lon lat sigma2_min
      = Some (mmean, msum, minvsigma2) ∧
    length mmean = (length lat * length lon)%nat ∧
    ∀ k s m, msum !! k = Some s → minvsigma2 !! k = Some m →
      mmean !! k = Some (if ngt m (Fin 0) then ndiv s m else NaN).
Proof.
  intros Hacc Ls Lm. unfold binanalysis. rewrite Hacc. simpl.
  eexists. split; [reflexivity|]. split.
  - by rewrite length_put, length_replicate.
  - intros k s m Hs Hm.
    rewrite (lookup_put_masked (λ m, ngt m (Fin 0)) (λ x y, ndiv x y)).
    + rewrite Hs, Hm. cbv beta. destruct (ngt m (Fin 0)); [done|].
      apply lookup_replicate_2.
      apply lookup_lt_Some in Hm.
      rewrite length_zip_with, length_map in Hm. lia.
    + rewrite length_replicate, length_zip_with, length_map. lia.
    + rewrite !length_zip_with, !length_map. lia.
Qed.

Lemma lookup_two_of_length {A} (l : list A) :
  (2 <= length l)%nat → ∃ x y, l !! 0%nat = Some x ∧ l !! 1%nat = Some y.
Proof. destruct l as [|x [|y l]]; simpl; [lia..|]. eauto. Qed.

(** C1: every observation is binned into the cell of its rounded indices,
    and an observation whose rounded indices fall outside the grid is not
    selected and is assigned to no cell; before the floor correction the
    sum field of a cell is the sum of [value * invsigma2] over the
    observations assigned to it and the inverse-variance field is the sum
    of their [invsigma2]; the returned fields are these two, scaled cell by
    cell by the correction factor. *)
Theorem binanalysis_nearest_cell_binning
    obslon obslat obsvalue obsinvsigma2 lon lat sigma2_min
    lon0 lon1 lat0 lat1 :
  lon !! 0%nat = Some lon0 → lon !! 1%nat = Some lon1 →
  lat !! 0%nat = Some lat0 → lat !! 1%nat = Some lat1 →
  same_length4 obslon obslat obsvalue obsinvsigma2 = true →
  Z.of_nat (length lat) * Z.of_nat (length lon) < 2 ^ 63 →
  let T := obs_table obslon obslat obsvalue obsinvsigma2 in
  let nlon := length lon in
  let nlat := length lat in
  ∃ msum0 minv0 mmean,
    binanalysis_accumulate obslon obslat obsvalue obsinvsigma2 lon lat
      = Some (msum0, minv0) ∧
    binanalysis obslon obslat obsvalue obsinvsigma2 lon lat sigma2_min
      = Some (mmean,
              zip_with nmul (map (correction_factor sigma2_min) minv0) msum0,
              zip_with nmul (map (correction_factor sigma2_min) minv0) minv0) ∧
    (∀ r c, (r < nlat)%nat → (c < nlon)%nat →
       msum0 !! (r * nlon + c)%nat =
         Some (nsum (map weighted
                       (filter (assigned lon0 lon1 lat0 lat1 r c) T))) ∧
       minv0 !! (r * nlon + c)%nat =
         Some (nsum (map weight
                       (filter (assigned lon0 lon1 lat0 lat1 r c) T)))) ∧
    (∀ o, o ∈ T → outside lon0 lon1 lat0 lat1 nlat nlon o →
       sel_of lon0 lon1 lat0 lat1 (Z.of_nat nlon) (Z.of_nat nlat) o = false ∧
       ∀ r c, (r < nlat)%nat → (c < nlon)%nat →
              o ∉ filter (assigned lon0 lon1 lat0 lat1 r c) T).
Proof.
  intros Hlon0 Hlon1 Hlat0 Hlat1 Hlen Hsize T nlon nlat.
  destruct (binanalysis_accumulate_cells _ _ _ _ _ _ _ _ _ _
              Hlon0 Hlon1 Hlat0 Hlat1 Hlen Hsize)
    as (msum0 & minv0 & Hacc & Ls & Lm & Hcells).
  destruct (binanalysis_result _ _ _ _ _ _ sigma2_min _ _ Hacc Ls Lm)
    as (mmean & Hres & _).
  exists msum0, minv0, mmean. repeat split; try done.
  - by apply Hcells.
  - by apply Hcells.
  - by apply outside_not_selected.
  - intros r c Hr Hc [[Hi Hj] _]%list_elem_of_filter.
    match goal with
    | Hout : outside _ _ _ _ _ _ _ |- _ => apply (Hout _ _ Hi Hj)
    end.
    subst nlon nlat. lia.
Qed.

(** C10: the linear indices handed to [bincount] are inside the flat
    field, the function returns, and a cell of the mean field is the
    quotient of the returned sum and inverse variance where the latter is
    strictly positive and NaN everywhere else. *)
Theorem binanalysis_safe
    obslon obslat obsvalue obsinvsigma2 lon lat sigma2_min :
  (2 <= length lon)%nat → (2 <= length lat)%nat →
  same_length4 obslon obslat obsvalue obsinvsigma2 = true →
  Z.of_nat (length lat) * Z.of_nat (length lon) < 2 ^ 63 →
  ∃ sel lin mmean msum minvsigma2,
    binanalysis_lin obslon obslat lon lat = Some (sel, lin) ∧
    Forall (λ k, 0 <= k < Z.of_nat (length lat * length lon)) lin ∧
    binanalysis obslon obslat obsvalue obsinvsigma2 lon lat sigma2_min
      = Some (mmean, msum, minvsigma2) ∧
    length mmean = (length lat * length lon)%nat ∧
    length msum = (length lat * length lon)%nat ∧
    length minvsigma2 = (length lat * length lon)%nat ∧
    ∀ k s m, msum !! k = Some s → minvsigma2 !! k = Some m →
      mmean !! k = Some (if ngt m (Fin 0) then ndiv s m else NaN).
Proof.
  intros (lon0 & lon1 & Hlon0 & Hlon1)%lookup_two_of_length.
  intros (lat0 & lat1 & Hlat0 & Hlat1)%lookup_two_of_length.
  intros Hlen Hsize.
  destruct (binanalysis_accumulate_cells _ _ _ _ _ _ _ _ _ _
              Hlon0 Hlon1 Hlat0 Hlat1 Hlen Hsize)
    as (msum0 & minv0 & Hacc & Ls & Lm & _).
  destruct (binanalysis_result _ _ _ _ _ _ sigma2_min _ _ Hacc Ls Lm)
    as (mmean & Hres & Lmean & Hmean).
  destruct (obs_table_cols _ _ _ _ Hlen) as (E1 & E2 & _).
  pose proof (binanalysis_lin_rows
                (obs_table obslon obslat obsvalue obsinvsigma2)
                lon lat lon0 lon1 lat0 lat1 Hlon0 Hlon1 Hlat0 Hlat1) as Hlin.
  simpl in Hlin. rewrite <- E1, <- E2 in Hlin.
  eexists _, _, mmean, _, _. split; [exact Hlin|].
  split; [|split; [exact Hres|]].
  - apply Forall_fmap, Forall_forall.
    intros o [Ho _]%list_elem_of_filter. simpl. by apply lin_of_range.
  - rewrite !length_zip_with, !length_map. repeat split; [done|lia|lia|done].
Qed.

(** ** binanalysis: the uncertainty floor *)

Lemma Qinv_pos_spec (x : Q) : (0 < x)%Q → (0 < / x ∧ / x * x == 1)%Q.
Proof.
  intros H. split.
  - by apply Qinv_lt_0_compat.
  - rewrite Qmult_comm. apply Qmult_inv_r. lra.
Qed.

Lemma Qeq_bool_false_iff x y : Qeq_bool x y = false ↔ ¬ (x == y)%Q.
Proof. rewrite <- not_true_iff_false, Qeq_bool_iff. done. Qed.

(** No negative zero comes from an inverse variance and a floor that are
    not negative. *)
Lemma negative_zero_product_nonneg (q s : Q) :
  (0 <= q)%Q → (0 <= s)%Q → negative_zero_product (Fin q) (Fin s) = false.
Proof.
  intros Hq Hs. unfold negative_zero_product.
  assert (Qltb s 0 = false) as -> by (by apply Qltb_ge).
  assert (Qltb q 0 = false) as -> by (by apply Qltb_ge).
  by rewrite andb_false_r.
Qed.

Lemma correction_factor_finite (s q : Q) :
  (0 < s)%Q → (0 <= q)%Q →
  ∃ a, correction_factor (Fin s) (Fin q) = Fin a ∧
       (0 < a)%Q ∧ (a <= 1)%Q ∧
       ((q * s <= 1)%Q → (a == 1)%Q) ∧
       ((1 <= q * s)%Q → (a * (q * s) == 1)%Q).
Proof.
  intros Hs Hq. unfold correction_factor.
  rewrite negative_zero_product_nonneg by lra. simpl.
  destruct (Qeq_bool (q * s) 0) eqn:E0.
  - apply Qeq_bool_iff in E0. simpl.
    exists 1%Q. repeat split; lra.
  - apply Qeq_bool_false_iff in E0.
    assert (0 < q * s)%Q as Hqs by nra.
    destruct (Qinv_pos_spec _ Hqs) as [Hr1 Hr2].
    unfold ngt. simpl. unfold Qdiv.
    destruct (Qltb 1 (1 * / (q * s))) eqn:El.
    + apply Qltb_lt in El. exists 1%Q. repeat split; try lra. 
      intros. nra.
    + apply Qltb_ge in El. exists (1 * / (q * s))%Q.
      repeat split; try lra. intros. nra.
Qed.

Lemma floor_cell (s p q : Q) :
  (0 < s)%Q → (0 <= q)%Q →
  let a := correction_factor (Fin s) (Fin q) in
  let m1 := nmul a (Fin q) in
  let s1 := nmul a (Fin p) in
  nle m1 (ndiv (Fin 1) (Fin s)) = true ∧
  (nle (Fin q) (ndiv (Fin 1) (Fin s)) = true → neq m1 (Fin q) ∧ neq s1 (Fin p)) ∧
  neq (if ngt m1 (Fin 0) then ndiv s1 m1 else NaN)
      (if ngt (Fin q) (Fin 0) then ndiv (Fin p) (Fin q) else NaN).
Proof.
  intros Hs Hq.
  destruct (correction_factor_finite s q Hs Hq) as (a & -> & Ha0 & Ha1 & Hle & Hge).
  destruct (Qinv_pos_spec s Hs) as [Ht1 Ht2].
  assert (Qeq_bool s 0 = false) as Es by (apply Qeq_bool_false_iff; lra).
  simpl. rewrite Es. unfold Qdiv.
  split; [|split].
  - apply Qle_bool_iff.
    destruct (Qlt_le_dec (q * s) 1) as [H|H].
    + rewrite Hle by lra. nra.
    + specialize (Hge H). nra.
  - intros Hq1%Qle_bool_iff.
    assert (q * s <= 1)%Q as H by nra.
    rewrite (Hle H). split; ring.
  - unfold ngt. simpl.
    destruct (Qltb 0 q) eqn:E.
    + apply Qltb_lt in E.
      assert (Qltb 0 (a * q) = true) as -> by (apply Qltb_lt; nra).
      assert (Qeq_bool (a * q) 0 = false) as ->
        by (apply Qeq_bool_false_iff; nra).
      assert (Qeq_bool q 0 = false) as ->
        by (apply Qeq_bool_false_iff; lra).
      simpl. field. split; lra.
    + apply Qltb_ge in E.
      assert (Qltb 0 (a * q) = false) as -> by (apply Qltb_ge; nra).
      done.
Qed.

Lemma fold_nadd_finite l p :
  forallb isfinite l = true → ∃ p', fold_left nadd l (Fin p) = Fin p'.
Proof.
  revert p; induction l as [|[x| | |] l IH]; intros p H; simpl in *;
    try done; eauto.
Qed.

Lemma fold_nadd_nonneg l p :
  forallb finite_nonneg l = true → (0 <= p)%Q →
  ∃ p', fold_left nadd l (Fin p) = Fin p' ∧ (0 <= p')%Q.
Proof.
  revert p; induction l as [|[x| | |] l IH]; intros p H Hp; simpl in *;
    try done; eauto.
  apply andb_true_iff in H as [Hx H]. apply Qle_bool_iff in Hx.
  apply IH; [done|lra].
Qed.

Lemma forallb_map_elem {A} (f : A → num) (P : num → bool) (l : list A) :
  forallb P (map f l) = true → ∀ x, x ∈ l → P (f x) = true.
Proof.
  rewrite forallb_forall. intros H x Hx. apply H, in_map_iff.
  exists x. split; [done|]. by apply list_elem_of_In.
Qed.

Lemma forallb_map_filter {A} (f : A → num) (P : num → bool)
    (Q : A → Prop) `{∀ x, Decision (Q x)} (l : list A) :
  (∀ x, x ∈ l → P (f x) = true) →
  forallb P (map f (filter Q l)) = true.
Proof.
  intros H'. apply forallb_forall. intros y (x & <- & Hx)%in_map_iff.
  apply H'. apply list_elem_of_In in Hx.
  by apply list_elem_of_filter in Hx as [_ ?].
Qed.

Lemma finite_nonneg_isfinite a : finite_nonneg a = true → isfinite a = true.
Proof. by destruct a. Qed.

Lemma weighted_finite (o : obsrow) :
  isfinite o.2.2.1 = true → isfinite o.2.2.2 = true →
  isfinite (weighted o) = true.
Proof. unfold weighted. by destruct o.2.2.1, o.2.2.2. Qed.

Lemma lookup_scaled (alpha : num → num) (minv0 l : list num) k m0 x :
  minv0 !! k = Some m0 → l !! k = Some x →
  zip_with nmul (map alpha minv0) l !! k = Some (nmul (alpha m0) x).
Proof.
  intros Hm Hx. rewrite lookup_zip_with, list_lookup_fmap, Hm, Hx. done.
Qed.

(** C2: with a positive [sigma2_min] and finite observations whose inverse
    variances are not negative, every cell of the returned inverse-variance
    field is at most [1/sigma2_min]; a cell whose accumulated inverse
    variance is at most [1/sigma2_min] keeps its accumulated sum and
    inverse variance; and the returned mean, the quotient of the returned
    sum and inverse variance on the cells with data, is the mean of the
    accumulated fields. *)
Theorem binanalysis_uncertainty_floor
    obslon obslat obsvalue obsinvsigma2 lon lat (s : Q) :
  (2 <= length lon)%nat → (2 <= length lat)%nat →
  same_length4 obslon obslat obsvalue obsinvsigma2 = true →
  Z.of_nat (length lat) * Z.of_nat (length lon) < 2 ^ 63 →
  forallb isfinite obsvalue = true →
  forallb finite_nonneg obsinvsigma2 = true →
  (0 < s)%Q →
  ∃ msum0 minv0 mmean msum minvsigma2,
    binanalysis_accumulate obslon obslat obsvalue obsinvsigma2 lon lat
      = Some (msum0, minv0) ∧
    binanalysis obslon obslat obsvalue obsinvsigma2 lon lat (Fin s)
      = Some (mmean, msum, minvsigma2) ∧
    ∀ k, (k < length lat * length lon)%nat →
      ∃ s0 m0 s1 m1 mean,
        msum0 !! k = Some s0 ∧ minv0 !! k = Some m0 ∧
        msum !! k = Some s1 ∧ minvsigma2 !! k = Some m1 ∧
        mmean !! k = Some mean ∧
        nle m1 (ndiv (Fin 1) (Fin s)) = true ∧
        (nle m0 (ndiv (Fin 1) (Fin s)) = true → m1 ≡ m0 ∧ s1 ≡ s0) ∧
        mean = (if ngt m1 (Fin 0) then ndiv s1 m1 else NaN) ∧
        mean ≡ (if ngt m0 (Fin 0) then ndiv s0 m0 else NaN).
Proof.
  intros Hlon Hlat Hlen Hsize Hval Hw Hs.
  destruct (lookup_two_of_length _ Hlon) as (lon0 & lon1 & Hlon0 & Hlon1).
  destruct (lookup_two_of_length _ Hlat) as (lat0 & lat1 & Hlat0 & Hlat1).
  destruct (binanalysis_accumulate_cells _ _ _ _ _ _ _ _ _ _
              Hlon0 Hlon1 Hlat0 Hlat1 Hlen Hsize)
    as (msum0 & minv0 & Hacc & Ls & Lm & Hcells).
  destruct (binanalysis_result _ _ _ _ _ _ (Fin s) _ _ Hacc Ls Lm)
    as (mmean & Hres & Lmean & Hmean).
  simpl in Hres, Hmean.
  exists msum0, minv0, mmean. eexists _, _.
  split; [done|]. split; [exact Hres|].
  intros k Hk.
  destruct (obs_table_cols _ _ _ _ Hlen) as (_ & _ & E3 & E4).
  set (T := obs_table obslon obslat obsvalue obsinvsigma2) in *.
  rewrite E3 in Hval. rewrite E4 in Hw.
  pose proof (forallb_map_elem _ _ _ Hval) as Hval'.
  pose proof (forallb_map_elem _ _ _ Hw) as Hw'.
  assert (k = (k / length lon * length lon + k mod length lon)%nat) as Ek.
  { rewrite Nat.mul_comm. apply Nat.div_mod_eq. }
  destruct (Hcells (k / length lon)%nat (k mod length lon)%nat) as [Hs0 Hm0].
  { apply Nat.Div0.div_lt_upper_bound. lia. }
  { apply Nat.mod_upper_bound. lia. }
  rewrite <- Ek in Hs0, Hm0.
  destruct (fold_nadd_finite
              (map weighted (filter (assigned lon0 lon1 lat0 lat1
                 (k / length lon) (k mod length lon)) T)) 0) as [p Hp].
  { apply forallb_map_filter. intros o Ho.
    apply weighted_finite; [by apply Hval'|].
    by apply finite_nonneg_isfinite, Hw'. }
  destruct (fold_nadd_nonneg
              (map weight (filter (assigned lon0 lon1 lat0 lat1
                 (k / length lon) (k mod length lon)) T)) 0) as (q & Hq & Hq0).
  { apply forallb_map_filter. intros o Ho. by apply Hw'. }
  { lra. }
  fold (nsum (map weighted (filter (assigned lon0 lon1 lat0 lat1
                 (k / length lon) (k mod length lon)) T))) in Hp.
  fold (nsum (map weight (filter (assigned lon0 lon1 lat0 lat1
                 (k / length lon) (k mod length lon)) T))) in Hq.
  rewrite Hp in Hs0. rewrite Hq in Hm0.
  pose proof (lookup_scaled (correction_factor (Fin s)) _ _ _ _ _ Hm0 Hs0) as Hs1.
  pose proof (lookup_scaled (correction_factor (Fin s)) _ _ _ _ _ Hm0 Hm0) as Hm1.
  destruct (floor_cell s p q Hs Hq0) as (F1 & F2 & F3).
  eexists _, _, _, _, _.
  split; [exact Hs0|]. split; [exact Hm0|].
  split; [exact Hs1|]. split; [exact Hm1|].
  split; [exact (Hmean _ _ _ Hs1 Hm1)|].
  split; [exact F1|]. split; [exact F2|]. split; [done|exact F3].
Qed.

(** ** binanalysis on the concrete grid *)

Example rint_ties_to_even :
  map rint_Z [(1 # 2)%Q; (3 # 2)%Q; (5 # 2)%Q; (-1 # 2)%Q; (-3 # 2)%Q; (7 # 4)%Q]
  = [0; 2; 2; 0; -2; 2].
Proof. reflexivity. Qed.

Example binanalysis_lin_example :
  binanalysis_lin ex_obslon ex_obslat ex_lon ex_lat
  = Some ([true; true; false; true; true], [0; 5; 0; 0]).
Proof. reflexivity. Qed.

Example binanalysis_example :
  binanalysis ex_obslon ex_obslat ex_obsvalue ex_obsinvsigma2 ex_lon ex_lat
    sigma2_min_default
  = Some ([Fin (51 # 3); NaN; NaN; NaN; NaN; Fin 14],
          [Fin 51; Fin 0; Fin 0; Fin 0; Fin 0; Fin 14],
          [Fin 3; Fin 0; Fin 0; Fin 0; Fin 0; Fin 1]).
Proof. reflexivity. Qed.

(** Twenty-six unit-weight observations in one cell: the returned inverse
    variance of the cell is 25 (up to the representation of the
    rational), not 26. *)
Example binanalysis_floor_example :
  binanalysis (replicate 26 (Fin 0)) (replicate 26 (Fin 0))
    (replicate 26 (Fin 16)) (replicate 26 (Fin 1)) ex_lon ex_lat
    sigma2_min_default
  = Some ([Fin (270400 # 16900); NaN; NaN; NaN; NaN; NaN],
          [Fin (10400 # 26); Fin 0; Fin 0; Fin 0; Fin 0; Fin 0],
          [Fin (650 # 26); Fin 0; Fin 0; Fin 0; Fin 0; Fin 0]).
Proof. reflexivity. Qed.

Lemma binanalysis_nearest_cell_binning_witness :
  let T := obs_table ex_obslon ex_obslat ex_obsvalue ex_obsinvsigma2 in
  ∃ msum0 minv0 mmean,
    binanalysis_accumulate ex_obslon ex_obslat ex_obsvalue ex_obsinvsigma2
      ex_lon ex_lat = Some (msum0, minv0) ∧
    binanalysis ex_obslon ex_obslat ex_obsvalue ex_obsinvsigma2 ex_lon ex_lat
      sigma2_min_default
      = Some (mmean,
              zip_with nmul (map (correction_factor sigma2_min_default) minv0) msum0,
              zip_with nmul (map (correction_factor sigma2_min_default) minv0) minv0) ∧
    (∀ r c, (r < 2)%nat → (c < 3)%nat →
       msum0 !! (r * 3 + c)%nat =
         Some (nsum (map weighted
                       (filter (assigned (Fin 0) (Fin 1) (Fin 0) (Fin 1) r c) T))) ∧
       minv0 !! (r * 3 + c)%nat =
         Some (nsum (map weight
                       (filter (assigned (Fin 0) (Fin 1) (Fin 0) (Fin 1) r c) T)))) ∧
    (∀ o, o ∈ T → outside (Fin 0) (Fin 1) (Fin 0) (Fin 1) 2 3 o →
       sel_of (Fin 0) (Fin 1) (Fin 0) (Fin 1) 3 2 o = false ∧
       ∀ r c, (r < 2)%nat → (c < 3)%nat →
              o ∉ filter (assigned (Fin 0) (Fin 1) (Fin 0) (Fin 1) r c) T).
Proof.
  apply (binanalysis_nearest_cell_binning
           ex_obslon ex_obslat ex_obsvalue ex_obsinvsigma2 ex_lon ex_lat
           sigma2_min_default (Fin 0) (Fin 1) (Fin 0) (Fin 1));
    reflexivity.
Defined.

Lemma binanalysis_safe_witness :
  ∃ sel lin mmean msum minvsigma2,
    binanalysis_lin ex_obslon ex_obslat ex_lon ex_lat = Some (sel, lin) ∧
    Forall (λ k, 0 <= k < 6) lin ∧
    binanalysis ex_obslon ex_obslat ex_obsvalue ex_obsinvsigma2 ex_lon ex_lat
      sigma2_min_default = Some (mmean, msum, minvsigma2) ∧
    length mmean = 6%nat ∧ length msum = 6%nat ∧ length minvsigma2 = 6%nat ∧
    ∀ k s m, msum !! k = Some s → minvsigma2 !! k = Some m →
      mmean !! k = Some (if ngt m (Fin 0) then ndiv s m else NaN).
Proof.
  apply (binanalysis_safe ex_obslon ex_obslat ex_obsvalue ex_obsinvsigma2
           ex_lon ex_lat sigma2_min_default);
    [simpl; lia | simpl; lia | reflexivity | reflexivity].
Defined.

Lemma binanalysis_uncertainty_floor_witness :
  ∃ msum0 minv0 mmean msum minvsigma2,
    binanalysis_accumulate (replicate 26 (Fin 0)) (replicate 26 (Fin 0))
      (replicate 26 (Fin 16)) (replicate 26 (Fin 1)) ex_lon ex_lat
      = Some (msum0, minv0) ∧
    binanalysis (replicate 26 (Fin 0)) (replicate 26 (Fin 0))
      (replicate 26 (Fin 16)) (replicate 26 (Fin 1)) ex_lon ex_lat
      (Fin (1 # 25)) = Some (mmean, msum, minvsigma2) ∧
    ∀ k, (k < 6)%nat →
      ∃ s0 m0 s1 m1 mean,
        msum0 !! k = Some s0 ∧ minv0 !! k = Some m0 ∧
        msum !! k = Some s1 ∧ minvsigma2 !! k = Some m1 ∧
        mmean !! k = Some mean ∧
        nle m1 (ndiv (Fin 1) (Fin (1 # 25))) = true ∧
        (nle m0 (ndiv (Fin 1) (Fin (1 # 25))) = true → m1 ≡ m0 ∧ s1 ≡ s0) ∧
        mean = (if ngt m1 (Fin 0) then ndiv s1 m1 else NaN) ∧
        mean ≡ (if ngt m0 (Fin 0) then ndiv s0 m0 else NaN).
Proof.
  apply (binanalysis_uncertainty_floor
           (replicate 26 (Fin 0)) (replicate 26 (Fin 0))
           (replicate 26 (Fin 16)) (replicate 26 (Fin 1)) ex_lon ex_lat
           (1 # 25));
    [simpl; lia | simpl; lia | reflexivity | reflexivity | reflexivity
    | reflexivity | reflexivity].
Defined.

(** ** loadobs *)

Lemma same_length5_spec {A B} (a b c d : list A) (e : list B) :
  same_length5 a b c d e = true ↔
  length a = length b ∧ length b = length c ∧ length c = length d ∧
  length d = length e.
Proof.
  unfold same_length5. rewrite andb_true_iff, same_length4_spec, Nat.eqb_eq.
  tauto.
Qed.

Lemma zip5_cols (v lo la d : list num) (t : list Z) :
  same_length5 v lo la d t = true →
  let R := zip5 v lo la d t in
  v = map (λ r : obsrec, r.1.1.1.1) R ∧ lo = map (λ r : obsrec, r.1.1.1.2) R ∧
  la = map (λ r : obsrec, r.1.1.2) R ∧ d = map (λ r : obsrec, r.1.2) R ∧
  t = map (λ r : obsrec, r.2) R.
Proof.
  intros (H1 & H2 & H3 & H4)%same_length5_spec. simpl. unfold zip5.
  revert lo la d t H1 H2 H3 H4.
  induction v as [|x v IH]; intros [|x2 lo] [|x3 la] [|x4 d] [|x5 t] H1 H2 H3 H4;
    simplify_eq/=; try done.
  destruct (IH lo la d t) as (? & ? & ? & ? & ?); [done..|].
  repeat split; congruence.
Qed.

Lemma zip5_of_cols (R : list obsrec) :
  zip5 (map (λ r : obsrec, r.1.1.1.1) R) (map (λ r : obsrec, r.1.1.1.2) R)
       (map (λ r : obsrec, r.1.1.2) R) (map (λ r : obsrec, r.1.2) R)
       (map (λ r : obsrec, r.2) R) = R.
Proof.
  unfold zip5. induction R as [|[[[[v lo] la] d] t] R IH]; simpl; [done|].
  by rewrite IH.
Qed.

Lemma loadobs_sel_rows lon0 lonN lat0 latN (R : list obsrec) :
  zip_with (λ d '(lo, (la, v)), loadobs_sel lon0 lonN lat0 latN d lo la v)
    (map (λ r : obsrec, r.1.2) R)
    (zip (map (λ r : obsrec, r.1.1.1.2) R)
       (zip (map (λ r : obsrec, r.1.1.2) R) (map (λ r : obsrec, r.1.1.1.1) R)))
  = map (loadobs_keep lon0 lonN lat0 latN) R.
Proof.
  induction R as [|[[[[v lo] la] d] t] R IH]; simpl; [done|].
  by rewrite IH.
Qed.

Lemma length_filter_map {A B} (f : A → B) (P : A → Prop)
    `{∀ x, Decision (P x)} (l : list A) :
  length (map f (filter P l)) = length (filter P l).
Proof. apply length_map. Qed.

(** C3: the five arrays [loadobs] returns are the records of the file, the
    time converted to seconds, that pass the selection of line 86, in the
    order of the file: depth below 10, longitude strictly between the first
    and the last grid longitude, latitude strictly between the first and
    the last grid latitude, absolute value below 200.  All five are taken
    by the same selection, so they have one length and position [k] of
    each belongs to the same record. *)
Theorem loadobs_selects_records
    (fs : gmap string dataset) (lon lat : list num) (fname varname : string)
    (ds : dataset) (obslon obslat obsdepth obstime obsvalue : list num)
    (lon0 lonN lat0 latN : num) :
  fs !! fname = Some ds →
  ds !! "obslon" = Some obslon → ds !! "obslat" = Some obslat →
  ds !! "obsdepth" = Some obsdepth → ds !! "obstime" = Some obstime →
  ds !! varname = Some obsvalue →
  lon !! 0%nat = Some lon0 → last lon = Some lonN →
  lat !! 0%nat = Some lat0 → last lat = Some latN →
  same_length5 obsvalue obslon obslat obsdepth obstime = true →
  let input :=
    zip5 obsvalue obslon obslat obsdepth (map obstime_of_days obstime) in
  ∃ v lo la d t,
    loadobs fs lon lat fname varname = Some (v, lo, la, d, t) ∧
    length lo = length v ∧ length la = length v ∧ length d = length v ∧
    length t = length v ∧
    zip5 v lo la d t =
      filter (λ r, loadobs_keep lon0 lonN lat0 latN r = true) input ∧
    (∀ v1 lo1 la1 d1 t1,
       (v1, lo1, la1, d1, t1) ∈ zip5 v lo la d t ↔
       (v1, lo1, la1, d1, t1) ∈ input ∧
       nlt d1 (Fin 10) = true ∧
       nlt lon0 lo1 = true ∧ nlt lo1 lonN = true ∧
       nlt lat0 la1 = true ∧ nlt la1 latN = true ∧
       nlt (nabs v1) (Fin 200) = true).
Proof.
  intros Hfs Hlo Hla Hd Ht Hv Hlon0 HlonN Hlat0 HlatN Hlen input.
  assert (same_length5 obsvalue obslon obslat obsdepth
            (map obstime_of_days obstime) = true) as Hlen'.
  { apply same_length5_spec. apply same_length5_spec in Hlen.
    rewrite length_map. lia. }
  unfold loadobs.
  rewrite Hfs; simpl. rewrite Hlo; simpl. rewrite Hla; simpl.
  rewrite Hd; simpl. rewrite Ht; simpl. rewrite Hv; simpl.
  rewrite Hlon0; simpl. rewrite HlonN; simpl.
  rewrite Hlat0; simpl. rewrite HlatN; simpl.
  rewrite Hlen'.
  destruct (zip5_cols _ _ _ _ _ Hlen') as (E1 & E2 & E3 & E4 & E5).
  fold input in E1, E2, E3, E4, E5.
  set (keep := loadobs_keep lon0 lonN lat0 latN).
  assert (zip_with
            (λ d '(lo, (la, v)), loadobs_sel lon0 lonN lat0 latN d lo la v)
            obsdepth (zip obslon (zip obslat obsvalue)) = map keep input) as ->.
  { rewrite E4 at 1. rewrite E2 at 1. rewrite E3 at 1. rewrite E1 at 1.
    apply loadobs_sel_rows. }
  eexists _, _, _, _, _. split.
  { rewrite E1 at 1. rewrite E2 at 1. rewrite E3 at 1. rewrite E4 at 1.
    rewrite E5 at 1.
    rewrite !select_map, !select_filter. reflexivity. }
  rewrite !length_map.
  split; [done|]. split; [done|]. split; [done|]. split; [done|].
  rewrite zip5_of_cols. split; [done|].
  intros v1 lo1 la1 d1 t1. rewrite list_elem_of_filter.
  unfold keep, loadobs_keep, loadobs_sel. rewrite !andb_true_iff. tauto.
Qed.

Example loadobs_example :
  loadobs ex_fs ex_lon ex_lat "Temperature.train.nc" "Temperature"
  = Some ([Fin 16; Fin (-2)], [Fin (1 # 2); Fin (3 # 2)],
          [Fin (1 # 2); Fin (1 # 2)], [Fin 5; Fin 0],
          [-2208988800; -2208859200]).
Proof. vm_compute. reflexivity. Qed.

Example loadobs_missing_variable :
  loadobs ex_fs ex_lon ex_lat "Temperature.train.nc" "Salinity" = None.
Proof. vm_compute. reflexivity. Qed.

Lemma loadobs_selects_records_witness :
  let input :=
    zip5 ex_file_obsvalue ex_file_obslon ex_file_obslat ex_file_obsdepth
         (map obstime_of_days ex_file_obstime) in
  ∃ v lo la d t,
    loadobs ex_fs ex_lon ex_lat "Temperature.train.nc" "Temperature"
      = Some (v, lo, la, d, t) ∧
    length lo = length v ∧ length la = length v ∧ length d = length v ∧
    length t = length v ∧
    zip5 v lo la d t =
      filter (λ r, loadobs_keep (Fin 0) (Fin 2) (Fin 0) (Fin 1) r = true) input ∧
    (∀ v1 lo1 la1 d1 t1,
       (v1, lo1, la1, d1, t1) ∈ zip5 v lo la d t ↔
       (v1, lo1, la1, d1, t1) ∈ input ∧
       nlt d1 (Fin 10) = true ∧
       nlt (Fin 0) lo1 = true ∧ nlt lo1 (Fin 2) = true ∧
       nlt (Fin 0) la1 = true ∧ nlt la1 (Fin 1) = true ∧
       nlt (nabs v1) (Fin 200) = true).
Proof.
  apply (loadobs_selects_records ex_fs ex_lon ex_lat
           "Temperature.train.nc" "Temperature" ex_dataset
           ex_file_obslon ex_file_obslat ex_file_obsdepth ex_file_obstime
           ex_file_obsvalue (Fin 0) (Fin 2) (Fin 0) (Fin 1));
    vm_compute; reflexivity.
Defined.

(** ** The state monad *)

Lemma bind_inv {A B} (m : M A) (k : A → M B) s r :
  bind m k s = Some r ↔ ∃ a s1, m s = Some (a, s1) ∧ k a s1 = Some r.
Proof.
  unfold bind. destruct (m s) as [[a s1]|]; split.
  - eauto.
  - by intros (? & ? & [= <- <-] & ?).
  - done.
  - by intros (? & ? & ? & ?).
Qed.

Lemma bind_run {A B} (m : M A) (k : A → M B) s a s1 :
  m s = Some (a, s1) → bind m k s = k a s1.
Proof. unfold bind. by intros ->. Qed.

Lemma lift_Some {A} (o : option A) s a s' :
  lift o s = Some (a, s') ↔ o = Some a ∧ s' = s.
Proof.
  unfold lift. destruct o; split; try done.
  - by intros [= <- <-].
  - by intros [[= <-] ->].
  - by intros [? _].
Qed.

Lemma get_channel_run l ch s t :
  heap s !! l = Some t → get_channel l ch s = Some (channel ch t, s).
Proof. intros H. unfold get_channel, bind, read, lift, ret. by rewrite H. Qed.

Lemma set_channel_run l ch g s t :
  heap s !! l = Some t → length g = length t →
  set_channel l ch g s =
    Some (tt, State (<[l := assign_channel ch g t]> (heap s))
                    (py_pos s) (np_pos s)).
Proof.
  intros H Hl. unfold set_channel, bind, read, lift. rewrite H.
  rewrite Hl, Nat.eqb_refl. unfold write. by rewrite H.
Qed.

Lemma get_channel_Some l ch s g s' :
  get_channel l ch s = Some (g, s') →
  ∃ t, heap s !! l = Some t ∧ g = channel ch t ∧ s' = s.
Proof.
  unfold get_channel, bind, read, lift, ret.
  destruct (heap s !! l) as [t|]; [|done]. intros [= <- <-]. eauto.
Qed.

Lemma set_channel_Some l ch g s u s' :
  set_channel l ch g s = Some (u, s') →
  ∃ t, heap s !! l = Some t ∧ length g = length t ∧
       s' = State (<[l := assign_channel ch g t]> (heap s))
                  (py_pos s) (np_pos s).
Proof.
  unfold set_channel, bind, read, lift.
  destruct (heap s !! l) as [t|] eqn:E; [|done].
  destruct (length g =? length t)%nat eqn:El; [|done].
  unfold write. rewrite E. intros [= <- <-]. apply Nat.eqb_eq in El. eauto.
Qed.

(** ** Tensors *)

Lemma length_assign_channel ch g t :
  length g = length t → length (assign_channel ch g t) = length t.
Proof. intros H. unfold assign_channel. rewrite length_zip_with. lia. Qed.

Lemma length_assign_channel_eq n ch g (t : tensor) :
  length t = n → length g = n → length (assign_channel ch g t) = n.
Proof. intros H1 H2. rewrite length_assign_channel; lia. Qed.

Lemma lookup_assign_channel ch g t k px v :
  t !! k = Some px → g !! k = Some v →
  assign_channel ch g t !! k = Some (<[ch := v]> px).
Proof.
  intros Ht Hg. unfold assign_channel. by rewrite lookup_zip_with, Ht, Hg.
Qed.

Lemma shaped_assign_channel n ch g t :
  shaped n t → length g = n → shaped n (assign_channel ch g t).
Proof.
  intros [Hl Hc] Hg. split.
  - rewrite length_assign_channel; lia.
  - apply Forall_forall. intros px' Hpx'.
    apply list_elem_of_lookup in Hpx' as [k Hk].
    unfold assign_channel in Hk. rewrite lookup_zip_with in Hk.
    destruct (t !! k) as [px|] eqn:Et; [|done].
    destruct (g !! k) as [v|]; [|done]. simplify_eq/=.
    rewrite length_insert. rewrite Forall_forall in Hc.
    apply Hc. by eapply list_elem_of_lookup_2.
Qed.

Lemma lookup_channel ch t k px :
  t !! k = Some px → channel ch t !! k = Some (px !!! ch).
Proof. intros H. unfold channel. by rewrite list_lookup_fmap, H. Qed.

Lemma length_channel ch t : length (channel ch t) = length t.
Proof. apply length_map. Qed.

(** ** The noise step *)

Lemma getmask_run {A} (mask : list bool) (a : list A) :
  length mask = length a → getmask mask a = Some (select mask a).
Proof. intros H. unfold getmask. by rewrite H, Nat.eqb_refl. Qed.

Lemma getmask_Some {A} (mask : list bool) (a b : list A) :
  getmask mask a = Some b → length mask = length a ∧ b = select mask a.
Proof.
  unfold getmask. destruct (_ =? _)%nat eqn:E; [|done].
  intros [= <-]. by apply Nat.eqb_eq in E.
Qed.

Lemma lift_run {A} (o : option A) a s : o = Some a → lift o s = Some (a, s).
Proof. by intros ->. Qed.

Lemma noise_step_run randn lon lat jlon jlat jsv xin minv s (t : tensor) :
  heap s !! xin = Some t →
  length t = (length lat * length lon)%nat →
  length minv = length t →
  noise_step randn lon lat jlon jlat jsv xin minv s =
    Some (tt, State (<[xin := noise_tensor randn lon lat jlon jlat jsv
                                 (np_pos s) minv t]> (heap s))
                    (py_pos s)
                    (np_pos s + count_true (map (λ m, ngt m (Fin 0)) minv)
                     + length lat * length lon + length lat * length lon)).
Proof.
  intros Ht Hl Hm. unfold noise_step, noise_tensor.
  set (sel := map (λ m, ngt m (Fin 0)) minv).
  assert (length sel = length t) as Hsel by (unfold sel; by rewrite length_map).
  rewrite (bind_run _ _ _ _ _ (get_channel_run _ 0 _ _ Ht)).
  rewrite (bind_run _ _ _ _ _
             (lift_run _ _ _ (getmask_run sel (channel 0 t)
                                ltac:(by rewrite length_channel)))).
  unfold bind at 1. unfold np_random_randn at 1. cbv beta iota.
  set (g0 := put sel (channel 0 t) _).
  erewrite (bind_run (set_channel _ _ _)); cycle 1.
  { apply set_channel_run; [exact Ht|].
    unfold g0. by rewrite length_put, length_channel. }
  set (t1 := assign_channel 0 g0 t).
  assert (length t1 = length t) as L1.
  { apply length_assign_channel. unfold g0.
    by rewrite length_put, length_channel. }
  erewrite (bind_run (get_channel _ _)); cycle 1.
  { apply get_channel_run. simpl. apply lookup_insert_eq. }
  rewrite (bind_run _ _ _ _ _
             (lift_run _ _ _ (getmask_run sel minv ltac:(lia)))).
  set (g1 := put sel (channel 1 t1) _).
  erewrite (bind_run (set_channel _ _ _)); cycle 1.
  { apply set_channel_run; [simpl; apply lookup_insert_eq|].
    unfold g1. rewrite length_put, length_channel. done. }
  set (t2 := assign_channel 1 g1 t1).
  assert (length t2 = length t) as L2.
  { unfold t2. rewrite length_assign_channel; [done|]. unfold g1.
    by rewrite length_put, length_channel. }
  erewrite (bind_run (get_channel _ _)); cycle 1.
  { apply get_channel_run. simpl. apply lookup_insert_eq. }
  unfold bind at 1. unfold np_random_randn at 1. cbv beta iota.
  set (g2 := zip_with nadd (channel 2 t2) _).
  assert (length g2 = length t) as Lg2.
  { unfold g2. rewrite length_zip_with, length_channel, !length_map, length_seq.
    simpl. lia. }
  erewrite (bind_run (set_channel _ _ _)); cycle 1.
  { apply set_channel_run; [simpl; apply lookup_insert_eq|]. lia. }
  set (t3 := assign_channel 2 g2 t2).
  assert (length t3 = length t) as L3.
  { unfold t3. rewrite length_assign_channel; lia. }
  erewrite (bind_run (get_channel _ _)); cycle 1.
  { apply get_channel_run. simpl. apply lookup_insert_eq. }
  unfold bind at 1. unfold np_random_randn at 1. cbv beta iota.
  set (g3 := zip_with nadd (channel 3 t3) _).
  assert (length g3 = length t) as Lg3.
  { unfold g3. rewrite length_zip_with, length_channel, !length_map, length_seq.
    simpl. lia. }
  erewrite set_channel_run; cycle 1.
  { simpl. apply lookup_insert_eq. }
  { lia. }
  subst g3 t3 g2 t2 g1 t1 g0. simpl. rewrite !insert_insert_eq.
  reflexivity.
Qed.

Lemma rank_lt (mask : list bool) k :
  mask !! k = Some true → (rank mask k < count_true mask)%nat.
Proof.
  revert k; induction mask as [|m mask IH]; intros [|k] H; simplify_eq/=.
  - unfold rank. simpl. rewrite count_true_cons. unfold count_true at 1. simpl. lia.
  - rewrite rank_S, count_true_cons. apply IH in H. lia.
Qed.

Lemma lookup_randn (randn : nat → num) (f : num → num) n0 len i :
  (i < len)%nat → map f (map randn (seq n0 len)) !! i = Some (f (randn (n0 + i)%nat)).
Proof.
  intros H. rewrite !list_lookup_fmap, lookup_seq_lt by done. done.
Qed.

Lemma noise_tensor_cell randn lon lat jlon jlat jsv n0 minv (t : tensor)
    k a0 a1 a2 a3 a4 a5 m :
  length t = (length lat * length lon)%nat →
  length minv = length t →
  t !! k = Some [a0; a1; a2; a3; a4; a5] →
  minv !! k = Some m →
  let sel := map (λ m, ngt m (Fin 0)) minv in
  let n2 := (n0 + count_true sel)%nat in
  let n3 := (n2 + length lat * length lon)%nat in
  noise_tensor randn lon lat jlon jlat jsv n0 minv t !! k =
    Some [ if ngt m (Fin 0)
           then nadd a0 (nmul jsv (randn (n0 + rank sel k)%nat)) else a0;
           if ngt m (Fin 0)
           then ndiv (Fin 1) (nadd (ndiv (Fin 1) m) (nsq jsv)) else a1;
           nadd a2 (nmul jlon (randn (n2 + k)%nat));
           nadd a3 (nmul jlat (randn (n3 + k)%nat));
           a4; a5 ].
Proof.
  intros Hl Hm Hk Hmk sel n2 n3. unfold noise_tensor. fold sel.
  assert (length sel = length t) as Hsel by (unfold sel; by rewrite length_map).
  assert (sel !! k = Some (ngt m (Fin 0))) as Hselk.
  { unfold sel. by rewrite list_lookup_fmap, Hmk. }
  assert (k < length lat * length lon)%nat as Hkn.
  { rewrite <- Hl. by eapply lookup_lt_Some. }
  set (g0 := put sel (channel 0 t) _).
  assert (g0 !! k = Some (if ngt m (Fin 0)
            then nadd a0 (nmul jsv (randn (n0 + rank sel k)%nat)) else a0))
    as Hg0.
  { unfold g0. rewrite lookup_put.
    - rewrite Hselk. destruct (ngt m (Fin 0)) eqn:E.
      + rewrite lookup_zip_with, lookup_select by done.
        rewrite (lookup_channel _ _ _ _ Hk). simpl.
        rewrite lookup_randn by (by apply rank_lt). done.
      + by rewrite (lookup_channel _ _ _ _ Hk).
    - by rewrite length_channel.
    - rewrite length_zip_with, length_select, !length_map, length_seq
        by (by rewrite length_channel). lia. }
  assert (length g0 = length t) as Lg0.
  { unfold g0. by rewrite length_put, length_channel. }
  set (t1 := assign_channel 0 g0 t).
  pose proof (lookup_assign_channel 0 _ _ _ _ _ Hk Hg0) as Ht1.
  fold t1 in Ht1. simpl in Ht1.
  assert (length t1 = length t) as L1 by (by apply length_assign_channel).
  set (g1 := put sel (channel 1 t1) _).
  assert (g1 !! k = Some (if ngt m (Fin 0)
            then ndiv (Fin 1) (nadd (ndiv (Fin 1) m) (nsq jsv)) else a1))
    as Hg1.
  { unfold g1. rewrite lookup_put.
    - rewrite Hselk. destruct (ngt m (Fin 0)) eqn:E.
      + rewrite list_lookup_fmap, lookup_select by done. by rewrite Hmk.
      + by rewrite (lookup_channel _ _ _ _ Ht1).
    - rewrite length_channel. lia.
    - rewrite length_map, length_select; [done|lia]. }
  assert (length g1 = length t) as Lg1.
  { unfold g1. rewrite length_put, length_channel. done. }
  set (t2 := assign_channel 1 g1 t1).
  pose proof (lookup_assign_channel 1 _ _ _ _ _ Ht1 Hg1) as Ht2.
  fold t2 in Ht2. simpl in Ht2.
  assert (length t2 = length t) as L2.
  { unfold t2. rewrite length_assign_channel; lia. }
  set (g2 := zip_with nadd (channel 2 t2) _).
  assert (g2 !! k = Some (nadd a2 (nmul jlon (randn (n2 + k)%nat)))) as Hg2.
  { unfold g2. rewrite lookup_zip_with, (lookup_channel _ _ _ _ Ht2). simpl.
    by rewrite lookup_randn. }
  assert (length g2 = length t) as Lg2.
  { unfold g2. rewrite length_zip_with, length_channel, !length_map, length_seq.
    lia. }
  set (t3 := assign_channel 2 g2 t2).
  pose proof (lookup_assign_channel 2 _ _ _ _ _ Ht2 Hg2) as Ht3.
  fold t3 in Ht3. simpl in Ht3.
  set (g3 := zip_with nadd (channel 3 t3) _).
  assert (g3 !! k = Some (nadd a3 (nmul jlat (randn (n3 + k)%nat)))) as Hg3.
  { unfold g3. rewrite lookup_zip_with, (lookup_channel _ _ _ _ Ht3). simpl.
    by rewrite lookup_randn. }
  by rewrite (lookup_assign_channel 3 _ _ _ _ _ Ht3 Hg3).
Qed.

(** ** The clean tensor *)

Lemma length_bind_const {A B} (l : list A) (g : A → list B) n :
  (∀ x, length (g x) = n) → length (l ≫= g) = (length l * n)%nat.
Proof.
  intros Hg. induction l as [|x l IH]; [done|].
  rewrite bind_cons, length_app, Hg, IH. done.
Qed.

Lemma lookup_bind_const {A B} (l : list A) (g : A → list B) n r c :
  (∀ x, length (g x) = n) → (c < n)%nat →
  (l ≫= g) !! (r * n + c)%nat = l !! r ≫= λ x, g x !! c.
Proof.
  intros Hg Hc. revert r; induction l as [|x l IH]; intros r.
  { by destruct r. }
  rewrite bind_cons. destruct r as [|r]; simpl.
  - rewrite lookup_app_l by (rewrite Hg; lia). done.
  - rewrite lookup_app_r by (rewrite Hg; lia).
    rewrite Hg. replace (n + r * n + c - n)%nat with (r * n + c)%nat by lia.
    apply IH.
Qed.

Section clean_tensor.
Context (np_cos np_sin : num → num) (math_pi : num) (lon lat : list num).

Lemma length_lon_grid : length (lon_grid lon lat) = (length lat * length lon)%nat.
Proof. unfold lon_grid. by apply length_bind_const. Qed.

Lemma length_lat_grid : length (lat_grid lon lat) = (length lat * length lon)%nat.
Proof.
  unfold lat_grid. apply length_bind_const. intros. apply length_replicate.
Qed.

Lemma lookup_lon_grid r c :
  (r < length lat)%nat → (c < length lon)%nat →
  lon_grid lon lat !! (r * length lon + c)%nat = lon !! c.
Proof.
  intros Hr Hc. unfold lon_grid.
  rewrite (lookup_bind_const _ _ (length lon)) by done.
  destruct (lookup_lt_is_Some_2 lat r Hr) as [y ->]. done.
Qed.

Lemma lookup_lat_grid r c :
  (r < length lat)%nat → (c < length lon)%nat →
  lat_grid lon lat !! (r * length lon + c)%nat = lat !! r.
Proof.
  intros Hr Hc. unfold lat_grid.
  rewrite (lookup_bind_const _ _ (length lon))
    by (done || intros; apply length_replicate).
  destruct (lookup_lt_is_Some_2 lat r Hr) as [y Hy]. rewrite Hy. simpl.
  by apply lookup_replicate_2.
Qed.

Lemma length_clean_tensor month msum minv :
  length (clean_tensor np_cos np_sin math_pi lon lat month msum minv)
  = (length lat * length lon)%nat.
Proof.
  unfold clean_tensor.
  rewrite (length_bind_const _ _ (length lon)).
  - by rewrite length_seq.
  - intros r. rewrite (length_bind_const _ _ 1%nat) by done.
    rewrite length_seq. lia.
Qed.

(** The cell in row [r], column [c] of the clean tensor. *)
Lemma lookup_clean_tensor month msum minv r c :
  (r < length lat)%nat → (c < length lon)%nat →
  clean_tensor np_cos np_sin math_pi lon lat month msum minv
    !! (r * length lon + c)%nat
  = Some (clean_cell np_cos np_sin math_pi lon lat month msum minv r c).
Proof.
  intros Hr Hc. unfold clean_tensor.
  rewrite (lookup_bind_const _ _ (length lon)); [| |done].
  2:{ intros r'. rewrite (length_bind_const _ _ 1%nat) by done.
      rewrite length_seq. lia. }
  rewrite lookup_seq_lt by done. simpl.
  replace c with (c * 1 + 0)%nat at 1 by lia.
  rewrite (lookup_bind_const _ _ 1%nat) by (done || lia).
  rewrite lookup_seq_lt by done. done.
Qed.

Lemma shaped_clean_tensor month msum minv :
  shaped (length lat * length lon)
    (clean_tensor np_cos np_sin math_pi lon lat month msum minv).
Proof.
  split; [apply length_clean_tensor|].
  apply Forall_forall. intros px Hpx. unfold clean_tensor in Hpx.
  apply list_elem_of_bind in Hpx as (r & Hpx & _).
  apply list_elem_of_bind in Hpx as (c & Hpx & _).
  apply list_elem_of_singleton in Hpx as ->. done.
Qed.

(** What the six assignments of lines 215-221 leave in [x]. *)
Lemma build_x_tensor month msum minv :
  length msum = (length lat * length lon)%nat →
  length minv = (length lat * length lon)%nat →
  let ncell := (length lat * length lon)%nat in
  assign_channel 5 (replicate ncell (np_sin (month_angle math_pi month)))
    (assign_channel 4 (replicate ncell (np_cos (month_angle math_pi month)))
       (assign_channel 3 (lat_grid lon lat)
          (assign_channel 2 (lon_grid lon lat)
             (assign_channel 1 minv
                (assign_channel 0 msum
                   (replicate ncell (replicate nvar (Fin 0))))))))
  = clean_tensor np_cos np_sin math_pi lon lat month msum minv.
Proof.
  intros Ls Lm ncell. subst ncell.
  apply list_eq_same_length with (length lat * length lon)%nat.
  { apply length_clean_tensor. }
  { repeat apply length_assign_channel_eq;
      rewrite ?length_replicate, ?length_lat_grid, ?length_lon_grid; done. }
  intros k px py Hk Hpx Hpy.
  assert (0 < length lon)%nat as Hlon by nia.
  assert (k = (k / length lon * length lon + k mod length lon)%nat) as Ek.
  { rewrite Nat.mul_comm. apply Nat.div_mod_eq. }
  assert (k / length lon < length lat)%nat as Hr.
  { apply Nat.Div0.div_lt_upper_bound. lia. }
  assert (k mod length lon < length lon)%nat as Hc.
  { apply Nat.mod_upper_bound. lia. }
  rewrite Ek, lookup_clean_tensor in Hpy by done. simplify_eq.
  destruct (lookup_lt_is_Some_2 msum k ltac:(lia)) as [v0 H0].
  destruct (lookup_lt_is_Some_2 minv k ltac:(lia)) as [v1 H1].
  destruct (lookup_lt_is_Some_2 lon (k mod length lon) Hc) as [v2 H2].
  destruct (lookup_lt_is_Some_2 lat (k / length lon) Hr) as [v3 H3].
  pose proof (lookup_lon_grid _ _ Hr Hc) as G2. rewrite <- Ek, H2 in G2.
  pose proof (lookup_lat_grid _ _ Hr Hc) as G3. rewrite <- Ek, H3 in G3.
  erewrite lookup_assign_channel in Hpx; cycle 1.
  { erewrite lookup_assign_channel; [done| |by apply lookup_replicate_2].
    erewrite lookup_assign_channel; [done| |exact G3].
    erewrite lookup_assign_channel; [done| |exact G2].
    erewrite lookup_assign_channel; [done| |exact H1].
    erewrite lookup_assign_channel; [done| |exact H0].
    by apply lookup_replicate_2. }
  { by apply lookup_replicate_2. }
  simplify_eq. unfold clean_cell. rewrite <- Ek.
  rewrite (list_lookup_total_correct _ _ _ H0).
  rewrite (list_lookup_total_correct _ _ _ H1).
  rewrite (list_lookup_total_correct _ _ _ H2).
  rewrite (list_lookup_total_correct _ _ _ H3).
  done.
Qed.
End clean_tensor.

(** ** Building, copying, and the gap step *)

Lemma build_x_run np_cos np_sin math_pi lon lat month msum minv s :
  length msum = (length lat * length lon)%nat →
  length minv = (length lat * length lon)%nat →
  build_x np_cos np_sin math_pi lon lat month msum minv s =
    Some (fresh (dom (heap s)),
          State (<[fresh (dom (heap s)) :=
                     clean_tensor np_cos np_sin math_pi lon lat month msum minv]>
                   (heap s)) (py_pos s) (np_pos s)).
Proof.
  intros Ls Lm. unfold build_x, np_zeros.
  unfold bind at 1. unfold alloc at 1. cbv beta iota zeta.
  set (x := fresh (dom (heap s))).
  erewrite (bind_run (set_channel _ _ _)); cycle 1.
  { apply set_channel_run; [simpl; apply lookup_insert_eq|].
    by rewrite length_replicate. }
  do 5 (erewrite (bind_run (set_channel _ _ _)); cycle 1;
    [ apply set_channel_run; [simpl; apply lookup_insert_eq|];
      repeat (rewrite length_assign_channel);
      rewrite ?length_replicate, ?length_lon_grid, ?length_lat_grid; done
    | ]).
  unfold ret. simpl. rewrite !insert_insert_eq.
  by rewrite build_x_tensor.
Qed.

Lemma np_copy_run l s (t : tensor) :
  heap s !! l = Some t →
  np_copy l s =
    Some (fresh (dom (heap s)),
          State (<[fresh (dom (heap s)) := t]> (heap s)) (py_pos s) (np_pos s)).
Proof.
  intros H. unfold np_copy, bind, read, lift. rewrite H. done.
Qed.

Lemma fresh_not_in_heap (h : gmap nat tensor) : h !! fresh (dom h) = None.
Proof. apply not_elem_of_dom. apply is_fresh. Qed.

Lemma reshape_Some nrow ncol a b :
  reshape nrow ncol a = Some b → b = a ∧ length a = (nrow * ncol)%nat.
Proof.
  unfold reshape. destruct (_ =? _)%nat eqn:E; [|done].
  intros [= <-]. by apply Nat.eqb_eq in E.
Qed.

(** The fields [binanalysis] returns have the size of the grid. *)
Lemma binanalysis_lengths
    obslon obslat obsvalue obsinvsigma2 lon lat sigma2_min mmean msum minv :
  binanalysis obslon obslat obsvalue obsinvsigma2 lon lat sigma2_min
    = Some (mmean, msum, minv) →
  length mmean = (length lat * length lon)%nat ∧
  length msum = (length lat * length lon)%nat ∧
  length minv = (length lat * length lon)%nat.
Proof.
  unfold binanalysis.
  destruct (binanalysis_accumulate _ _ _ _ _ _) as [[msum0 minv0]|] eqn:Hacc;
    [|done].
  simpl. intros [= <- <- <-].
  unfold binanalysis_accumulate in Hacc.
  destruct (binanalysis_lin _ _ _ _) as [[sel lin]|]; [|done]. simpl in Hacc.
  destruct (same_length4 _ _ _ _); [|done].
  apply bind_Some in Hacc as (a & Ea & Hacc).
  apply bind_Some in Hacc as (b & Eb & Hacc).
  simplify_eq.
  apply bind_Some in Ea as (a' & _ & [-> La]%reshape_Some).
  apply bind_Some in Eb as (b' & _ & [-> Lb]%reshape_Some).
  rewrite length_put, length_replicate, !length_zip_with, !length_map.
  lia.
Qed.

Lemma lookup_fill (mask : list bool) (a : list num) v k (b : bool) x :
  mask !! k = Some b → a !! k = Some x →
  fill mask a v !! k = Some (if b then v else x).
Proof. intros Hm Ha. unfold fill. by rewrite lookup_zip_with, Hm, Ha. Qed.

Lemma length_fill (mask : list bool) (a : list num) v :
  length mask = length a → length (fill mask a v) = length a.
Proof. intros H. unfold fill. rewrite length_zip_with. lia. Qed.

Lemma gap_tensor_cell selmask (t : tensor) k a0 a1 a2 a3 a4 a5 (b : bool) :
  t !! k = Some [a0; a1; a2; a3; a4; a5] → selmask !! k = Some b →
  gap_tensor selmask t !! k =
    Some [if b then Fin 0 else a0; if b then Fin 0 else a1; a2; a3; a4; a5].
Proof.
  intros Ht Hb. unfold gap_tensor.
  pose proof (lookup_fill selmask (channel 0 t) (Fin 0) k b _
                Hb (lookup_channel 0 _ _ _ Ht)) as H0.
  pose proof (lookup_assign_channel 0 _ _ _ _ _ Ht H0) as Ht0.
  simpl in Ht0.
  pose proof (lookup_fill selmask _ (Fin 0) k b _
                Hb (lookup_channel 1 _ _ _ Ht0)) as H1.
  by rewrite (lookup_assign_channel 1 _ _ _ _ _ Ht0 H1).
Qed.

Lemma length_gap_tensor selmask (t : tensor) :
  length selmask = length t → length (gap_tensor selmask t) = length t.
Proof.
  intros H. unfold gap_tensor.
  assert (length (assign_channel 0 (fill selmask (channel 0 t) (Fin 0)) t)
          = length t) as L0.
  { apply length_assign_channel.
    rewrite length_fill; by rewrite length_channel. }
  rewrite length_assign_channel; [done|].
  rewrite length_fill; rewrite length_channel; lia.
Qed.

Section gap.
Context (np_sqrt : num → num) (uniform : nat → num) (lon lat : list num).

Opaque min_gap_count.

(** What an exit of the loop tells: the state is unchanged but for the
    position in the uniform stream, and the mask returned is the one of the
    last two draws and has at least [min_gap_count] cells. *)
Lemma gap_loop_inv fuel x xin s selmask s' :
  gap_loop np_sqrt uniform lon lat fuel x xin s = Some (selmask, s') →
  heap s' = heap s ∧ np_pos s' = np_pos s ∧
  ∃ lon0 lonN lat0 latN n (tx txin : tensor),
    lon !! 0%nat = Some lon0 ∧ last lon = Some lonN ∧
    lat !! 0%nat = Some lat0 ∧ last lat = Some latN ∧
    heap s !! x = Some tx ∧ heap s !! xin = Some txin ∧
    (py_pos s <= n)%nat ∧ py_pos s' = S (S n) ∧
    selmask =
      gap_mask np_sqrt
        (nadd lon0 (nmul (nsub lonN lon0) (uniform n)))
        (nadd lat0 (nmul (nsub latN lat0) (uniform (S n))))
        (channel 2 tx) (channel 3 tx) (channel 1 txin) ∧
    (min_gap_count <= count_true selmask)%nat.
Proof.
  revert s. induction fuel as [|fuel IH]; intros s H; [done|].
  simpl in H.
  apply bind_inv in H as (lon0 & s1 & [Hlon0 ->]%lift_Some & H).
  apply bind_inv in H as (lonN & s1 & [HlonN ->]%lift_Some & H).
  apply bind_inv in H as (u & s1 & Hu & H).
  unfold random_random in Hu. simplify_eq.
  apply bind_inv in H as (lat0 & s1 & [Hlat0 ->]%lift_Some & H).
  apply bind_inv in H as (latN & s1 & [HlatN ->]%lift_Some & H).
  apply bind_inv in H as (v & s1 & Hv & H).
  unfold random_random in Hv. simplify_eq. simpl in H.
  apply bind_inv in H as (x2 & s1 & (tx & Htx & -> & ->)%get_channel_Some & H).
  apply bind_inv in H as (x3 & s1 & (tx' & Htx' & -> & ->)%get_channel_Some & H).
  apply bind_inv in H as (xin1 & s1 & (txin & Htxin & -> & ->)%get_channel_Some & H).
  simpl in Htx, Htx', Htxin. simplify_eq.
  destruct (min_gap_count <=? count_true _)%nat eqn:E.
  - unfold ret in H. simplify_eq. simpl.
    split; [done|]. split; [done|].
    exists lon0, lonN, lat0, latN, (py_pos s), tx, txin.
    apply Nat.leb_le in E. repeat split; try done.
  - apply IH in H as (Hh & Hn & lon0' & lonN' & lat0' & latN' & n & tx1 & txin1
                      & ? & ? & ? & ? & Hx & Hxin & Hle & Hpos & Hsel & Hcnt).
    simpl in *. split; [done|]. split; [done|].
    exists lon0', lonN', lat0', latN', n, tx1, txin1.
    repeat split; try done. lia.
Qed.

Lemma gap_step_inv fuel x xin s u s' :
  gap_step np_sqrt uniform lon lat fuel x xin s = Some (u, s') →
  ∃ selmask s1 (txin : tensor),
    gap_loop np_sqrt uniform lon lat fuel x xin s = Some (selmask, s1) ∧
    heap s !! xin = Some txin ∧ length selmask = length txin ∧
    s' = State (<[xin := gap_tensor selmask txin]> (heap s))
               (py_pos s1) (np_pos s).
Proof.
  intros H. unfold gap_step in H.
  apply bind_inv in H as (selmask & s1 & Hloop & H).
  destruct (gap_loop_inv _ _ _ _ _ _ Hloop) as (Hh & Hn & _).
  apply bind_inv in H as (c0 & s2 & (t & Ht & -> & ->)%get_channel_Some & H).
  apply bind_inv in H as (old & s2 & [[Hl _]%getmask_Some ->]%lift_Some & H).
  rewrite length_channel in Hl.
  apply bind_inv in H as ([] & s2 & (t' & Ht' & _ & ->)%set_channel_Some & H).
  simplify_eq.
  apply bind_inv in H as (c1 & s2 & (t1 & Ht1 & -> & ->)%get_channel_Some & H).
  simpl in Ht1. rewrite lookup_insert_eq in Ht1. simplify_eq.
  apply set_channel_Some in H as (t2 & Ht2 & _ & ->).
  simpl in Ht2. rewrite lookup_insert_eq in Ht2. simplify_eq.
  exists selmask, s1, t. rewrite <- Hh. split; [done|]. split; [done|].
  split; [done|]. simpl. rewrite insert_insert_eq, Hn. done.
Qed.
Transparent min_gap_count.
End gap.

(** What an exit of the gap step leaves: channels 0 and 1 of [xin] are
    zero on the cells of the mask of the last candidate, which is computed
    with the distance as the call of line 247 has it and has at least
    [min_gap_count] cells; nothing else is written. *)
Lemma gap_step_exit np_sqrt uniform lon lat fuel x xin s s' :
  gap_step np_sqrt uniform lon lat fuel x xin s = Some (tt, s') →
  ∃ selmask gap_lon gap_lat (tx txin : tensor),
    heap s !! x = Some tx ∧ heap s !! xin = Some txin ∧
    selmask = gap_mask np_sqrt gap_lon gap_lat
                (channel 2 tx) (channel 3 tx) (channel 1 txin) ∧
    (min_gap_count <= count_true selmask)%nat ∧
    heap s' = <[xin := gap_tensor selmask txin]> (heap s).
Proof.
  intros (selmask & s1 & txin & Hloop & Htxin & Lsel & ->)%gap_step_inv.
  apply gap_loop_inv in Hloop
    as (_ & _ & lon0 & lonN & lat0 & latN & n & tx & txin' & _ & _ & _ & _
        & Htx & Htxin' & _ & _ & Hsel & Hcount).
  rewrite Htxin in Htxin'. injection Htxin' as <-.
  eexists _, _, _, tx, txin. split; [done|]. split; [done|].
  split; [exact Hsel|]. split; [done|]. done.
Qed.

Lemma length_noise_tensor randn lon lat jlon jlat jsv n0 minv (t : tensor) :
  length t = (length lat * length lon)%nat →
  length minv = length t →
  length (noise_tensor randn lon lat jlon jlat jsv n0 minv t) = length t.
Proof.
  intros Hl Hm. unfold noise_tensor.
  set (sel := map (λ m, ngt m (Fin 0)) minv).
  assert (length sel = length t) as Hsel by (unfold sel; by rewrite length_map).
  set (t1 := assign_channel 0 _ t).
  assert (length t1 = length t) as L1.
  { apply length_assign_channel. by rewrite length_put, length_channel. }
  set (t2 := assign_channel 1 _ t1).
  assert (length t2 = length t) as L2.
  { unfold t2. rewrite length_assign_channel; [done|].
    by rewrite length_put, length_channel. }
  set (t3 := assign_channel 2 _ t2).
  assert (length t3 = length t) as L3.
  { unfold t3. rewrite length_assign_channel; [done|].
    rewrite length_zip_with, length_channel, !length_map, length_seq. lia. }
  rewrite length_assign_channel; [done|].
  rewrite length_zip_with, length_channel, !length_map, length_seq. lia.
Qed.

(** ** One iteration of the generator *)

Section datagen.
Context (np_sqrt np_cos np_sin : num → num) (math_pi : num).
Context (uniform randn : nat → num) (month_index : Z → Z).
Context (lon lat : list num).
Context (obsvalue obslon obslat obsdepth : list num) (obstime : list Z).
Context (jlon jlat jsv : num).

Local Abbreviation body train :=
  (datagen_body np_sqrt np_cos np_sin math_pi uniform randn month_index
     lon lat obsvalue obslon obslat obsdepth obstime train jlon jlat jsv).
Local Abbreviation binned :=
  (month_binned month_index lon lat obsvalue obslon obslat obstime).
Local Abbreviation clean :=
  (clean_tensor np_cos np_sin math_pi lon lat).
Local Abbreviation noise :=
  (noise_step randn lon lat jlon jlat jsv).
Local Abbreviation gap :=
  (gap_step np_sqrt uniform lon lat).

(** Up to the copy: the month is binned, [x] is a new array holding the
    clean tensor, and [xin] is another new array with the same contents. *)
Lemma datagen_body_inv train fuel month s xin x s' :
  body train fuel month s = Some ((xin, x), s') →
  ∃ mmean msum minv s2,
    binned month = Some (mmean, msum, minv) ∧
    length minv = (length lat * length lon)%nat ∧
    x = fresh (dom (heap s)) ∧
    xin = fresh (dom (<[x := clean month msum minv]> (heap s))) ∧
    x ≠ xin ∧
    let s1 := State (<[xin := clean month msum minv]>
                       (<[x := clean month msum minv]> (heap s)))
                    (py_pos s) (np_pos s) in
    (if train then noise xin minv else ret tt) s1 = Some (tt, s2) ∧
    (if train then gap fuel x xin else ret tt) s2 = Some (tt, s').
Proof.
  intros H. unfold datagen_body in H.
  apply bind_inv in H as (mv & s0 & [Hv ->]%lift_Some & H).
  apply bind_inv in H as (mlo & s0 & [Hlo ->]%lift_Some & H).
  apply bind_inv in H as (mla & s0 & [Hla ->]%lift_Some & H).
  apply bind_inv in H as (md & s0 & [Hd ->]%lift_Some & H).
  apply bind_inv in H as (mt & s0 & [Ht ->]%lift_Some & H).
  apply bind_inv in H as ([[mmean msum] minv] & s0 & [Hb ->]%lift_Some & H).
  destruct (binanalysis_lengths _ _ _ _ _ _ _ _ _ _ Hb) as (_ & Ls & Lm).
  rewrite (bind_run _ _ _ _ _ (build_x_run _ _ _ _ _ _ _ _ _ Ls Lm)) in H.
  erewrite (bind_run (np_copy _)) in H; cycle 1.
  { apply np_copy_run. simpl. apply lookup_insert_eq. }
  simpl in H.
  apply bind_inv in H as ([] & s2 & Hnoise & H).
  apply bind_inv in H as ([] & s3 & Hgap & H).
  unfold ret in H. simplify_eq.
  exists mmean, msum, minv, s2. split.
  { unfold month_binned. rewrite Hv, Hlo, Hla. simpl. exact Hb. }
  split; [done|]. split; [done|]. split; [done|]. split; [|done].
  intros E.
  pose proof (fresh_not_in_heap
                (<[fresh (dom (heap s)) := clean month msum minv]> (heap s)))
    as Hf.
  rewrite <- E, lookup_insert_eq in Hf. done.
Qed.

(** The generator for testing yields the clean tensor itself. *)
Lemma datagen_body_test fuel month s xin x s' :
  body false fuel month s = Some ((xin, x), s') →
  ∃ mmean msum minv,
    binned month = Some (mmean, msum, minv) ∧
    yielded s' (xin, x) =
      Some (clean month msum minv, map (take 2) (clean month msum minv)).
Proof.
  intros (mmean & msum & minv & s2 & Hb & _ & -> & -> & Hne & H1 & H2)
    %datagen_body_inv.
  unfold ret in H1, H2. simplify_eq.
  exists mmean, msum, minv. split; [done|].
  unfold yielded. simpl.
  rewrite lookup_insert_eq. simpl.
  rewrite lookup_insert_ne by done. rewrite lookup_insert_eq. done.
Qed.

(** The generator for training: the state when the copy has been made,
    the two corruption steps from there, and what they leave. *)
Lemma datagen_body_train fuel month s xin x s' :
  body true fuel month s = Some ((xin, x), s') →
  ∃ mmean msum minv s1 s2 s3 selmask,
    binned month = Some (mmean, msum, minv) ∧
    length minv = (length lat * length lon)%nat ∧
    x ≠ xin ∧
    heap s1 !! x = Some (clean month msum minv) ∧
    heap s1 !! xin = Some (clean month msum minv) ∧
    np_pos s1 = np_pos s ∧
    noise xin minv s1 = Some (tt, s2) ∧
    heap s2 = <[xin := noise_tensor randn lon lat jlon jlat jsv (np_pos s1)
                         minv (clean month msum minv)]> (heap s1) ∧
    gap_loop np_sqrt uniform lon lat fuel x xin s2 = Some (selmask, s3) ∧
    length selmask = (length lat * length lon)%nat ∧
    gap fuel x xin s2 = Some (tt, s') ∧
    heap s' = <[xin := gap_tensor selmask
                         (noise_tensor randn lon lat jlon jlat jsv (np_pos s1)
                            minv (clean month msum minv))]> (heap s1).
Proof.
  intros (mmean & msum & minv & s2 & Hb & Lm & -> & -> & Hne & H1 & H2)
    %datagen_body_inv.
  set (x := fresh (dom (heap s))) in *.
  set (xin := fresh (dom (<[x := clean month msum minv]> (heap s)))) in *.
  set (s1 := State _ _ _) in H1.
  assert (heap s1 !! xin = Some (clean month msum minv)) as Hxin.
  { unfold s1. simpl. apply lookup_insert_eq. }
  assert (heap s1 !! x = Some (clean month msum minv)) as Hx.
  { unfold s1. simpl. rewrite lookup_insert_ne by done. apply lookup_insert_eq. }
  rewrite (noise_step_run _ _ _ _ _ _ _ _ _ _ Hxin) in H1;
    [|apply length_clean_tensor|by rewrite length_clean_tensor].
  simplify_eq.
  destruct (gap_step_inv _ _ _ _ _ _ _ _ _ _ H2)
    as (selmask & s3 & txin & Hloop & Htxin & Lsel & ->).
  simpl in Htxin. rewrite lookup_insert_eq in Htxin. simplify_eq.
  eexists mmean, msum, minv, s1, _, s3, selmask.
  split; [done|]. split; [done|]. split; [done|]. split; [done|].
  split; [done|]. split; [done|]. split.
  { apply noise_step_run; [done|apply length_clean_tensor|
                           by rewrite length_clean_tensor]. }
  split; [done|]. split; [exact Hloop|]. split.
  { rewrite Lsel, length_noise_tensor; rewrite length_clean_tensor; done. }
  split; [exact H2|].
  simpl. by rewrite insert_insert_eq.
Qed.
End datagen.

(** ** The noise step, cell by cell *)

Lemma shaped_cell n (t : tensor) k :
  shaped n t → (k < n)%nat →
  ∃ a0 a1 a2 a3 a4 a5, t !! k = Some [a0; a1; a2; a3; a4; a5].
Proof.
  intros [Hl Hc] Hk.
  destruct (lookup_lt_is_Some_2 t k ltac:(lia)) as [px Hpx].
  rewrite Forall_forall in Hc.
  pose proof (Hc px (list_elem_of_lookup_2 _ _ _ Hpx)) as Hlen.
  destruct px as [|a0 [|a1 [|a2 [|a3 [|a4 [|a5 [|]]]]]]]; try done.
  eauto 10.
Qed.

Lemma jitter_variance (q j : Q) :
  (0 < q)%Q →
  ndiv (Fin 1) (ndiv (Fin 1) (nadd (ndiv (Fin 1) (Fin q)) (nsq (Fin j))))
  ≡ nadd (ndiv (Fin 1) (Fin q)) (nsq (Fin j)).
Proof.
  intros Hq. simpl.
  assert (Qeq_bool q 0 = false) as -> by (apply Qeq_bool_false_iff; lra).
  simpl.
  destruct (Qinv_pos_spec q Hq) as [Hi _].
  assert (0 < 1 / q + j * j)%Q as Hpos.
  { unfold Qdiv. nra. }
  assert (Qeq_bool (1 / q + j * j) 0 = false) as ->
    by (apply Qeq_bool_false_iff; lra).
  simpl.
  destruct (Qinv_pos_spec _ Hpos) as [Hi' _].
  assert (Qeq_bool (1 / (1 / q + j * j)) 0 = false) as ->.
  { apply Qeq_bool_false_iff. unfold Qdiv at 1. lra. }
  change (1 / (1 / (1 / q + j * j)) == 1 / q + j * j)%Q. field. split; [lra|]. 
  intros E. unfold Qdiv in Hpos. 
  assert (1 + j * j * q == q * (1 * / q + j * j))%Q as E' by (field; lra).
  rewrite E in E'. nra.
Qed.

(** C6: the noise step succeeds and leaves in [xin] a tensor of the same
    shape in which, cell by cell: where the inverse variance [m] of the
    cell is strictly positive, channel 0 is the old value plus
    [jitter_std_value] times the next normal draw and channel 1 is
    [1/(1/m + jitter_std_value^2)], so that the variance of the cell grows
    by [jitter_std_value^2]; elsewhere channels 0 and 1 are unchanged;
    channels 2 and 3 receive [jitter_std_lon] and [jitter_std_lat] times a
    normal draw at every cell; channels 4 and 5 are unchanged.  No other
    array is written. *)
Theorem noise_step_effect
    (randn : nat → num) (lon lat : list num) (jlon jlat jsv : num)
    (xin : nat) (minv : list num) (s : state) (t : tensor) :
  heap s !! xin = Some t →
  shaped (length lat * length lon) t →
  length minv = (length lat * length lon)%nat →
  let ncell := (length lat * length lon)%nat in
  let sel := map (λ m, ngt m (Fin 0)) minv in
  let n0 := np_pos s in
  let n2 := (n0 + count_true sel)%nat in
  let n3 := (n2 + ncell)%nat in
  ∃ t' : tensor,
    noise_step randn lon lat jlon jlat jsv xin minv s
      = Some (tt, State (<[xin := t']> (heap s)) (py_pos s) (n3 + ncell)) ∧
    shaped ncell t' ∧
    (∀ k, (k < ncell)%nat →
       ∃ m a0 a1 a2 a3 a4 a5,
         minv !! k = Some m ∧
         t !! k = Some [a0; a1; a2; a3; a4; a5] ∧
         t' !! k =
           Some [ if ngt m (Fin 0)
                  then nadd a0 (nmul jsv (randn (n0 + rank sel k)%nat))
                  else a0;
                  if ngt m (Fin 0)
                  then ndiv (Fin 1) (nadd (ndiv (Fin 1) m) (nsq jsv))
                  else a1;
                  nadd a2 (nmul jlon (randn (n2 + k)%nat));
                  nadd a3 (nmul jlat (randn (n3 + k)%nat));
                  a4; a5 ]) ∧
    (∀ q j, (0 < q)%Q →
       ndiv (Fin 1) (ndiv (Fin 1) (nadd (ndiv (Fin 1) (Fin q)) (nsq (Fin j))))
       ≡ nadd (ndiv (Fin 1) (Fin q)) (nsq (Fin j))).
Proof.
  intros Ht Hsh Lm ncell sel n0 n2 n3.
  pose proof Hsh as [Hl Hc].
  exists (noise_tensor randn lon lat jlon jlat jsv (np_pos s) minv t).
  assert (∀ k, (k < ncell)%nat →
     ∃ m a0 a1 a2 a3 a4 a5,
       minv !! k = Some m ∧ t !! k = Some [a0; a1; a2; a3; a4; a5] ∧
       noise_tensor randn lon lat jlon jlat jsv (np_pos s) minv t !! k =
         Some [ if ngt m (Fin 0)
                then nadd a0 (nmul jsv (randn (n0 + rank sel k)%nat))
                else a0;
                if ngt m (Fin 0)
                then ndiv (Fin 1) (nadd (ndiv (Fin 1) m) (nsq jsv))
                else a1;
                nadd a2 (nmul jlon (randn (n2 + k)%nat));
                nadd a3 (nmul jlat (randn (n3 + k)%nat));
                a4; a5 ]) as Hcells.
  { intros k Hk.
    destruct (lookup_lt_is_Some_2 minv k ltac:(lia)) as [m Hm].
    destruct (shaped_cell _ _ k Hsh Hk) as (a0 & a1 & a2 & a3 & a4 & a5 & Hk').
    exists m, a0, a1, a2, a3, a4, a5. split; [done|]. split; [done|].
    apply noise_tensor_cell; (done || lia). }
  split; [|split; [|split]].
  - rewrite (noise_step_run _ _ _ _ _ _ _ _ _ _ Ht) by (done || lia). done.
  - split.
    + rewrite length_noise_tensor; (done || lia).
    + apply Forall_forall. intros px [k Hk]%list_elem_of_lookup.
      assert (k < ncell)%nat as Hkn.
      { apply lookup_lt_Some in Hk.
        rewrite length_noise_tensor in Hk; (done || lia). }
      destruct (Hcells k Hkn) as (? & ? & ? & ? & ? & ? & ? & _ & _ & E).
      rewrite E in Hk. by simplify_eq.
  - exact Hcells.
  - intros q j Hq. by apply jitter_variance.
Qed.

(** ** The samples of the generator *)

(** ** The cells of a gap *)

Lemma count_true_mono (a b : list bool) :
  (∀ k, a !! k = Some true → b !! k = Some true) →
  (count_true a <= count_true b)%nat.
Proof.
  revert b. induction a as [|x a IH]; intros b H.
  { unfold count_true at 1. simpl. lia. }
  destruct b as [|y b].
  { destruct x.
    - specialize (H 0%nat eq_refl). done.
    - rewrite count_true_cons. simpl.
      rewrite (IH []); [done|].
      intros k Hk. specialize (H (S k) Hk). done. }
  rewrite !count_true_cons.
  assert (count_true a <= count_true b)%nat as Hab.
  { apply IH. intros k Hk. exact (H (S k) Hk). }
  destruct x, y; simpl; try lia.
  specialize (H 0%nat eq_refl). done.
Qed.

(** A cell of a candidate gap has a positive inverse variance in [xin]. *)
Lemma gap_mask_positive np_sqrt gl gt x2 x3 xin1 k :
  gap_mask np_sqrt gl gt x2 x3 xin1 !! k = Some true →
  ∃ m, xin1 !! k = Some m ∧ ngt m (Fin 0) = true.
Proof.
  unfold gap_mask. rewrite !lookup_zip_with. intros H.
  destruct (x2 !! k); [|done]. destruct (x3 !! k); [|done].
  destruct (xin1 !! k) as [m|]; [|done]. simpl in H.
  injection H as [_ H]%andb_true_iff. eauto.
Qed.

Section noise_channel.
Context (np_cos np_sin : num → num) (math_pi : num) (randn : nat → num).
Context (lon lat : list num) (jlon jlat jsv : num).

Local Abbreviation clean := (clean_tensor np_cos np_sin math_pi lon lat).
Local Abbreviation ncell := (length lat * length lon)%nat.

(** Cell [k] of the clean tensor and of the tensor the noise step makes
    of it: channel 1 is positive after the noise only where the binned
    inverse variance is. *)
Lemma noise_clean_cell n0 month msum minv k :
  length minv = ncell → (k < ncell)%nat →
  ∃ a0 m a2 a3 a4 a5 b0 b1 b2 b3,
    minv !! k = Some m ∧
    clean month msum minv !! k = Some [a0; m; a2; a3; a4; a5] ∧
    noise_tensor randn lon lat jlon jlat jsv n0 minv (clean month msum minv)
      !! k = Some [b0; b1; b2; b3; a4; a5] ∧
    (ngt b1 (Fin 0) = true → ngt m (Fin 0) = true).
Proof.
  intros Lm Hk.
  destruct (lookup_lt_is_Some_2 minv k ltac:(lia)) as [m Hm].
  assert (k = (k / length lon * length lon + k mod length lon)%nat) as Ek.
  { rewrite Nat.mul_comm. apply Nat.div_mod_eq. }
  assert (k / length lon < length lat)%nat as Hr
    by (apply Nat.Div0.div_lt_upper_bound; lia).
  assert (k mod length lon < length lon)%nat as Hc
    by (apply Nat.mod_upper_bound; lia).
  pose proof (lookup_clean_tensor np_cos np_sin math_pi lon lat month msum
                minv _ _ Hr Hc) as Hcell.
  rewrite <- Ek in Hcell. unfold clean_cell in Hcell. rewrite <- Ek in Hcell.
  rewrite (list_lookup_total_correct minv k m Hm) in Hcell.
  pose proof (noise_tensor_cell randn lon lat jlon jlat jsv n0 minv _ k
                _ _ _ _ _ _ m
                (length_clean_tensor _ _ _ _ _ _ _ _)
                ltac:(by rewrite length_clean_tensor) Hcell Hm) as Hn.
  simpl in Hn.
  eexists _, m, _, _, _, _, _, _, _, _.
  split; [done|]. split; [exact Hcell|]. split; [exact Hn|].
  destruct (ngt m (Fin 0)) eqn:E; [done|]. by rewrite E.
Qed.
End noise_channel.

(** ** The samples *)

Section samples.
Context (np_sqrt np_cos np_sin : num → num) (math_pi : num).
Context (uniform randn : nat → num) (month_index : Z → Z).
Context (lon lat : list num).
Context (obsvalue obslon obslat obsdepth : list num) (obstime : list Z).
Context (jlon jlat jsv : num).

Local Abbreviation body train :=
  (datagen_body np_sqrt np_cos np_sin math_pi uniform randn month_index
     lon lat obsvalue obslon obslat obsdepth obstime train jlon jlat jsv).
Local Abbreviation binned :=
  (month_binned month_index lon lat obsvalue obslon obslat obstime).
Local Abbreviation clean :=
  (clean_tensor np_cos np_sin math_pi lon lat).
Local Abbreviation noise :=
  (noise_step randn lon lat jlon jlat jsv).
Local Abbreviation gap :=
  (gap_step np_sqrt uniform lon lat).
Local Abbreviation ncell := (length lat * length lon)%nat.

(** C5: at a [yield] of the training generator, the target is channels 0
    and 1 of the clean tensor built before any corruption.  When the copy
    has been made (state [s1]) both [x] and [xin] hold the clean tensor in
    two different arrays; the noise step and the gap step run from there
    write to [xin] only, every other array, [x] among them, is as it was;
    the pair yielded is the corrupted [xin] and the first two channels of
    the clean [x]. *)
Theorem datagen_corrupts_copy_only fuel month s xin x s' :
  body true fuel month s = Some ((xin, x), s') →
  ∃ mmean msum minv s1 s2 selmask,
    binned month = Some (mmean, msum, minv) ∧
    x ≠ xin ∧
    heap s1 !! x = Some (clean month msum minv) ∧
    heap s1 !! xin = Some (clean month msum minv) ∧
    noise xin minv s1 = Some (tt, s2) ∧
    gap fuel x xin s2 = Some (tt, s') ∧
    (∀ l, l ≠ xin → heap s2 !! l = heap s1 !! l) ∧
    (∀ l, l ≠ xin → heap s' !! l = heap s2 !! l) ∧
    heap s' !! x = Some (clean month msum minv) ∧
    yielded s' (xin, x) =
      Some (gap_tensor selmask
              (noise_tensor randn lon lat jlon jlat jsv (np_pos s1) minv
                 (clean month msum minv)),
            map (take 2) (clean month msum minv)).
Proof.
  intros (mmean & msum & minv & s1 & s2 & s3 & selmask & Hb & Lm & Hne & Hx
          & Hxin & Hpos & Hnoise & Hh2 & Hloop & Lsel & Hgap & Hh')
    %datagen_body_train.
  exists mmean, msum, minv, s1, s2, selmask.
  split; [done|]. split; [done|]. split; [done|]. split; [done|].
  split; [done|]. split; [done|].
  split. { intros l Hl. rewrite Hh2. by rewrite lookup_insert_ne. }
  split. { intros l Hl. rewrite Hh', Hh2. by rewrite !lookup_insert_ne. }
  split. { rewrite Hh'. by rewrite lookup_insert_ne. }
  unfold yielded. simpl. rewrite Hh', lookup_insert_eq. simpl.
  rewrite lookup_insert_ne by done. rewrite Hx. done.
Qed.

(** The cells of a training sample: channels 4 and 5 are those of the
    clean tensor. *)
Lemma corrupted_cell selmask n0 month msum minv k :
  length minv = ncell → length selmask = ncell → (k < ncell)%nat →
  ∃ a0 a1 a2 a3 a4 a5 b0 b1 b2 b3,
    clean month msum minv !! k = Some [a0; a1; a2; a3; a4; a5] ∧
    gap_tensor selmask
      (noise_tensor randn lon lat jlon jlat jsv n0 minv (clean month msum minv))
      !! k = Some [b0; b1; b2; b3; a4; a5].
Proof.
  intros Lm Lsel Hk.
  destruct (shaped_cell _ _ k (shaped_clean_tensor np_cos np_sin math_pi
              lon lat month msum minv) Hk)
    as (a0 & a1 & a2 & a3 & a4 & a5 & Hc).
  destruct (lookup_lt_is_Some_2 minv k ltac:(lia)) as [m Hm].
  destruct (lookup_lt_is_Some_2 selmask k ltac:(lia)) as [b Hb].
  pose proof (noise_tensor_cell randn lon lat jlon jlat jsv n0 minv _ k
                _ _ _ _ _ _ m
                (length_clean_tensor _ _ _ _ _ _ _ _)
                ltac:(by rewrite length_clean_tensor) Hc Hm) as Hn.
  simpl in Hn.
  pose proof (gap_tensor_cell selmask _ k _ _ _ _ _ _ b Hn Hb) as Hg.
  eauto 12.
Qed.

Lemma channel_45_clean month msum minv :
  channel 4 (clean month msum minv)
    = replicate ncell (np_cos (month_angle math_pi month)) ∧
  channel 5 (clean month msum minv)
    = replicate ncell (np_sin (month_angle math_pi month)).
Proof.
  split.
  - apply list_eq_same_length with ncell.
    { by rewrite length_replicate. }
    { by rewrite length_channel, length_clean_tensor. }
    intros k y z Hk Hy Hz.
    apply lookup_replicate in Hz as [-> _].
    assert (0 < length lon)%nat by nia.
    assert (k = (k / length lon * length lon + k mod length lon)%nat) as Ek.
    { rewrite Nat.mul_comm. apply Nat.div_mod_eq. }
    rewrite Ek in Hy. erewrite lookup_channel in Hy; cycle 1.
    { apply lookup_clean_tensor.
      - apply Nat.Div0.div_lt_upper_bound. lia.
      - apply Nat.mod_upper_bound. lia. }
    by simplify_eq.
  - apply list_eq_same_length with ncell.
    { by rewrite length_replicate. }
    { by rewrite length_channel, length_clean_tensor. }
    intros k y z Hk Hy Hz.
    apply lookup_replicate in Hz as [-> _].
    assert (0 < length lon)%nat by nia.
    assert (k = (k / length lon * length lon + k mod length lon)%nat) as Ek.
    { rewrite Nat.mul_comm. apply Nat.div_mod_eq. }
    rewrite Ek in Hy. erewrite lookup_channel in Hy; cycle 1.
    { apply lookup_clean_tensor.
      - apply Nat.Div0.div_lt_upper_bound. lia.
      - apply Nat.mod_upper_bound. lia. }
    by simplify_eq.
Qed.

Lemma corrupted_sample selmask n0 month msum minv :
  length minv = ncell → length selmask = ncell →
  let t_in :=
    gap_tensor selmask
      (noise_tensor randn lon lat jlon jlat jsv n0 minv (clean month msum minv)) in
  shaped ncell t_in ∧
  channel 4 t_in = channel 4 (clean month msum minv) ∧
  channel 5 t_in = channel 5 (clean month msum minv).
Proof.
  intros Lm Lsel t_in.
  assert (length t_in = ncell) as Lt.
  { unfold t_in. rewrite length_gap_tensor;
      rewrite length_noise_tensor; rewrite ?length_clean_tensor; lia. }
  split; [split; [done|]|split].
  - apply Forall_forall. intros px [k Hk]%list_elem_of_lookup.
    assert (k < ncell)%nat as Hkn by (rewrite <- Lt; by eapply lookup_lt_Some).
    destruct (corrupted_cell selmask n0 month msum minv k Lm Lsel Hkn)
      as (? & ? & ? & ? & ? & ? & ? & ? & ? & ? & _ & E).
    fold t_in in E. rewrite E in Hk. by simplify_eq.
  - apply list_eq_same_length with ncell.
    { by rewrite length_channel, length_clean_tensor. }
    { by rewrite length_channel. }
    intros k y z Hk Hy Hz.
    destruct (corrupted_cell selmask n0 month msum minv k Lm Lsel Hk)
      as (? & ? & ? & ? & ? & ? & ? & ? & ? & ? & Ec & E).
    fold t_in in E.
    rewrite (lookup_channel _ _ _ _ E) in Hy.
    rewrite (lookup_channel _ _ _ _ Ec) in Hz. by simplify_eq.
  - apply list_eq_same_length with ncell.
    { by rewrite length_channel, length_clean_tensor. }
    { by rewrite length_channel. }
    intros k y z Hk Hy Hz.
    destruct (corrupted_cell selmask n0 month msum minv k Lm Lsel Hk)
      as (? & ? & ? & ? & ? & ? & ? & ? & ? & ? & Ec & E).
    fold t_in in E.
    rewrite (lookup_channel _ _ _ _ E) in Hy.
    rewrite (lookup_channel _ _ _ _ Ec) in Hz. by simplify_eq.
Qed.

(** What every [yield] gives, in either mode. *)
Lemma datagen_body_sample train fuel month s xin x s' :
  body train fuel month s = Some ((xin, x), s') →
  ∃ mmean msum minv (t_in : tensor),
    binned month = Some (mmean, msum, minv) ∧
    yielded s' (xin, x) = Some (t_in, map (take 2) (clean month msum minv)) ∧
    shaped ncell t_in ∧
    channel 4 t_in = replicate ncell (np_cos (month_angle math_pi month)) ∧
    channel 5 t_in = replicate ncell (np_sin (month_angle math_pi month)) ∧
    (train = false → t_in = clean month msum minv).
Proof.
  destruct train; intros H.
  - apply datagen_body_train in H
      as (mmean & msum & minv & s1 & s2 & s3 & selmask & Hb & Lm & Hne & Hx
          & Hxin & Hpos & Hnoise & Hh2 & Hloop & Lsel & Hgap & Hh').
    destruct (corrupted_sample selmask (np_pos s1) month msum minv Lm Lsel)
      as (Hsh & H4 & H5).
    destruct (channel_45_clean month msum minv) as [C4 C5].
    eexists mmean, msum, minv, _. split; [done|]. split.
    { unfold yielded. simpl. rewrite Hh', lookup_insert_eq. simpl.
      rewrite lookup_insert_ne by done. rewrite Hx. done. }
    split; [done|]. split; [by rewrite H4|]. split; [by rewrite H5|]. done.
  - apply datagen_body_test in H as (mmean & msum & minv & Hb & Hy).
    destruct (channel_45_clean month msum minv) as [C4 C5].
    exists mmean, msum, minv, (clean month msum minv).
    split; [done|]. split; [done|]. split; [apply shaped_clean_tensor|].
    done.
Qed.

(** The samples of a run over a list of months, in order. *)
Lemma datagen_months_samples train fuel months s smps s' :
  datagen_months np_sqrt np_cos np_sin math_pi uniform randn month_index
    lon lat obsvalue obslon obslat obsdepth obstime train jlon jlat jsv
    fuel months s = Some (smps, s') →
  length smps = length months ∧
  ∀ i month smp, months !! i = Some month → smps !! i = Some smp →
    ∃ s0 xin x s1,
      body train fuel month s0 = Some ((xin, x), s1) ∧
      yielded s1 (xin, x) = Some smp.
Proof.
  revert s smps. induction months as [|month months IH]; intros s smps H.
  { simpl in H. simplify_eq. split; [done|]. intros i ? ? Hi. done. }
  simpl in H.
  apply bind_Some in H as ([[xin x] s1] & Hbody & H). simpl in H.
  apply bind_Some in H as (smp & Hy & H).
  apply bind_Some in H as ([smps' s2] & Hrest & H). simpl in H. simplify_eq.
  destruct (IH _ _ Hrest) as [Hl Hs].
  split; [simpl; by rewrite Hl|].
  intros [|i] month' smp' Hm Hsmp; simpl in *.
  - simplify_eq. by exists s, xin, x, s1.
  - by eapply Hs.
Qed.
(** The samples the consumer receives: each one is what the body of its
    month yields. *)
Lemma datagen_yields_months_samples train fuel months s i smp :
  datagen_yields_months np_sqrt np_cos np_sin math_pi uniform randn
    month_index lon lat obsvalue obslon obslat obsdepth obstime train
    jlon jlat jsv fuel months s !! i = Some smp →
  ∃ month s0 xin x s1,
    months !! i = Some month ∧
    body train fuel month s0 = Some ((xin, x), s1) ∧
    yielded s1 (xin, x) = Some smp.
Proof.
  revert s i. induction months as [|month months IH]; intros s i H; [done|].
  simpl in H.
  destruct (body train fuel month s) as [[[xin x] s1]|] eqn:Hbody; [|done].
  destruct (yielded s1 (xin, x)) as [smp'|] eqn:Hy; [|done].
  destruct i as [|i]; simpl in H.
  - simplify_eq. by exists month, s, xin, x, s1.
  - destruct (IH _ _ H) as (month' & s0 & xin' & x' & s1' & Hm & Hb & Hy').
    by exists month', s0, xin', x', s1'.
Qed.

(** A run that reaches its end has yielded all its samples. *)
Lemma datagen_months_yields train fuel months s smps s' :
  datagen_months np_sqrt np_cos np_sin math_pi uniform randn month_index
    lon lat obsvalue obslon obslat obsdepth obstime train jlon jlat jsv
    fuel months s = Some (smps, s') →
  datagen_yields_months np_sqrt np_cos np_sin math_pi uniform randn
    month_index lon lat obsvalue obslon obslat obsdepth obstime train
    jlon jlat jsv fuel months s = smps.
Proof.
  revert s smps. induction months as [|month months IH]; intros s smps H.
  { simpl in H. by simplify_eq. }
  simpl in H.
  apply bind_Some in H as ([[xin x] s1] & Hbody & H). simpl in H.
  apply bind_Some in H as (smp & Hy & H).
  apply bind_Some in H as ([smps' s2] & Hrest & H). simpl in H. simplify_eq.
  simpl. rewrite Hbody, Hy. f_equal. by eapply IH.
Qed.

(** The gap of a training sample: the mask the loop returns has at least
    [min_gap_count] cells, and each of them has a positive binned inverse
    variance. *)
Lemma datagen_body_gap fuel month s xin x s' :
  body true fuel month s = Some ((xin, x), s') →
  ∃ mmean msum minv (selmask : list bool) n0,
    binned month = Some (mmean, msum, minv) ∧
    length minv = ncell ∧
    yielded s' (xin, x) =
      Some (gap_tensor selmask
              (noise_tensor randn lon lat jlon jlat jsv n0 minv
                 (clean month msum minv)),
            map (take 2) (clean month msum minv)) ∧
    length selmask = ncell ∧
    (min_gap_count <= count_true selmask)%nat ∧
    ∀ k, selmask !! k = Some true →
      ∃ m, minv !! k = Some m ∧ ngt m (Fin 0) = true.
Proof.
  intros E.
  apply datagen_body_train in E
    as (mmean & msum & minv & s1 & s2 & s3 & selmask & Hb & Lm & Hne & Hx
        & Hxin & Hpos & Hnoise & Hh2 & Hloop & Lsel & Hgap & Hh').
  apply gap_loop_inv in Hloop
    as (_ & _ & lon0 & lonN & lat0 & latN & n & tx & txin & _ & _ & _ & _
        & Htx & Htxin & _ & _ & Hsel & Hcount).
  rewrite Hh2, lookup_insert_eq in Htxin. injection Htxin as <-.
  exists mmean, msum, minv, selmask, (np_pos s1).
  split; [done|]. split; [done|]. split.
  { unfold yielded. simpl. rewrite Hh', lookup_insert_eq. simpl.
    rewrite lookup_insert_ne by done. rewrite Hx. done. }
  split; [done|]. split; [done|].
  intros k Hk.
  assert (k < ncell)%nat as Hkn.
  { rewrite <- Lsel. by eapply lookup_lt_Some. }
  destruct (noise_clean_cell np_cos np_sin math_pi randn lon lat jlon jlat jsv
              (np_pos s1) month msum minv k Lm Hkn)
    as (a0 & m & a2 & a3 & a4 & a5 & b0 & b1 & b2 & b3 & Hm & Hc & Hn & Himp).
  rewrite Hsel in Hk. apply gap_mask_positive in Hk as (b1' & Hb1 & Hgt).
  rewrite (lookup_channel 1 _ _ _ Hn) in Hb1. simpl in Hb1.
  injection Hb1 as <-.
  exists m. split; [done|]. by apply Himp.
Qed.
End samples.

Section layout.
Context (np_sqrt np_cos np_sin : num → num) (math_pi : num).
Context (uniform randn : nat → num) (month_index : Z → Z).
Context (lon lat : list num).
Context (obsvalue obslon obslat obsdepth : list num) (obstime : list Z).
Context (jlon jlat jsv : num).

Local Abbreviation binned :=
  (month_binned month_index lon lat obsvalue obslon obslat obstime).
Local Abbreviation clean :=
  (clean_tensor np_cos np_sin math_pi lon lat).
Local Abbreviation ncell := (length lat * length lon)%nat.

(** C4, as the code has it.  Every sample the generator yields, the ones
    yielded before a month that raises or does not leave the gap loop among
    them, is the sample of a month [i + 1] of the [ntime] months; its input
    is a tensor of [len(lat) * len(lon)] cells with six channels whose
    channels 4 and 5 are the cosine and the sine of the month angle; its
    target is channels 0 and 1 of the clean tensor, whose cell in row [r],
    column [c] holds the binned sum, the binned inverse variance, the
    longitude of column [c], the latitude of row [r], the cosine and the
    sine.  When [train] is false the input is that clean tensor itself.
    When [train] is true the input is the clean tensor after the noise step
    and the gap step, and the gap has at least [min_gap_count] cells whose
    binned inverse variance is positive and whose channels 0 and 1 in the
    input are zero: there channel 1 is not the binned inverse variance. *)
Theorem datagen_sample_layout train fuel s i xin y :
  datagen_yields np_sqrt np_cos np_sin math_pi uniform randn month_index
    lon lat obsvalue obslon obslat obsdepth obstime train jlon jlat jsv
    fuel s !! i = Some (xin, y) →
  let month := Z.of_nat i + 1 in
  (i < ntime)%nat ∧
  ∃ mmean msum minv,
    month_binned month_index lon lat obsvalue obslon obslat obstime month
      = Some (mmean, msum, minv) ∧
    shaped ncell xin ∧
    channel 4 xin = replicate ncell (np_cos (month_angle math_pi month)) ∧
    channel 5 xin = replicate ncell (np_sin (month_angle math_pi month)) ∧
    y = map (take 2) (clean_tensor np_cos np_sin math_pi lon lat
                        month msum minv) ∧
    (∀ r c, (r < length lat)%nat → (c < length lon)%nat →
       let k := (r * length lon + c)%nat in
       clean_tensor np_cos np_sin math_pi lon lat month msum minv !! k =
         Some [ msum !!! k; minv !!! k; lon !!! c; lat !!! r;
                np_cos (month_angle math_pi month);
                np_sin (month_angle math_pi month) ] ∧
       y !! k = Some [ msum !!! k; minv !!! k ]) ∧
    (train = false →
       xin = clean_tensor np_cos np_sin math_pi lon lat month msum minv) ∧
    (train = true →
       ∃ (selmask : list bool) (n0 : nat),
         xin = gap_tensor selmask
                 (noise_tensor randn lon lat jlon jlat jsv n0 minv
                    (clean_tensor np_cos np_sin math_pi lon lat
                       month msum minv)) ∧
         length selmask = ncell ∧
         (min_gap_count <= count_true selmask)%nat ∧
         ∀ k, selmask !! k = Some true →
           ∃ m, minv !! k = Some m ∧ ngt m (Fin 0) = true ∧
                channel 0 xin !! k = Some (Fin 0) ∧
                channel 1 xin !! k = Some (Fin 0)).
Proof.
  intros H month. unfold datagen_yields in H.
  apply datagen_yields_months_samples in H
    as (month' & s0 & lxin & lx & s1 & Hm & Hbody & Hy).
  pose proof (lookup_lt_Some _ _ _ Hm) as Hlt.
  rewrite length_map, length_seq in Hlt.
  rewrite list_lookup_fmap, lookup_seq_lt in Hm by done. simpl in Hm.
  assert (month' = month) as -> by (subst month; simplify_eq; lia).
  clear Hm. split; [done|].
  pose proof Hbody as Hbody'.
  apply datagen_body_sample in Hbody
    as (mmean & msum & minv & t_in & Hb & Hy' & Hsh & H4 & H5 & Htest).
  rewrite Hy' in Hy. simplify_eq.
  exists mmean, msum, minv.
  split; [done|]. split; [done|]. split; [done|]. split; [done|].
  split; [done|]. split; [|split; [done|]].
  - intros r c Hr Hc k.
    pose proof (lookup_clean_tensor np_cos np_sin math_pi lon lat month msum
                  minv r c Hr Hc) as Hcell.
    split; [exact Hcell|].
    rewrite list_lookup_fmap. fold k in Hcell. rewrite Hcell. done.
  - intros ->.
    apply datagen_body_gap in Hbody'
      as (mmean' & msum' & minv' & selmask & n0 & Hb' & Lm & Hy & Lsel & Hcount
          & Hpos).
    rewrite Hb in Hb'. rewrite Hy' in Hy. simplify_eq.
    exists selmask, n0. split; [done|]. split; [done|]. split; [done|].
    intros k Hk.
    destruct (Hpos k Hk) as (m & Hm & Hgt).
    exists m. split; [done|]. split; [done|].
    assert (k < ncell)%nat as Hkn.
    { rewrite <- Lsel. by eapply lookup_lt_Some. }
    destruct (noise_clean_cell np_cos np_sin math_pi randn lon lat jlon jlat
                jsv n0 month msum' minv' k Lm Hkn)
      as (a0 & m' & a2 & a3 & a4 & a5 & b0 & b1 & b2 & b3 & _ & _ & Hn & _).
    pose proof (gap_tensor_cell selmask _ k _ _ _ _ _ _ true Hn Hk) as Hg.
    simpl in Hg.
    by rewrite (lookup_channel 0 _ _ _ Hg), (lookup_channel 1 _ _ _ Hg).
Qed.
End layout.

(** ** The steps on concrete inputs *)

Example noise_step_example :
  (λ r, heap r.2 !! 0%nat) <$>
    noise_step run_randn ex_lon ex_lat (Fin (1 # 10)) (Fin (1 # 10))
      (Fin (1 # 2)) 0 ex_minvsigma2 ex_state
  = Some (Some
      [ [Fin (22 # 4); Fin (12 # 7); Fin (0 # 20); Fin (1 # 20); Fin 1; Fin 0];
        [Fin 0; Fin 0; Fin (21 # 20); Fin (2 # 20); Fin 1; Fin 0];
        [Fin 0; Fin 0; Fin (42 # 20); Fin (-2 # 20); Fin 1; Fin 0];
        [Fin 0; Fin 0; Fin (-2 # 20); Fin (19 # 20); Fin 1; Fin 0];
        [Fin 0; Fin 0; Fin (19 # 20); Fin (20 # 20); Fin 1; Fin 0];
        [Fin (-5 # 4); Fin (4 # 5); Fin (40 # 20); Fin (21 # 20); Fin 1; Fin 0] ]).
Proof. vm_compute. reflexivity. Qed.

Lemma noise_step_effect_witness :
  let sel := map (λ m, ngt m (Fin 0)) ex_minvsigma2 in
  let n2 := (0 + count_true sel)%nat in
  let n3 := (n2 + 6)%nat in
  ∃ t' : tensor,
    noise_step run_randn ex_lon ex_lat (Fin (1 # 10)) (Fin (1 # 10))
      (Fin (1 # 2)) 0 ex_minvsigma2 ex_state
      = Some (tt, State (<[0%nat := t']> (heap ex_state)) 0 (n3 + 6)) ∧
    shaped 6 t' ∧
    (∀ k, (k < 6)%nat →
       ∃ m a0 a1 a2 a3 a4 a5,
         ex_minvsigma2 !! k = Some m ∧
         ex_tensor !! k = Some [a0; a1; a2; a3; a4; a5] ∧
         t' !! k =
           Some [ if ngt m (Fin 0)
                  then nadd a0 (nmul (Fin (1 # 2)) (run_randn (0 + rank sel k)%nat))
                  else a0;
                  if ngt m (Fin 0)
                  then ndiv (Fin 1) (nadd (ndiv (Fin 1) m) (nsq (Fin (1 # 2))))
                  else a1;
                  nadd a2 (nmul (Fin (1 # 10)) (run_randn (n2 + k)%nat));
                  nadd a3 (nmul (Fin (1 # 10)) (run_randn (n3 + k)%nat));
                  a4; a5 ]) ∧
    (∀ q j, (0 < q)%Q →
       ndiv (Fin 1) (ndiv (Fin 1) (nadd (ndiv (Fin 1) (Fin q)) (nsq (Fin j))))
       ≡ nadd (ndiv (Fin 1) (Fin q)) (nsq (Fin j))).
Proof.
  apply (noise_step_effect run_randn ex_lon ex_lat (Fin (1 # 10)) (Fin (1 # 10))
           (Fin (1 # 2)) 0%nat ex_minvsigma2 ex_state ex_tensor).
  - vm_compute. reflexivity.
  - split; [reflexivity|]. vm_compute. repeat constructor.
  - reflexivity.
Defined.

Example datagen_test_first_cells :
  first_cells (run_datagen false 0)
  = Some (Some [Fin 1; Fin 1; Fin (0 # 8); Fin (0 # 8); Fin 1; Fin 0],
          Some [Fin 1; Fin 1]).
Proof. vm_compute. reflexivity. Qed.

Example datagen_train_first_cells :
  first_cells (run_datagen true 1)
  = Some (Some [Fin 0; Fin 0; Fin (16 # 160); Fin (8 # 160); Fin 1; Fin 0],
          Some [Fin 1; Fin 1]).
Proof. vm_compute. reflexivity. Qed.

(** The observations of the 8 x 8 grid are what [loadobs] returns for
    their file: none of them is on the bounds. *)
Example loadobs_run_observations :
  loadobs run_fs run_lon run_lat "Temperature.train.nc" "Temperature"
  = Some (run_obsvalue, run_obslon, run_obslat, run_obsdepth, run_obstime).
Proof. vm_compute. reflexivity. Qed.

Example datagen_yields_all_months :
  length (run_datagen_yields false 0) = 12%nat ∧
  length (run_datagen_yields true 1) = 12%nat.
Proof. split; vm_compute; reflexivity. Qed.

Lemma datagen_sample_layout_witness :
  (∃ xin y,
     run_datagen_yields false 0 !! 0%nat = Some (xin, y) ∧
     (0 < ntime)%nat ∧
     ∃ mmean msum minv,
       month_binned month_index_1970 run_lon run_lat run_obsvalue run_obslon
         run_obslat run_obstime 1 = Some (mmean, msum, minv) ∧
       shaped (length run_lat * length run_lon) xin ∧
       channel 4 xin =
         replicate (length run_lat * length run_lon)
           (cos_at_zero (month_angle pi_approx 1)) ∧
       channel 5 xin =
         replicate (length run_lat * length run_lon)
           (sin_at_zero (month_angle pi_approx 1)) ∧
       y = map (take 2)
             (clean_tensor cos_at_zero sin_at_zero pi_approx run_lon run_lat
                1 msum minv) ∧
       (∀ r c, (r < length run_lat)%nat → (c < length run_lon)%nat →
          let k := (r * length run_lon + c)%nat in
          clean_tensor cos_at_zero sin_at_zero pi_approx run_lon run_lat
            1 msum minv !! k =
            Some [ msum !!! k; minv !!! k; run_lon !!! c; run_lat !!! r;
                   cos_at_zero (month_angle pi_approx 1);
                   sin_at_zero (month_angle pi_approx 1) ] ∧
          y !! k = Some [ msum !!! k; minv !!! k ]) ∧
       (false = false →
        xin = clean_tensor cos_at_zero sin_at_zero pi_approx run_lon run_lat
                1 msum minv) ∧
       (false = true →
        ∃ (selmask : list bool) (n0 : nat),
          xin = gap_tensor selmask
                  (noise_tensor run_randn run_lon run_lat (Fin (1 # 10))
                     (Fin (1 # 10)) (Fin (1 # 2)) n0 minv
                     (clean_tensor cos_at_zero sin_at_zero pi_approx run_lon
                        run_lat 1 msum minv)) ∧
          length selmask = (length run_lat * length run_lon)%nat ∧
          (min_gap_count <= count_true selmask)%nat ∧
          ∀ k, selmask !! k = Some true →
            ∃ m, minv !! k = Some m ∧ ngt m (Fin 0) = true ∧
                 channel 0 xin !! k = Some (Fin 0) ∧
                 channel 1 xin !! k = Some (Fin 0))) ∧
  (∃ xin y,
     run_datagen_yields true 1 !! 0%nat = Some (xin, y) ∧
     (0 < ntime)%nat ∧
     ∃ mmean msum minv,
       month_binned month_index_1970 run_lon run_lat run_obsvalue run_obslon
         run_obslat run_obstime 1 = Some (mmean, msum, minv) ∧
       shaped (length run_lat * length run_lon) xin ∧
       channel 4 xin =
         replicate (length run_lat * length run_lon)
           (cos_at_zero (month_angle pi_approx 1)) ∧
       channel 5 xin =
         replicate (length run_lat * length run_lon)
           (sin_at_zero (month_angle pi_approx 1)) ∧
       y = map (take 2)
             (clean_tensor cos_at_zero sin_at_zero pi_approx run_lon run_lat
                1 msum minv) ∧
       (∀ r c, (r < length run_lat)%nat → (c < length run_lon)%nat →
          let k := (r * length run_lon + c)%nat in
          clean_tensor cos_at_zero sin_at_zero pi_approx run_lon run_lat
            1 msum minv !! k =
            Some [ msum !!! k; minv !!! k; run_lon !!! c; run_lat !!! r;
                   cos_at_zero (month_angle pi_approx 1);
                   sin_at_zero (month_angle pi_approx 1) ] ∧
          y !! k = Some [ msum !!! k; minv !!! k ]) ∧
       (true = false →
        xin = clean_tensor cos_at_zero sin_at_zero pi_approx run_lon run_lat
                1 msum minv) ∧
       (true = true →
        ∃ (selmask : list bool) (n0 : nat),
          xin = gap_tensor selmask
                  (noise_tensor run_randn run_lon run_lat (Fin (1 # 10))
                     (Fin (1 # 10)) (Fin (1 # 2)) n0 minv
                     (clean_tensor cos_at_zero sin_at_zero pi_approx run_lon
                        run_lat 1 msum minv)) ∧
          length selmask = (length run_lat * length run_lon)%nat ∧
          (min_gap_count <= count_true selmask)%nat ∧
          ∀ k, selmask !! k = Some true →
            ∃ m, minv !! k = Some m ∧ ngt m (Fin 0) = true ∧
                 channel 0 xin !! k = Some (Fin 0) ∧
                 channel 1 xin !! k = Some (Fin 0))).
Proof.
  unfold run_datagen_yields. split.
  - destruct (datagen_yields _ _ _ _ _ _ _ _ _ _ _ _ _ _ _ _ _ _ _ _ !! 0%nat)
      as [[xin y]|] eqn:E; [|vm_compute in E; discriminate E].
    exists xin, y. split; [reflexivity|].
    exact (datagen_sample_layout _ _ _ _ _ _ _ _ _ _ _ _ _ _ _ _ _ _ _ _ _ _
             _ E).
  - destruct (datagen_yields _ _ _ _ _ _ _ _ _ _ _ _ _ _ _ _ _ _ _ _ !! 0%nat)
      as [[xin y]|] eqn:E; [|vm_compute in E; discriminate E].
    exists xin, y. split; [reflexivity|].
    exact (datagen_sample_layout _ _ _ _ _ _ _ _ _ _ _ _ _ _ _ _ _ _ _ _ _ _
             _ E).
Defined.

(** The claim C4 as stated fails for the training generator.  The
    observations are the ones [loadobs] returns for their file; in the
    first sample the generator yields
    on the 8 x 8 grid, channels 0 and 1 are not the binned sum and the
    binned inverse variance (they are 0 in the first cell, where both of
    these are 1), and channels 2 and 3 are not the longitudes and the
    latitudes of the cells. *)
Lemma datagen_train_sample_not_binned :
  loadobs run_fs run_lon run_lat "Temperature.train.nc" "Temperature"
  = Some (run_obsvalue, run_obslon, run_obslat, run_obsdepth, run_obstime) ∧
  ∃ xin y mmean msum minv,
    run_datagen_yields true 1 !! 0%nat = Some (xin, y) ∧
    month_binned month_index_1970 run_lon run_lat run_obsvalue run_obslon
      run_obslat run_obstime 1 = Some (mmean, msum, minv) ∧
    channel 0 xin ≠ msum ∧
    channel 1 xin ≠ minv ∧
    channel 2 xin ≠ lon_grid run_lon run_lat ∧
    channel 3 xin ≠ lat_grid run_lon run_lat.
Proof.
  split; [vm_compute; reflexivity|].
  eexists _, _, _, _, _.
  split; [vm_compute; reflexivity|].
  split; [vm_compute; reflexivity|].
  repeat split; vm_compute; intros E; discriminate E.
Qed.

Lemma datagen_corrupts_copy_only_witness :
  ∃ xin x s',
    datagen_body sqrt_floor cos_at_zero sin_at_zero pi_approx run_uniform
      run_randn month_index_1970 run_lon run_lat run_obsvalue run_obslon
      run_obslat run_obsdepth run_obstime true
      (Fin (1 # 10)) (Fin (1 # 10)) (Fin (1 # 2)) 1 1 state0
      = Some ((xin, x), s') ∧
    ∃ mmean msum minv s1 s2 selmask,
      month_binned month_index_1970 run_lon run_lat run_obsvalue run_obslon
        run_obslat run_obstime 1 = Some (mmean, msum, minv) ∧
      x ≠ xin ∧
      heap s1 !! x =
        Some (clean_tensor cos_at_zero sin_at_zero pi_approx run_lon run_lat
                1 msum minv) ∧
      heap s1 !! xin =
        Some (clean_tensor cos_at_zero sin_at_zero pi_approx run_lon run_lat
                1 msum minv) ∧
      noise_step run_randn run_lon run_lat (Fin (1 # 10)) (Fin (1 # 10))
        (Fin (1 # 2)) xin minv s1 = Some (tt, s2) ∧
      gap_step sqrt_floor run_uniform run_lon run_lat 1 x xin s2
        = Some (tt, s') ∧
      (∀ l, l ≠ xin → heap s2 !! l = heap s1 !! l) ∧
      (∀ l, l ≠ xin → heap s' !! l = heap s2 !! l) ∧
      heap s' !! x =
        Some (clean_tensor cos_at_zero sin_at_zero pi_approx run_lon run_lat
                1 msum minv) ∧
      yielded s' (xin, x) =
        Some (gap_tensor selmask
                (noise_tensor run_randn run_lon run_lat (Fin (1 # 10))
                   (Fin (1 # 10)) (Fin (1 # 2)) (np_pos s1) minv
                   (clean_tensor cos_at_zero sin_at_zero pi_approx run_lon
                      run_lat 1 msum minv)),
              map (take 2)
                (clean_tensor cos_at_zero sin_at_zero pi_approx run_lon
                   run_lat 1 msum minv)).
Proof.
  destruct (datagen_body sqrt_floor cos_at_zero sin_at_zero pi_approx
              run_uniform run_randn month_index_1970 run_lon run_lat
              run_obsvalue run_obslon run_obslat run_obsdepth run_obstime true
              (Fin (1 # 10)) (Fin (1 # 10)) (Fin (1 # 2)) 1 1 state0)
    as [[[xin x] s']|] eqn:E; [|vm_compute in E; discriminate E].
  exists xin, x, s'. split; [reflexivity|].
  exact (datagen_corrupts_copy_only _ _ _ _ _ _ _ _ _ _ _ _ _ _ _ _ _ _ _ _
           _ _ _ E).
Defined.

(** ** The gap step: the distance it computes *)

Lemma sqrt_floor_threshold : sqrt_threshold sqrt_floor.
Proof.
  intros [n d] Hq. unfold sqrt_floor.
  assert (0 <= n) as Hn by (unfold Qle in Hq; simpl in Hq; lia).
  assert (Qltb (n # d) 0 = false) as ->.
  { apply Qltb_ge. done. }
  unfold size_gap, nsq. simpl.
  destruct (Qltb (n # d) _) eqn:E.
  - apply Qltb_lt in E. apply Qltb_lt.
    unfold Qlt in *. simpl in *.
    assert (Z.sqrt (4 * n * Z.pos d) < 3 * Z.pos d).
    { apply Z.sqrt_lt_square; [nia | lia | nia]. }
    lia.
  - apply Qltb_ge in E. apply Qltb_ge.
    unfold Qle in *. simpl in *.
    assert (3 * Z.pos d <= Z.sqrt (4 * n * Z.pos d)).
    { apply Z.sqrt_le_square; [nia | lia | nia]. }
    lia.
Qed.

Lemma count_true_all_false (mask : list bool) :
  Forall (λ b, b = false) mask → count_true mask = 0%nat.
Proof.
  induction 1 as [|b mask -> _ IH]; [done|]. by rewrite count_true_cons, IH.
Qed.

Lemma nsq_sum_nonneg (a b : Q) :
  (0 <= (a + - b) * (a + - b))%Q.
Proof.
  generalize (a + - b)%Q. intros x.
  destruct (Qlt_le_dec x 0) as [H|H].
  - assert (x * x == (- x) * (- x))%Q as -> by ring.
    apply Qmult_le_0_compat; lra.
  - apply Qmult_le_0_compat; lra.
Qed.

Section far.
Context (np_sqrt : num → num) (Hsqrt : sqrt_threshold np_sqrt).
Context (lon lat : list num) (Hfar : far_apart lon lat = true).

Lemma far_apart_elem a b :
  a ∈ lon → b ∈ lat →
  ∃ qa qb, a = Fin qa ∧ b = Fin qb ∧
           ((3 # 2) * (3 # 2) <= (qa + - qb) * (qa + - qb))%Q.
Proof.
  intros Ha Hb. unfold far_apart in Hfar.
  rewrite forallb_forall in Hfar.
  specialize (Hfar a (proj1 (list_elem_of_In _ _) Ha)).
  rewrite forallb_forall in Hfar.
  specialize (Hfar b (proj1 (list_elem_of_In _ _) Hb)).
  destruct a as [qa| | |], b as [qb| | |]; try done.
  apply Qle_bool_iff in Hfar. eauto.
Qed.

(** With the arguments in the order of the call, no cell of such a grid is
    within [size_gap] of any candidate centre. *)
Lemma gap_mask_far (gl gt : Q) xin1 :
  count_true (gap_mask np_sqrt (Fin gl) (Fin gt)
                (lon_grid lon lat) (lat_grid lon lat) xin1) = 0%nat.
Proof.
  apply count_true_all_false, Forall_forall.
  intros b [k Hk]%list_elem_of_lookup.
  unfold gap_mask in Hk. rewrite !lookup_zip_with in Hk.
  destruct (lon_grid lon lat !! k) as [a|] eqn:Ea; [|done].
  destruct (lat_grid lon lat !! k) as [c|] eqn:Ec; [|done].
  destruct (xin1 !! k) as [m|]; [|done]. simpl in Hk. simplify_eq.
  assert (a ∈ lon) as Ha.
  { apply list_elem_of_lookup_2 in Ea. unfold lon_grid in Ea.
    apply list_elem_of_bind in Ea as (? & ? & ?). done. }
  assert (c ∈ lat) as Hc.
  { apply list_elem_of_lookup_2 in Ec. unfold lat_grid in Ec.
    apply list_elem_of_bind in Ec as (y & Hy & ?).
    by apply elem_of_replicate in Hy as [-> _]. }
  destruct (far_apart_elem a c Ha Hc) as (qa & qc & -> & -> & Hle).
  unfold dist. simpl.
  rewrite Hsqrt.
  2:{ pose proof (nsq_sum_nonneg qa qc). pose proof (nsq_sum_nonneg gt gl).
      lra. }
  assert (Qltb ((qa + - qc) * (qa + - qc) + (gt + - gl) * (gt + - gl))
               ((3 # 2) * (3 # 2)) = false) as E.
  { apply Qltb_ge. pose proof (nsq_sum_nonneg gt gl). lra. }
  unfold size_gap, nsq. simpl. by rewrite E.
Qed.
End far.

Section clean_channels.
Context (np_cos np_sin : num → num) (math_pi : num) (lon lat : list num).

Local Abbreviation clean := (clean_tensor np_cos np_sin math_pi lon lat).

Lemma clean_cell_of_index month msum minv k :
  (k < length lat * length lon)%nat →
  ∃ r c, (r < length lat)%nat ∧ (c < length lon)%nat ∧
         k = (r * length lon + c)%nat ∧
         clean month msum minv !! k =
           Some (clean_cell np_cos np_sin math_pi lon lat month msum minv r c).
Proof.
  intros Hk.
  assert (0 < length lon)%nat by nia.
  exists (k / length lon)%nat, (k mod length lon)%nat.
  assert (k / length lon < length lat)%nat as Hr.
  { apply Nat.Div0.div_lt_upper_bound. lia. }
  assert (k mod length lon < length lon)%nat as Hc.
  { apply Nat.mod_upper_bound. lia. }
  assert (k = (k / length lon * length lon + k mod length lon)%nat) as Ek.
  { rewrite Nat.mul_comm. apply Nat.div_mod_eq. }
  split; [done|]. split; [done|]. split; [done|].
  rewrite Ek at 1. by apply lookup_clean_tensor.
Qed.

Lemma channel_2_clean month msum minv :
  channel 2 (clean month msum minv) = lon_grid lon lat.
Proof.
  apply list_eq_same_length with (length lat * length lon)%nat.
  { apply length_lon_grid. }
  { by rewrite length_channel, length_clean_tensor. }
  intros k y z Hk Hy Hz.
  destruct (clean_cell_of_index month msum minv k Hk)
    as (r & c & Hr & Hc & -> & Hcell).
  rewrite (lookup_channel _ _ _ _ Hcell) in Hy.
  rewrite lookup_lon_grid in Hz by done.
  apply list_lookup_total_correct in Hz. unfold clean_cell in Hy.
  simpl in Hy. by simplify_eq.
Qed.

Lemma channel_3_clean month msum minv :
  channel 3 (clean month msum minv) = lat_grid lon lat.
Proof.
  apply list_eq_same_length with (length lat * length lon)%nat.
  { apply length_lat_grid. }
  { by rewrite length_channel, length_clean_tensor. }
  intros k y z Hk Hy Hz.
  destruct (clean_cell_of_index month msum minv k Hk)
    as (r & c & Hr & Hc & -> & Hcell).
  rewrite (lookup_channel _ _ _ _ Hcell) in Hy.
  rewrite lookup_lat_grid in Hz by done.
  apply list_lookup_total_correct in Hz. unfold clean_cell in Hy.
  simpl in Hy. by simplify_eq.
Qed.
End clean_channels.

(** On a grid whose longitudes and latitudes are far apart the training
    generator never yields: whatever the fuel, the loop of the gap step
    finds no candidate with [min_gap_count] cells. *)
Lemma datagen_body_far
    np_sqrt np_cos np_sin math_pi uniform randn month_index lon lat
    obsvalue obslon obslat obsdepth obstime jlon jlat jsv fuel month s :
  sqrt_threshold np_sqrt →
  (∀ n, isfinite (uniform n) = true) →
  far_apart lon lat = true →
  datagen_body np_sqrt np_cos np_sin math_pi uniform randn month_index
    lon lat obsvalue obslon obslat obsdepth obstime true jlon jlat jsv
    fuel month s = None.
Proof.
  intros Hsqrt Hu Hfar.
  destruct (datagen_body _ _ _ _ _ _ _ _ _ _ _ _ _ _ _ _ _ _ _ _ _)
    as [[[xin x] s']|] eqn:E; [|done].
  exfalso.
  apply datagen_body_train in E
    as (mmean & msum & minv & s1 & s2 & s3 & selmask & Hb & Lm & Hne & Hx
        & Hxin & Hpos & Hnoise & Hh2 & Hloop & Lsel & Hgap & Hh').
  apply gap_loop_inv in Hloop
    as (_ & _ & lon0 & lonN & lat0 & latN & n & tx & txin & Hlon0 & HlonN
        & Hlat0 & HlatN & Htx & Htxin & _ & _ & -> & Hcount).
  rewrite Hh2, lookup_insert_ne in Htx by done. rewrite Hx in Htx.
  simplify_eq.
  rewrite channel_2_clean, channel_3_clean in Hcount.
  assert (lon0 ∈ lon) as Hl0 by (by eapply list_elem_of_lookup_2).
  assert (lat0 ∈ lat) as Ht0 by (by eapply list_elem_of_lookup_2).
  assert (lonN ∈ lon) as HlN.
  { rewrite last_lookup in HlonN. by eapply list_elem_of_lookup_2. }
  assert (latN ∈ lat) as HtN.
  { rewrite last_lookup in HlatN. by eapply list_elem_of_lookup_2. }
  destruct (far_apart_elem lon lat Hfar _ _ Hl0 Ht0) as (a0 & b0 & -> & -> & _).
  destruct (far_apart_elem lon lat Hfar _ _ HlN HtN) as (aN & bN & -> & -> & _).
  pose proof (Hu n) as Hun. pose proof (Hu (S n)) as HuSn.
  destruct (uniform n) as [u| | |]; try done.
  destruct (uniform (S n)) as [v| | |]; try done.
  simpl in Hcount.
  rewrite (gap_mask_far np_sqrt Hsqrt lon lat Hfar) in Hcount.
  unfold min_gap_count in Hcount. lia.
Qed.

(** With the arguments in the order of the parameters of [dist], the cells
    within [size_gap] of a centre are those whose squared distance is
    below the square of [size_gap]. *)
Lemma euclid_mask_threshold np_sqrt (gl gt : Q) x2 x3 xin1 :
  sqrt_threshold np_sqrt →
  forallb isfinite x2 = true → forallb isfinite x3 = true →
  euclid_mask np_sqrt (Fin gl) (Fin gt) x2 x3 xin1
  = euclid_mask_sq (Fin gl) (Fin gt) x2 x3 xin1.
Proof.
  intros Hsqrt. unfold euclid_mask, euclid_mask_sq.
  revert x3 xin1.
  induction x2 as [|a x2 IH]; intros [|b x3] [|m xin1] H2 H3; simpl in *;
    try done.
  apply andb_true_iff in H2 as [Ha H2]. apply andb_true_iff in H3 as [Hb H3].
  destruct a as [qa| | |], b as [qb| | |]; try done.
  rewrite <- IH by done. f_equal.
  unfold euclid, dist. simpl. rewrite Hsqrt; [done|].
  pose proof (nsq_sum_nonneg qa gl). pose proof (nsq_sum_nonneg gt qb). lra.
Qed.

(** The generator for testing yields whenever the month can be binned. *)
Lemma datagen_body_test_run
    np_sqrt np_cos np_sin math_pi uniform randn month_index lon lat
    obsvalue obslon obslat obsdepth obstime jlon jlat jsv fuel month s
    mmean msum minv :
  month_binned month_index lon lat obsvalue obslon obslat obstime month
    = Some (mmean, msum, minv) →
  length obsdepth = length obstime →
  is_Some (datagen_body np_sqrt np_cos np_sin math_pi uniform randn
             month_index lon lat obsvalue obslon obslat obsdepth obstime
             false jlon jlat jsv fuel month s).
Proof.
  intros Hb Hd. unfold month_binned in Hb.
  apply bind_Some in Hb as (mv & Hv & Hb).
  apply bind_Some in Hb as (mlo & Hlo & Hb).
  apply bind_Some in Hb as (mla & Hla & Hb).
  unfold datagen_body.
  rewrite (bind_run _ _ _ _ _ (lift_run _ _ _ Hv)).
  rewrite (bind_run _ _ _ _ _ (lift_run _ _ _ Hlo)).
  rewrite (bind_run _ _ _ _ _ (lift_run _ _ _ Hla)).
  erewrite (bind_run (lift (getmask _ obsdepth))); cycle 1.
  { apply lift_run, getmask_run. unfold obsmonths. by rewrite !length_map. }
  erewrite (bind_run (lift (getmask _ obstime))); cycle 1.
  { apply lift_run, getmask_run. unfold obsmonths. by rewrite !length_map. }
  rewrite (bind_run _ _ _ _ _ (lift_run _ _ _ Hb)).
  destruct (binanalysis_lengths _ _ _ _ _ _ _ _ _ _ Hb) as (_ & Ls & Lm).
  rewrite (bind_run _ _ _ _ _ (build_x_run _ _ _ _ _ _ _ _ _ Ls Lm)).
  erewrite (bind_run (np_copy _)); cycle 1.
  { apply np_copy_run. simpl. apply lookup_insert_eq. }
  by eexists.
Qed.

(** C7, the code at a failing input: the 8 x 8 grid with longitudes from 0
    to 7/8 and latitudes from 10 to 10 + 7/8, and the observations that
    [loadobs] returns for a file with one observation next to every grid
    point, strictly inside the bounds.  All 64 cells have data and lie
    within [size_gap] of the centre of the grid, so the premise of the
    claim holds and the test generator yields; but the distance the loop
    computes has its arguments in another order than [dist] declares them,
    no cell is ever selected, and the training generator does not yield
    whatever the fuel. *)
Theorem gap_loop_distance_arguments
    (np_sqrt : num → num) (uniform randn : nat → num) (fuel : nat) (s : state) :
  sqrt_threshold np_sqrt →
  (∀ n, isfinite (uniform n) = true) →
  loadobs far_fs run_lon far_lat "Temperature.train.nc" "Temperature"
  = Some (run_obsvalue, run_obslon, far_obslat, run_obsdepth, run_obstime) ∧
  ∃ mmean msum minv,
    month_binned month_index_1970 run_lon far_lat run_obsvalue run_obslon
      far_obslat run_obstime 1 = Some (mmean, msum, minv) ∧
    count_true
      (euclid_mask np_sqrt (Fin (7 # 16)) (Fin (167 # 16))
         (lon_grid run_lon far_lat) (lat_grid run_lon far_lat) minv)
      = 64%nat ∧
    is_Some
      (datagen_body np_sqrt cos_at_zero sin_at_zero pi_approx uniform randn
         month_index_1970 run_lon far_lat run_obsvalue run_obslon far_obslat
         run_obsdepth run_obstime false
         (Fin (1 # 10)) (Fin (1 # 10)) (Fin (1 # 2)) fuel 1 s) ∧
    datagen_body np_sqrt cos_at_zero sin_at_zero pi_approx uniform randn
      month_index_1970 run_lon far_lat run_obsvalue run_obslon far_obslat
      run_obsdepth run_obstime true
      (Fin (1 # 10)) (Fin (1 # 10)) (Fin (1 # 2)) fuel 1 s = None.
Proof.
  intros Hsqrt Hu. split; [vm_compute; reflexivity|].
  destruct (month_binned month_index_1970 run_lon far_lat run_obsvalue
              run_obslon far_obslat run_obstime 1)
    as [[[mmean msum] minv]|] eqn:Hb; [|vm_compute in Hb; discriminate Hb].
  exists mmean, msum, minv. split; [done|]. split; [|split].
  - rewrite euclid_mask_threshold by (done || reflexivity).
    vm_compute in Hb. simplify_eq. vm_compute. reflexivity.
  - eapply datagen_body_test_run; [exact Hb|reflexivity].
  - apply datagen_body_far; (done || reflexivity).
Qed.

Lemma gap_loop_distance_arguments_witness :
  loadobs far_fs run_lon far_lat "Temperature.train.nc" "Temperature"
  = Some (run_obsvalue, run_obslon, far_obslat, run_obsdepth, run_obstime) ∧
  ∃ mmean msum minv,
    month_binned month_index_1970 run_lon far_lat run_obsvalue run_obslon
      far_obslat run_obstime 1 = Some (mmean, msum, minv) ∧
    count_true
      (euclid_mask sqrt_floor (Fin (7 # 16)) (Fin (167 # 16))
         (lon_grid run_lon far_lat) (lat_grid run_lon far_lat) minv)
      = 64%nat ∧
    is_Some
      (datagen_body sqrt_floor cos_at_zero sin_at_zero pi_approx run_uniform
         run_randn month_index_1970 run_lon far_lat run_obsvalue run_obslon
         far_obslat run_obsdepth run_obstime false
         (Fin (1 # 10)) (Fin (1 # 10)) (Fin (1 # 2)) 20 1 state0) ∧
    datagen_body sqrt_floor cos_at_zero sin_at_zero pi_approx run_uniform
      run_randn month_index_1970 run_lon far_lat run_obsvalue run_obslon
      far_obslat run_obsdepth run_obstime true
      (Fin (1 # 10)) (Fin (1 # 10)) (Fin (1 # 2)) 20 1 state0 = None.
Proof.
  apply (gap_loop_distance_arguments sqrt_floor run_uniform run_randn 20
           state0 sqrt_floor_threshold).
  intros n. reflexivity.
Defined.

(** On that grid the training generator runs out of any fuel.  On the
    grid whose latitudes start at 0, where every grid longitude is within
    [size_gap] of every grid latitude, the loop leaves at its first
    candidate: what the loop compares is the longitude of a cell with its
    latitude, not the cell with the candidate. *)
Example gap_loop_far_grid_runs_out :
  datagen_body sqrt_floor cos_at_zero sin_at_zero pi_approx run_uniform
    run_randn month_index_1970 run_lon far_lat run_obsvalue run_obslon
    far_obslat run_obsdepth run_obstime true
    (Fin (1 # 10)) (Fin (1 # 10)) (Fin (1 # 2)) 20 1 state0 = None ∧
  is_Some
    (datagen_body sqrt_floor cos_at_zero sin_at_zero pi_approx run_uniform
       run_randn month_index_1970 run_lon run_lat run_obsvalue run_obslon
       run_obslat run_obsdepth run_obstime true
       (Fin (1 # 10)) (Fin (1 # 10)) (Fin (1 # 2)) 1 1 state0).
Proof. split; [vm_compute; reflexivity|]. vm_compute. by eexists. Qed.

(** ** savesample *)

Lemma broadcast2_same {A B C} (f : A → B → C) (a : list A) (b : list B) :
  length a = length b → broadcast2 f a b = Some (zip_with f a b).
Proof. intros H. unfold broadcast2. by rewrite H, Nat.eqb_refl. Qed.

Lemma zip_with_orb_diag (mask : list bool) : zip_with orb mask mask = mask.
Proof. induction mask as [|[] mask IH]; simpl; by rewrite ?IH. Qed.

Lemma length_grow ncell t recs :
  (t < length (grow ncell t recs))%nat.
Proof. unfold grow. rewrite length_app, length_replicate. lia. Qed.

Lemma length_grow_ge ncell t recs :
  (length recs <= length (grow ncell t recs))%nat.
Proof. unfold grow. rewrite length_app. lia. Qed.

Lemma lookup_grow ncell t recs t' :
  (t' < length recs)%nat → grow ncell t recs !! t' = recs !! t'.
Proof. intros H. unfold grow. by rewrite lookup_app_l. Qed.

Lemma lookup_write_eq ncell t g recs :
  <[t := g]> (grow ncell t recs) !! t = Some g.
Proof. apply list_lookup_insert_eq, length_grow. Qed.

Lemma lookup_write_ne ncell t g recs t' :
  t ≠ t' → (t' < length recs)%nat →
  <[t := g]> (grow ncell t recs) !! t' = recs !! t'.
Proof.
  intros Hne Hlt. rewrite list_lookup_insert_ne by done. by apply lookup_grow.
Qed.

(** A variable that already has the record [t] does not grow. *)
Lemma grow_long ncell t recs :
  (t < length recs)%nat → grow ncell t recs = recs.
Proof.
  intros H. unfold grow.
  replace (S t - length recs)%nat with 0%nat by lia. apply app_nil_r.
Qed.

(** Writing the record [t] of a variable that ends before it: the records
    in between hold the fill value. *)
Lemma write_beyond ncell t g recs :
  (length recs <= t)%nat →
  <[t := g]> (grow ncell t recs)
  = recs ++ replicate (t - length recs) (replicate ncell fill_value) ++ [g].
Proof.
  intros H. unfold grow.
  replace (S t - length recs)%nat with (S (t - length recs)) by lia.
  rewrite replicate_S_end, app_assoc.
  rewrite insert_app_r_alt by (rewrite length_app, length_replicate; lia).
  rewrite length_app, length_replicate.
  replace (t - (length recs + (t - length recs)))%nat with 0%nat by lia.
  simpl. by rewrite <- app_assoc.
Qed.

(** One more row in a file that was created by this call. *)
Lemma fresh_records_step ncell offset (R : list (list num)) k g :
  R !! k = Some g →
  <[(k + offset)%nat := g]>
    (grow ncell (k + offset) (fresh_records ncell offset (take k R)))
  = fresh_records ncell offset (take (S k) R).
Proof.
  intros Hk. pose proof (lookup_lt_Some _ _ _ Hk) as Hlt.
  rewrite (take_S_r _ _ _ Hk).
  destruct k as [|k].
  - rewrite take_0. simpl fresh_records at 1.
    rewrite write_beyond by (simpl; lia). simpl.
    by rewrite Nat.sub_0_r.
  - destruct (take (S k) R) as [|r0 R'] eqn:E.
    { apply (f_equal length) in E. rewrite length_take in E.
      cbn [length] in E. lia. }
    pose proof (f_equal length E) as L. rewrite length_take in L.
    cbn [length] in L.
    cbn [fresh_records app].
    rewrite write_beyond.
    2:{ rewrite length_app, length_replicate. simpl. lia. }
    rewrite length_app, length_replicate. simpl length.
    replace (S k + offset - (offset + S (length R')))%nat with 0%nat by lia.
    simpl. by rewrite <- app_assoc.
Qed.

Lemma length_fresh_records ncell offset (R : list (list num)) k :
  (k < length R)%nat →
  length (fresh_records ncell offset (take (S k) R)) = S (k + offset).
Proof.
  intros Hlt. destruct (take (S k) R) as [|r0 R'] eqn:E.
  { apply (f_equal length) in E. rewrite length_take in E.
    cbn [length] in E. lia. }
  pose proof (f_equal length E) as L. rewrite length_take in L.
  cbn [length] in L.
  cbn [fresh_records]. rewrite length_app, length_replicate.
  cbn [length]. lia.
Qed.

Section savesample_rows.
Context (np_sqrt : num → num).
Context (batch_m_rec batch_sigma2_rec : list (list num)) (meandata : marray).
Context (offset : nat).
Hypothesis Hmd : length (ma_data meandata) = length (ma_mask meandata).
Hypothesis Hbm :
  Forall (λ row, length row = length (ma_mask meandata)) batch_m_rec.
Hypothesis Hbs :
  Forall (λ row, length row = length (ma_mask meandata)) batch_sigma2_rec.

Local Abbreviation batch_sigma_rec := (map (map np_sqrt) batch_sigma2_rec).
Local Abbreviation ncell_of f := (length (nc_lat f) * length (nc_lon f))%nat.

Lemma length_rec_mean row :
  length row = length (ma_mask meandata) →
  length (rec_mean meandata row) = length (ma_mask meandata).
Proof.
  intros L. unfold rec_mean. rewrite !length_zip_with. lia.
Qed.

Lemma length_rec_sigma row :
  length row = length (ma_mask meandata) →
  length (rec_sigma np_sqrt meandata row) = length (ma_mask meandata).
Proof.
  intros L. unfold rec_sigma. rewrite !length_zip_with. lia.
Qed.

(** A row of the shape of [meandata], written to a file whose records
    have that shape. *)
Lemma save_row_run root_grp n row srow :
  length (ma_mask meandata) = ncell_of root_grp →
  batch_m_rec !! n = Some row → batch_sigma2_rec !! n = Some srow →
  save_row batch_m_rec batch_sigma_rec meandata offset root_grp n =
    Some (write_sigma_rec (n + offset) (rec_sigma np_sqrt meandata srow)
            (write_m_rec (n + offset) (rec_mean meandata row) root_grp)).
Proof.
  intros Hdim Hrow Hsrow. unfold save_row.
  rewrite Hrow. simpl.
  pose proof (proj1 (Forall_forall _ _) Hbm _
                (list_elem_of_lookup_2 _ _ _ Hrow)) as Lrow.
  pose proof (proj1 (Forall_forall _ _) Hbs _
                (list_elem_of_lookup_2 _ _ _ Hsrow)) as Lsrow.
  simpl in Lrow, Lsrow.
  assert (masked_array row (ma_mask meandata)
          = Some (MArray row (ma_mask meandata))) as ->.
  { unfold masked_array. by rewrite Lrow, Nat.eqb_refl. }
  cbn [mbind option_bind].
  assert (ma_add (MArray row (ma_mask meandata)) meandata
          = Some (MArray (zip_with nadd row (ma_data meandata))
                         (ma_mask meandata))) as ->.
  { unfold ma_add. cbn [ma_data ma_mask].
    rewrite (broadcast2_same nadd row (ma_data meandata)) by lia.
    rewrite (broadcast2_same orb (ma_mask meandata) (ma_mask meandata)) by done.
    cbn [mbind option_bind].
    rewrite zip_with_orb_diag, length_zip_with.
    replace (length row `min` length (ma_data meandata))%nat
      with (length (ma_mask meandata)) by lia.
    by rewrite Nat.eqb_refl. }
  cbn [mbind option_bind].
  assert (filled (MArray (zip_with nadd row (ma_data meandata))
                         (ma_mask meandata))
          = rec_mean meandata row) as -> by done.
  assert (∀ f g, length g = length (ma_mask meandata) →
                 nc_lat f = nc_lat root_grp → nc_lon f = nc_lon root_grp →
                 record_data f g = Some g) as Hrec.
  { intros f g Lg E1 E2. unfold record_data.
    by rewrite E1, E2, Lg, Hdim, Nat.eqb_refl. }
  rewrite Hrec by (done || by apply length_rec_mean).
  cbn [mbind option_bind].
  rewrite list_lookup_fmap, Hsrow. cbn [fmap option_fmap option_map mbind option_bind].
  assert (masked_array (map np_sqrt srow) (ma_mask meandata)
          = Some (MArray (map np_sqrt srow) (ma_mask meandata))) as ->.
  { unfold masked_array. by rewrite length_map, Lsrow, Nat.eqb_refl. }
  cbn [mbind option_bind].
  assert (filled (MArray (map np_sqrt srow) (ma_mask meandata))
          = rec_sigma np_sqrt meandata srow) as ->.
  { unfold filled, rec_sigma. simpl. by rewrite zip_with_fmap_r. }
  rewrite Hrec by (done || by apply length_rec_sigma).
  done.
Qed.

(** The loop over the batch rows [ns]: the header variables are untouched,
    every row is at its time index, and the records that existed at other
    time indices are as they were. *)
Lemma save_rows_spec ns root_grp :
  length (ma_mask meandata) = ncell_of root_grp →
  NoDup ns →
  (∀ n, n ∈ ns → (n < length batch_m_rec)%nat ∧
                 (n < length batch_sigma2_rec)%nat) →
  ∃ f',
    save_rows batch_m_rec batch_sigma_rec meandata offset root_grp ns
      = Some f' ∧
    nc_lon f' = nc_lon root_grp ∧ nc_lat f' = nc_lat root_grp ∧
    nc_meandata f' = nc_meandata root_grp ∧
    (length (nc_batch_m_rec root_grp) <= length (nc_batch_m_rec f'))%nat ∧
    (length (nc_batch_sigma_rec root_grp)
       <= length (nc_batch_sigma_rec f'))%nat ∧
    (∀ n row srow, n ∈ ns →
       batch_m_rec !! n = Some row → batch_sigma2_rec !! n = Some srow →
       nc_batch_m_rec f' !! (n + offset)%nat = Some (rec_mean meandata row) ∧
       nc_batch_sigma_rec f' !! (n + offset)%nat
         = Some (rec_sigma np_sqrt meandata srow)) ∧
    (∀ t, (∀ n, n ∈ ns → t ≠ (n + offset)%nat) →
       ((t < length (nc_batch_m_rec root_grp))%nat →
        nc_batch_m_rec f' !! t = nc_batch_m_rec root_grp !! t) ∧
       ((t < length (nc_batch_sigma_rec root_grp))%nat →
        nc_batch_sigma_rec f' !! t = nc_batch_sigma_rec root_grp !! t)).
Proof.
  revert root_grp. induction ns as [|n ns IH]; intros f Hdim Hnd Hin.
  { exists f. simpl.
    split; [done|]. split; [done|]. split; [done|]. split; [done|].
    split; [done|]. split; [done|]. split; [|done].
    intros n' row srow Hn'. by apply not_elem_of_nil in Hn'. }
  apply NoDup_cons in Hnd as [Hn Hnd].
  destruct (Hin n) as [Hn1 Hn2]; [left|].
  destruct (lookup_lt_is_Some_2 _ _ Hn1) as [row Hrow].
  destruct (lookup_lt_is_Some_2 _ _ Hn2) as [srow Hsrow].
  simpl. rewrite (save_row_run f n row srow Hdim Hrow Hsrow). simpl.
  set (f1 := write_sigma_rec _ _ _).
  destruct (IH f1) as (f' & Hrun & Hlon & Hlat & Hmean & Lm & Ls & Hrows & Hold).
  { exact Hdim. }
  { exact Hnd. }
  { intros n' Hn'. apply Hin. by right. }
  assert (nc_batch_m_rec f1 !! (n + offset)%nat = Some (rec_mean meandata row))
    as Hm1.
  { unfold f1. simpl. rewrite lookup_grow.
    - apply lookup_write_eq.
    - rewrite length_insert. apply length_grow. }
  assert (nc_batch_sigma_rec f1 !! (n + offset)%nat
          = Some (rec_sigma np_sqrt meandata srow)) as Hs1.
  { unfold f1. simpl. apply lookup_write_eq. }
  assert (length (nc_batch_m_rec f) <= length (nc_batch_m_rec f1))%nat as Lm1.
  { unfold f1. simpl. etrans; [|apply length_grow_ge].
    rewrite length_insert. apply length_grow_ge. }
  assert (length (nc_batch_sigma_rec f) <= length (nc_batch_sigma_rec f1))%nat
    as Ls1.
  { unfold f1. simpl. rewrite length_insert.
    etrans; [|apply length_grow_ge]. apply length_grow_ge. }
  exists f'. split; [exact Hrun|].
  split; [by rewrite Hlon|]. split; [by rewrite Hlat|].
  split; [by rewrite Hmean|]. split; [lia|]. split; [lia|]. split.
  - intros n' row' srow' [->|Hn']%elem_of_cons Hrow' Hsrow'.
    + simplify_eq.
      destruct (Hold (n + offset)%nat) as [Hom Hos].
      { intros n'' Hn'' E. assert (n = n'') by lia. by subst. }
      rewrite Hom by (by eapply lookup_lt_Some).
      rewrite Hos by (by eapply lookup_lt_Some). done.
    + by apply Hrows.
  - intros t Ht.
    destruct (Hold t) as [Hom Hos].
    { intros n' Hn'. apply Ht. by right. }
    assert (t ≠ (n + offset)%nat) as Hne by (apply Ht; by left).
    split; intros Hlt.
    + rewrite Hom by lia. unfold f1. simpl.
      rewrite lookup_grow by (rewrite length_insert;
                              pose proof (length_grow_ge (length (rec_mean meandata row)) (n + offset) (nc_batch_m_rec f)); lia).
      by apply lookup_write_ne.
    + rewrite Hos by lia. unfold f1. simpl.
      rewrite list_lookup_insert_ne by done.
      rewrite !lookup_grow; try done.
      pose proof (length_grow_ge (length (rec_mean meandata row)) (n + offset) (nc_batch_sigma_rec f)). lia.
Qed.

(** The loop in a file created by this call: after the rows [0 .. k-1]
    the two record variables hold nothing but these rows, behind the
    records below [offset], which were never written. *)
Lemma save_rows_fresh m k root_grp :
  length (ma_mask meandata) = ncell_of root_grp →
  (k + m <= length batch_m_rec)%nat →
  (k + m <= length batch_sigma2_rec)%nat →
  nc_batch_m_rec root_grp
    = fresh_records (ncell_of root_grp) offset
        (take k (map (rec_mean meandata) batch_m_rec)) →
  nc_batch_sigma_rec root_grp
    = fresh_records (ncell_of root_grp) offset
        (take k (map (rec_sigma np_sqrt meandata) batch_sigma2_rec)) →
  save_rows batch_m_rec batch_sigma_rec meandata offset root_grp (seq k m)
  = Some (NcFile (nc_lon root_grp) (nc_lat root_grp) (nc_meandata root_grp)
            (fresh_records (ncell_of root_grp) offset
               (take (k + m) (map (rec_mean meandata) batch_m_rec)))
            (fresh_records (ncell_of root_grp) offset
               (take (k + m)
                  (map (rec_sigma np_sqrt meandata) batch_sigma2_rec)))).
Proof.
  revert k root_grp. induction m as [|m IH]; intros k f Hdim Hkm Hks Hm Hs.
  { simpl. rewrite Nat.add_0_r, <- Hm, <- Hs. by destruct f. }
  destruct (lookup_lt_is_Some_2 batch_m_rec k ltac:(lia)) as [row Hrow].
  destruct (lookup_lt_is_Some_2 batch_sigma2_rec k ltac:(lia)) as [srow Hsrow].
  pose proof (proj1 (Forall_forall _ _) Hbm _
                (list_elem_of_lookup_2 _ _ _ Hrow)) as Lrow.
  pose proof (proj1 (Forall_forall _ _) Hbs _
                (list_elem_of_lookup_2 _ _ _ Hsrow)) as Lsrow.
  simpl in Lrow, Lsrow.
  simpl. rewrite (save_row_run f k row srow Hdim Hrow Hsrow). simpl.
  set (f1 := write_sigma_rec _ _ _).
  assert (map (rec_mean meandata) batch_m_rec !! k
          = Some (rec_mean meandata row)) as Hmk
    by (by rewrite list_lookup_fmap, Hrow).
  assert (map (rec_sigma np_sqrt meandata) batch_sigma2_rec !! k
          = Some (rec_sigma np_sqrt meandata srow)) as Hsk
    by (by rewrite list_lookup_fmap, Hsrow).
  assert (nc_batch_m_rec f1
          = fresh_records (ncell_of f) offset
              (take (S k) (map (rec_mean meandata) batch_m_rec))) as Hm1.
  { unfold f1. simpl.
    rewrite (length_rec_mean row), (length_rec_sigma srow), Hdim by done.
    rewrite Hm, (fresh_records_step _ _ _ _ _ Hmk).
    apply grow_long. rewrite length_fresh_records; [lia|].
    rewrite length_map. lia. }
  assert (nc_batch_sigma_rec f1
          = fresh_records (ncell_of f) offset
              (take (S k)
                 (map (rec_sigma np_sqrt meandata) batch_sigma2_rec))) as Hs1.
  { unfold f1. simpl.
    rewrite (length_rec_mean row), (length_rec_sigma srow), Hdim by done.
    rewrite Hs, (grow_long _ _ (grow _ _ _)) by apply length_grow.
    by apply fresh_records_step. }
  rewrite (IH (S k) f1); [|exact Hdim|lia|lia|exact Hm1|exact Hs1].
  unfold f1. simpl. by replace (k + S m)%nat with (S (k + m)) by lia.
Qed.
End savesample_rows.

(** C8: with a batch whose rows have the shape of [meandata], written to
    a file whose records have that shape, the call succeeds and stores at
    [fname] a file in which, for every batch row [n], the record of the
    mean at time index [n + offset] is the row plus [meandata] and the
    record of the standard deviation is the element-wise square root of the
    row of [batch_sigma2_rec], both with the fill value where [meandata] is
    masked.  When [ii = 0] the file is a new one: its [lon], [lat] and
    [meandata] are the arguments and its two record variables hold the rows
    of this batch and nothing else (the records below [offset], never
    written, hold the fill value), whatever was stored at [fname] before.
    When [ii <> 0] it is the file that was there, with [lon], [lat],
    [meandata] and the records at other time indices as they were. *)
Theorem savesample_writes_records
    (np_sqrt : num → num) (fs : gmap string ncfile) (fname : string)
    (batch_m_rec batch_sigma2_rec : list (list num)) (meandata : marray)
    (lon lat : list num) (ii : Z) (offset : nat) :
  length (ma_data meandata) = length (ma_mask meandata) →
  (ii = 0 → length (ma_mask meandata) = (length lat * length lon)%nat) →
  (ii ≠ 0 →
     ∃ f, fs !! fname = Some f ∧
          length (ma_mask meandata)
            = (length (nc_lat f) * length (nc_lon f))%nat) →
  length batch_sigma2_rec = length batch_m_rec →
  Forall (λ row, length row = length (ma_mask meandata)) batch_m_rec →
  Forall (λ row, length row = length (ma_mask meandata)) batch_sigma2_rec →
  ∃ f',
    savesample np_sqrt fs fname batch_m_rec batch_sigma2_rec meandata
      lon lat ii offset = Some (<[fname := f']> fs) ∧
    (ii = 0 →
       f' = NcFile lon lat (filled meandata)
              (fresh_records (length lat * length lon) offset
                 (map (rec_mean meandata) batch_m_rec))
              (fresh_records (length lat * length lon) offset
                 (map (rec_sigma np_sqrt meandata) batch_sigma2_rec))) ∧
    (ii ≠ 0 →
       ∃ f, fs !! fname = Some f ∧
         nc_lon f' = nc_lon f ∧ nc_lat f' = nc_lat f ∧
         nc_meandata f' = nc_meandata f ∧
         ∀ t, ¬ (offset <= t < offset + length batch_m_rec)%nat →
           ((t < length (nc_batch_m_rec f))%nat →
            nc_batch_m_rec f' !! t = nc_batch_m_rec f !! t) ∧
           ((t < length (nc_batch_sigma_rec f))%nat →
            nc_batch_sigma_rec f' !! t = nc_batch_sigma_rec f !! t)) ∧
    (∀ n row srow,
       batch_m_rec !! n = Some row → batch_sigma2_rec !! n = Some srow →
       nc_batch_m_rec f' !! (n + offset)%nat = Some (rec_mean meandata row) ∧
       nc_batch_sigma_rec f' !! (n + offset)%nat
         = Some (rec_sigma np_sqrt meandata srow)).
Proof.
  intros Hmd Hnew Happ Hlen Hbm Hbs.
  unfold savesample.
  set (root := if ii =? 0 then _ else _).
  assert (∃ f0, root = Some f0 ∧
            length (ma_mask meandata)
              = (length (nc_lat f0) * length (nc_lon f0))%nat ∧
            (ii = 0 → f0 = NcFile lon lat (filled meandata) [] []) ∧
            (ii ≠ 0 → fs !! fname = Some f0))
    as (f0 & -> & Hdim & Hf0 & Hf0').
  { unfold root. destruct (Z.eqb_spec ii 0) as [E|E].
    - exists (NcFile lon lat (filled meandata) [] []). split.
      { by rewrite Hmd, (Hnew E), Nat.eqb_refl. }
      split; [exact (Hnew E)|]. split; [done|]. intros E'. done.
    - destruct (Happ E) as (f & Hf & Hd). exists f. rewrite Hf.
      split; [done|]. split; [done|]. split; [|done]. intros E'. done. }
  simpl.
  destruct (save_rows_spec np_sqrt batch_m_rec batch_sigma2_rec meandata
              offset Hmd Hbm Hbs (seq 0 (length batch_m_rec)) f0 Hdim)
    as (f' & Hrun & Hlon & Hlat & Hmean & _ & _ & Hrows & Hold).
  { apply NoDup_seq. }
  { intros n Hn%elem_of_seq. lia. }
  rewrite Hrun. simpl. exists f'. split; [done|]. split; [|split].
  - intros E. specialize (Hf0 E). subst f0.
    rewrite (save_rows_fresh np_sqrt batch_m_rec batch_sigma2_rec meandata
               offset Hmd Hbm Hbs (length batch_m_rec) 0) in Hrun;
      [|done|simpl; lia|simpl; lia|done|done].
    simpl in Hrun. injection Hrun as <-.
    by rewrite !take_ge by (rewrite length_map; lia).
  - intros E. exists f0. split; [by apply Hf0'|].
    split; [done|]. split; [done|]. split; [done|].
    intros t Ht. apply Hold. intros n Hn%elem_of_seq. lia.
  - intros n row srow Hrow Hsrow. apply Hrows; [|done..].
    apply elem_of_seq. apply lookup_lt_Some in Hrow. lia.
Qed.

Example savesample_example :
  (λ fs', fs' !! "out.nc") <$>
    savesample sqrt_floor ∅ "out.nc" ex_batch_m_rec ex_batch_sigma2_rec
      ex_meandata ex_lon ex_lat 0 1
  = Some (Some (NcFile ex_lon ex_lat
      [Fin (-9999); Fin 15; Fin 15; Fin (-9999); Fin 15; Fin 15]
      [ replicate 6 (Fin (-9999));
        [Fin (-9999); Fin 17; Fin 18; Fin (-9999); Fin 20; Fin 21];
        [Fin (-9999); Fin 13; Fin 12; Fin (-9999); Fin 10; Fin 9] ]
      [ replicate 6 (Fin (-9999));
        [Fin (-9999); Fin (4 # 2); Fin (4 # 2); Fin (-9999); Fin (4 # 2); Fin (4 # 2)];
        [Fin (-9999); Fin (12 # 8); Fin (12 # 8); Fin (-9999); Fin (12 # 8); Fin (12 # 8)] ])).
Proof. vm_compute. reflexivity. Qed.

(** The file of [savesample_example], and a file system that holds it. *)
Example savesample_example_file :
  ∃ f, savesample sqrt_floor ∅ "out.nc" ex_batch_m_rec ex_batch_sigma2_rec
         ex_meandata ex_lon ex_lat 0 1 = Some ex_out_fs ∧
       ex_out_fs !! "out.nc" = Some f.
Proof. eexists. split; vm_compute; reflexivity. Qed.

Lemma savesample_writes_records_witness :
  (∃ f',
     savesample sqrt_floor ex_out_fs "out.nc" ex_batch_m_rec
       ex_batch_sigma2_rec ex_meandata ex_lon ex_lat 0 1
       = Some (<["out.nc" := f']> ex_out_fs) ∧
     (0 = 0 →
        f' = NcFile ex_lon ex_lat (filled ex_meandata)
               (fresh_records (length ex_lat * length ex_lon) 1
                  (map (rec_mean ex_meandata) ex_batch_m_rec))
               (fresh_records (length ex_lat * length ex_lon) 1
                  (map (rec_sigma sqrt_floor ex_meandata)
                     ex_batch_sigma2_rec))) ∧
     (0 ≠ 0 →
        ∃ f, ex_out_fs !! "out.nc" = Some f ∧
          nc_lon f' = nc_lon f ∧ nc_lat f' = nc_lat f ∧
          nc_meandata f' = nc_meandata f ∧
          ∀ t, ¬ (1 <= t < 1 + length ex_batch_m_rec)%nat →
            ((t < length (nc_batch_m_rec f))%nat →
             nc_batch_m_rec f' !! t = nc_batch_m_rec f !! t) ∧
            ((t < length (nc_batch_sigma_rec f))%nat →
             nc_batch_sigma_rec f' !! t = nc_batch_sigma_rec f !! t)) ∧
     (∀ n row srow,
        ex_batch_m_rec !! n = Some row → ex_batch_sigma2_rec !! n = Some srow →
        nc_batch_m_rec f' !! (n + 1)%nat = Some (rec_mean ex_meandata row) ∧
        nc_batch_sigma_rec f' !! (n + 1)%nat
          = Some (rec_sigma sqrt_floor ex_meandata srow))) ∧
  (∃ f',
     savesample sqrt_floor ex_out_fs "out.nc" [replicate 6 (Fin 0)]
       [replicate 6 (Fin 1)] ex_meandata [] [] 1 3
       = Some (<["out.nc" := f']> ex_out_fs) ∧
     (1 = 0 →
        f' = NcFile [] [] (filled ex_meandata)
               (fresh_records (length (@nil num) * length (@nil num)) 3
                  (map (rec_mean ex_meandata) [replicate 6 (Fin 0)]))
               (fresh_records (length (@nil num) * length (@nil num)) 3
                  (map (rec_sigma sqrt_floor ex_meandata)
                     [replicate 6 (Fin 1)]))) ∧
     (1 ≠ 0 →
        ∃ f, ex_out_fs !! "out.nc" = Some f ∧
          nc_lon f' = nc_lon f ∧ nc_lat f' = nc_lat f ∧
          nc_meandata f' = nc_meandata f ∧
          ∀ t, ¬ (3 <= t < 3 + length [replicate 6 (Fin 0)])%nat →
            ((t < length (nc_batch_m_rec f))%nat →
             nc_batch_m_rec f' !! t = nc_batch_m_rec f !! t) ∧
            ((t < length (nc_batch_sigma_rec f))%nat →
             nc_batch_sigma_rec f' !! t = nc_batch_sigma_rec f !! t)) ∧
     (∀ n row srow,
        [replicate 6 (Fin 0)] !! n = Some row →
        [replicate 6 (Fin 1)] !! n = Some srow →
        nc_batch_m_rec f' !! (n + 3)%nat = Some (rec_mean ex_meandata row) ∧
        nc_batch_sigma_rec f' !! (n + 3)%nat
          = Some (rec_sigma sqrt_floor ex_meandata srow))).
Proof.
  split.
  - apply (savesample_writes_records sqrt_floor ex_out_fs "out.nc"
             ex_batch_m_rec ex_batch_sigma2_rec ex_meandata ex_lon ex_lat 0 1).
    + reflexivity.
    + intros _. reflexivity.
    + intros H. exfalso. apply H. reflexivity.
    + reflexivity.
    + vm_compute. repeat constructor.
    + vm_compute. repeat constructor.
  - apply (savesample_writes_records sqrt_floor ex_out_fs "out.nc"
             [replicate 6 (Fin 0)] [replicate 6 (Fin 1)] ex_meandata [] []
             1 3).
    + reflexivity.
    + intros H. discriminate H.
    + intros _. eexists. split; [vm_compute; reflexivity|reflexivity].
    + reflexivity.
    + vm_compute. repeat constructor.
    + vm_compute. repeat constructor.
Defined.

(** A second batch appended to the file of [savesample_example]. *)
Example savesample_append_example :
  (savesample sqrt_floor ∅ "out.nc" ex_batch_m_rec ex_batch_sigma2_rec
     ex_meandata ex_lon ex_lat 0 1
   ≫= λ fs, savesample sqrt_floor fs "out.nc" [replicate 6 (Fin 0)]
              [replicate 6 (Fin 1)] ex_meandata [] [] 1 3)
  ≫= (λ fs', fs' !! "out.nc")
  = Some (NcFile ex_lon ex_lat
      [Fin (-9999); Fin 15; Fin 15; Fin (-9999); Fin 15; Fin 15]
      [ replicate 6 (Fin (-9999));
        [Fin (-9999); Fin 17; Fin 18; Fin (-9999); Fin 20; Fin 21];
        [Fin (-9999); Fin 13; Fin 12; Fin (-9999); Fin 10; Fin 9];
        [Fin (-9999); Fin 15; Fin 15; Fin (-9999); Fin 15; Fin 15] ]
      [ replicate 6 (Fin (-9999));
        [Fin (-9999); Fin (4 # 2); Fin (4 # 2); Fin (-9999); Fin (4 # 2); Fin (4 # 2)];
        [Fin (-9999); Fin (12 # 8); Fin (12 # 8); Fin (-9999); Fin (12 # 8); Fin (12 # 8)];
        [Fin (-9999); Fin (2 # 2); Fin (2 # 2); Fin (-9999); Fin (2 # 2); Fin (2 # 2)] ]).
Proof. vm_compute. reflexivity. Qed.

(** Creating the file again keeps none of its records: the file of
    [savesample_append_example] is replaced by one with the single record
    of the new batch. *)
Example savesample_create_discards :
  ((savesample sqrt_floor ∅ "out.nc" ex_batch_m_rec ex_batch_sigma2_rec
      ex_meandata ex_lon ex_lat 0 1
    ≫= λ fs, savesample sqrt_floor fs "out.nc" [replicate 6 (Fin 0)]
               [replicate 6 (Fin 1)] ex_meandata ex_lon ex_lat 0 0)
   ≫= (λ fs', fs' !! "out.nc"))
  = Some (NcFile ex_lon ex_lat
      [Fin (-9999); Fin 15; Fin 15; Fin (-9999); Fin 15; Fin 15]
      [ [Fin (-9999); Fin 15; Fin 15; Fin (-9999); Fin 15; Fin 15] ]
      [ [Fin (-9999); Fin (2 # 2); Fin (2 # 2); Fin (-9999); Fin (2 # 2); Fin (2 # 2)] ]).
Proof. vm_compute. reflexivity. Qed.

Example savesample_append_missing_file :
  savesample sqrt_floor ∅ "out.nc" ex_batch_m_rec ex_batch_sigma2_rec
    ex_meandata ex_lon ex_lat 1 0 = None.
Proof. vm_compute. reflexivity. Qed.

(** Rows of four cells are refused by a file whose records have six. *)
Example savesample_append_other_shape :
  savesample sqrt_floor ex_out_fs "out.nc" [replicate 4 (Fin 0)]
    [replicate 4 (Fin 1)] (MArray (replicate 4 (Fin 15)) (replicate 4 false))
    [] [] 1 3 = None.
Proof. vm_compute. reflexivity. Qed.

(** A [meandata] of one cell is broadcast to the rows. *)
Example savesample_one_cell_meandata :
  (λ fs', nc_batch_m_rec <$> fs' !! "out.nc") <$>
    savesample sqrt_floor ex_out_fs "out.nc" [ex_batch_m_rec !!! 0%nat]
      [replicate 6 (Fin 4)] (MArray [Fin 15] [false]) [] [] 1 0
  = Some (Some
      [ [Fin 16; Fin 17; Fin 18; Fin 19; Fin 20; Fin 21];
        [Fin (-9999); Fin 17; Fin 18; Fin (-9999); Fin 20; Fin 21];
        [Fin (-9999); Fin 13; Fin 12; Fin (-9999); Fin 10; Fin 9] ]).
Proof. vm_compute. reflexivity. Qed.

(** ** monthlyCVRMS *)

Lemma select_pairs_finite (mclim mobsvalue : list num) :
  length mclim = length mobsvalue →
  zip_with nsub (select (map isfinite mclim) mclim)
                (select (map isfinite mclim) mobsvalue)
  = map (λ p : num * num, nsub p.1 p.2)
      (filter (λ p : num * num, isfinite p.1 = true) (zip mclim mobsvalue)).
Proof.
  revert mobsvalue. induction mclim as [|a mclim IH]; intros [|b obs] H;
    simplify_eq/=; try done.
  rewrite filter_cons. simpl. destruct (isfinite a) eqn:E; simpl.
  - by rewrite IH.
  - by rewrite IH.
Qed.

Section monthlyCVRMS_spec.
Context (np_sqrt : num → num) (month_index : Z → Z).
Context (interpn :
  list num * list num → list num → list (num * num) → option (list num)).
Context (lon lat : list num) (value : list (list num)).
Context (obsvalue obslon obslat obsdepth : list num) (obstime : list Z).

Local Abbreviation sel := (month_sel month_index obstime).
Local Abbreviation points :=
  (month_points month_index obstime obslat obslon).

Lemma month_score_run month field mclim :
  same_length5 obsvalue obslon obslat obsdepth obstime = true →
  value !! month = Some field →
  interpn (lat, lon) field (points month) = Some mclim →
  length mclim = length (points month) →
  month_score np_sqrt month_index interpn lon lat value obsvalue obslon
    obslat obsdepth obstime month
  = Some (rms_finite np_sqrt mclim (select (sel month) obsvalue)).
Proof.
  intros (H1 & H2 & H3 & H4)%same_length5_spec Hf Hi Hl.
  unfold month_score. fold (sel month).
  assert (length (sel month) = length obstime) as Ls.
  { unfold month_sel. by rewrite !length_map. }
  rewrite !getmask_run by lia. simpl. rewrite Hf. simpl.
  unfold month_rms. unfold month_points in Hi. rewrite Hi. simpl.
  assert (length mclim = length (select (sel month) obsvalue)) as Lc.
  { rewrite Hl. unfold month_points.
    rewrite length_zip, !length_select by lia. lia. }
  rewrite !getmask_run by (rewrite length_map; lia). simpl.
  unfold rms_finite. rewrite select_pairs_finite by done.
  by rewrite map_map.
Qed.

(** C9: the observations fall into the twelve calendar months by the
    month of their time; for every month the reconstruction of the month
    is interpolated at the positions of its observations, and the monthly
    value is the root of the mean of the squared differences between the
    interpolated and the observed value over the observations whose
    interpolated value is finite; the total is the root of the mean of the
    twelve squared monthly values. *)
Theorem monthlyCVRMS_statistics :
  same_length5 obsvalue obslon obslat obsdepth obstime = true →
  (12 <= length value)%nat →
  (∀ month field, (month < 12)%nat → value !! month = Some field →
     ∃ mclim, interpn (lat, lon) field (points month) = Some mclim ∧
              length mclim = length (points month)) →
  ∃ RMS totRMS,
    monthlyCVRMS np_sqrt month_index interpn lon lat value obsvalue obslon
      obslat obsdepth obstime = Some (RMS, totRMS) ∧
    length RMS = 12%nat ∧
    totRMS = np_sqrt (np_mean (map nsq RMS)) ∧
    (∀ k t, obstime !! k = Some t →
       ∃ month, (month < 12)%nat ∧ sel month !! k = Some true ∧
         ∀ month', sel month' !! k = Some true → month' = month) ∧
    (∀ month, (month < 12)%nat →
       ∃ field mclim,
         value !! month = Some field ∧
         interpn (lat, lon) field (points month) = Some mclim ∧
         RMS !! month =
           Some (rms_finite np_sqrt mclim (select (sel month) obsvalue))).
Proof.
  intros Hlen Hval Hinterp.
  assert (∀ month, (month < 12)%nat →
            ∃ field mclim,
              value !! month = Some field ∧
              interpn (lat, lon) field (points month) = Some mclim ∧
              month_score np_sqrt month_index interpn lon lat value obsvalue
                obslon obslat obsdepth obstime month
              = Some (rms_finite np_sqrt mclim (select (sel month) obsvalue)))
    as Hscore.
  { intros month Hm.
    destruct (lookup_lt_is_Some_2 value month ltac:(lia)) as [field Hf].
    destruct (Hinterp month field Hm Hf) as (mclim & Hi & Hl).
    exists field, mclim. split; [done|]. split; [done|].
    by apply (month_score_run month field mclim). }
  unfold monthlyCVRMS.
  destruct (mapM _ (seq 0 12)) as [RMS|] eqn:E.
  2:{ exfalso. apply eq_None_not_Some in E. apply E.
      apply mapM_is_Some, Forall_forall. intros month Hm%elem_of_seq.
      destruct (Hscore month ltac:(lia)) as (? & ? & _ & _ & Hs).
      unfold compose. rewrite Hs. by eexists. }
  apply mapM_Some in E.
  simpl. exists RMS, (np_sqrt (np_mean (map nsq RMS))).
  split; [done|]. split.
  { apply Forall2_length in E. by rewrite length_seq in E. }
  split; [done|]. split.
  - intros k t Hk.
    assert (0 <= month_index t mod 12 < 12) as Hr by (apply Z.mod_pos_bound; lia).
    exists (Z.to_nat (month_index t mod 12)).
    split; [lia|]. split.
    + unfold month_sel. rewrite !list_lookup_fmap, Hk. simpl.
      f_equal. apply Z.eqb_eq. lia.
    + intros month'. unfold month_sel. rewrite !list_lookup_fmap, Hk. simpl.
      intros [= Heq%Z.eqb_eq]. lia.
  - intros month Hm.
    destruct (Hscore month Hm) as (field & mclim & Hf & Hi & Hs).
    exists field, mclim. split; [done|]. split; [done|].
    destruct (Forall2_lookup_l _ _ _ month month E) as (rms & Hrms & Hrms').
    { by apply lookup_seq_lt. }
    rewrite Hrms. rewrite Hs in Hrms'. done.
Qed.
End monthlyCVRMS_spec.

Example monthlyCVRMS_example :
  (λ r : list num * num, (take 3 r.1, r.2)) <$>
    monthlyCVRMS sqrt_floor month_index_1970 interp_bilinear ex_lon ex_lat
      ex_value ex_cv_obsvalue ex_cv_obslon ex_cv_obslat ex_cv_obsdepth
      ex_cv_obstime
  = Some ([Fin (445051015374261 # 1125899906842624); Fin (65536 # 131072);
           NaN], NaN).
Proof. vm_compute. reflexivity. Qed.

Lemma monthlyCVRMS_statistics_witness :
  ∃ RMS totRMS,
    monthlyCVRMS sqrt_floor month_index_1970 interp_bilinear ex_lon ex_lat
      ex_value ex_cv_obsvalue ex_cv_obslon ex_cv_obslat ex_cv_obsdepth
      ex_cv_obstime = Some (RMS, totRMS) ∧
    length RMS = 12%nat ∧
    totRMS = sqrt_floor (np_mean (map nsq RMS)) ∧
    (∀ k t, ex_cv_obstime !! k = Some t →
       ∃ month, (month < 12)%nat ∧
         month_sel month_index_1970 ex_cv_obstime month !! k = Some true ∧
         ∀ month', month_sel month_index_1970 ex_cv_obstime month' !! k
                   = Some true → month' = month) ∧
    (∀ month, (month < 12)%nat →
       ∃ field mclim,
         ex_value !! month = Some field ∧
         interp_bilinear (ex_lat, ex_lon) field
           (month_points month_index_1970 ex_cv_obstime ex_cv_obslat
              ex_cv_obslon month) = Some mclim ∧
         RMS !! month =
           Some (rms_finite sqrt_floor mclim
                   (select (month_sel month_index_1970 ex_cv_obstime month)
                      ex_cv_obsvalue))).
Proof.
  apply (monthlyCVRMS_statistics sqrt_floor month_index_1970 interp_bilinear
           ex_lon ex_lat ex_value ex_cv_obsvalue ex_cv_obslon ex_cv_obslat
           ex_cv_obsdepth ex_cv_obstime).
  - reflexivity.
  - simpl. lia.
  - intros month field Hm Hf.
    repeat (destruct month as [|month];
      [ vm_compute in Hf; injection Hf as <-; eexists;
        split; [vm_compute; reflexivity | reflexivity] | ]).
    exfalso. lia.
Defined.

(** * Further properties *)

(** ** binaverage *)


Section bincount_count.
Context {X : Type} (f : X → Z).

Local Abbreviation cstep :=
  (λ (out : list nat) (k : Z), alter S (Z.to_nat k) out).

Lemma count_accumulate_length (lin : list Z) init :
  length (fold_left cstep lin init) = length init.
Proof.
  revert init; induction lin as [|k lin IH]; intros init; simpl; [done|].
  by rewrite IH, length_alter.
Qed.

Lemma count_accumulate_lookup (F : list X) init (k : nat) :
  Forall (λ o, 0 <= f o) F →
  fold_left cstep (map f F) init !! k =
    (λ c, (c + length (filter (λ o, f o = Z.of_nat k) F))%nat) <$> init !! k.
Proof.
  intros HF; revert init; induction HF as [|o F Ho HF IH]; intros init.
  { simpl. destruct (init !! k); simpl; [f_equal; lia|done]. }
  simpl. rewrite IH. rewrite filter_cons.
  destruct (decide (f o = Z.of_nat k)) as [E|E].
  - rewrite E, Nat2Z.id, list_lookup_alter.
    rewrite decide_True by done.
    destruct (init !! k); simpl; [f_equal; lia|done].
  - rewrite list_lookup_alter_ne by lia. done.
Qed.

Lemma bincount_count_map (F : list X) (n : nat) :
  Forall (λ o, 0 <= f o < Z.of_nat n) F →
  ∃ out, bincount_count (map f F) n = Some out ∧ length out = n ∧
    ∀ k, (k < n)%nat →
      out !! k = Some (length (filter (λ o, f o = Z.of_nat k) F)).
Proof.
  intros HF. unfold bincount_count.
  assert (forallb (Z.leb 0) (map f F) = true) as ->.
  { apply forallb_forall. intros k Hk. apply in_map_iff in Hk as (o&<-&Ho).
    rewrite Forall_forall in HF. apply list_elem_of_In, HF in Ho. lia. }
  rewrite bincount_minlength.
  2:{ apply Forall_fmap. apply (Forall_impl _ _ _ HF). done. }
  eexists; split; [done|]. split.
  - by rewrite count_accumulate_length, length_replicate.
  - intros k Hk. rewrite count_accumulate_lookup.
    + rewrite lookup_replicate_2 by done. done.
    + apply (Forall_impl _ _ _ HF). intros; lia.
Qed.
End bincount_count.

(** An index at or beyond [minlength] makes the result longer than
    [minlength]. *)
Lemma bincount_minlength_gt (lin : list Z) (n : nat) :
  Exists (λ k, Z.of_nat n <= k) lin →
  (n < foldr (λ k m, Nat.max (S (Z.to_nat k)) m) n lin)%nat.
Proof.
  induction 1 as [k lin Hk|k lin _ IH]; simpl; lia.
Qed.

Lemma bincount_count_Some (lin : list Z) (n : nat) out :
  bincount_count lin n = Some out →
  Forall (λ k, 0 <= k) lin ∧
  length out = foldr (λ k m, Nat.max (S (Z.to_nat k)) m) n lin.
Proof.
  unfold bincount_count. destruct (forallb _ _) eqn:E; [|done].
  intros [= <-]. split.
  - apply Forall_forall. intros k Hk%list_elem_of_In.
    rewrite forallb_forall in E. apply E in Hk. lia.
  - by rewrite count_accumulate_length, length_replicate.
Qed.

Lemma reshape_count_Some nrow ncol a b :
  reshape_count nrow ncol a = Some b → b = a ∧ length a = (nrow * ncol)%nat.
Proof.
  unfold reshape_count. destruct (_ =? _)%nat eqn:E; [|done].
  intros [= <-]. by apply Nat.eqb_eq in E.
Qed.

Lemma average_table_cols obslon obslat obsvalue :
  length obslon = length obslat → length obslat = length obsvalue →
  let T := average_table obslon obslat obsvalue in
  obslon = map fst T ∧ obslat = map (λ o : obsrow, o.2.1) T ∧
  obsvalue = map obs_value T ∧ length T = length obsvalue.
Proof.
  intros H1 H2. simpl.
  destruct (obs_table_cols obslon obslat obsvalue
              (replicate (length obsvalue) (Fin 1))) as (E1 & E2 & E3 & _).
  { apply same_length4_spec. by rewrite length_replicate. }
  split; [done|]. split; [done|]. split; [done|].
  transitivity (length (map (λ o : obsrow, o.2.2.1)
                          (average_table obslon obslat obsvalue))).
  - by rewrite length_map.
  - unfold average_table. by rewrite <- E3.
Qed.

(** [binaverage] over the rows: two [bincount]s on the linear indices of
    all the rows. *)
Lemma binaverage_rows (T : list obsrow) lon lat lon0 lon1 lat0 lat1 :
  lon !! 0%nat = Some lon0 → lon !! 1%nat = Some lon1 →
  lat !! 0%nat = Some lat0 → lat !! 1%nat = Some lat1 →
  let lin := map (lin_of lon0 lon1 lat0 lat1 (Z.of_nat (length lon))) T in
  let len := (length lat * length lon)%nat in
  binaverage (map fst T) (map (λ o : obsrow, o.2.1) T) (map obs_value T)
    lon lat =
    (mcount ← bincount_count lin len
               ≫= reshape_count (length lat) (length lon);
     msum ← bincount lin (map obs_value T) len
               ≫= reshape (length lat) (length lon);
     let pos := map (λ n, (0 <? n)%nat) mcount in
     Some (put pos (replicate len NaN)
             (zip_with ndiv (select pos msum)
                (map num_of_nat (select pos mcount))))).
Proof.
  intros Hlon0 Hlon1 Hlat0 Hlat1. simpl. unfold binaverage.
  rewrite Hlon0, Hlon1, Hlat0, Hlat1. simpl.
  rewrite broadcast2_same by (by rewrite !length_map). simpl.
  rewrite !map_map. rewrite zip_with_map_same. done.
Qed.

(** The mean of a cell from its sum and its count. *)
Lemma lookup_put_counts (mcount : list nat) (msum : list num) k n s :
  length msum = length mcount →
  mcount !! k = Some n → msum !! k = Some s →
  put (map (λ n, (0 <? n)%nat) mcount) (replicate (length mcount) NaN)
    (zip_with ndiv (select (map (λ n, (0 <? n)%nat) mcount) msum)
       (map num_of_nat (select (map (λ n, (0 <? n)%nat) mcount) mcount))) !! k
  = Some (if (0 <? n)%nat then ndiv s (num_of_nat n) else NaN).
Proof.
  intros Hl Hn Hs.
  set (pos := map _ mcount).
  assert (length pos = length mcount) as Lp by (unfold pos; by rewrite length_map).
  rewrite lookup_put.
  2:{ by rewrite length_replicate. }
  2:{ rewrite length_zip_with, length_map, !length_select by lia. lia. }
  unfold pos at 1. rewrite list_lookup_fmap, Hn. simpl.
  destruct (0 <? n)%nat eqn:E.
  - rewrite lookup_zip_with, list_lookup_fmap.
    rewrite !lookup_select
      by (unfold pos; rewrite list_lookup_fmap, Hn; simpl; by rewrite E).
    by rewrite Hs, Hn.
  - apply lookup_replicate_2. by eapply lookup_lt_Some.
Qed.
Lemma mean_or_nan_counts {A} (g : A → num) (F : list A) :
  (if (0 <? length F)%nat
   then ndiv (nsum (map g F)) (num_of_nat (length F)) else NaN)
  = mean_or_nan (map g F).
Proof. destruct F; simpl; [done|]. by rewrite length_map. Qed.

Section binaverage_cells.
Context (obslon obslat obsvalue lon lat : list num).
Context (lon0 lon1 lat0 lat1 : num).
Hypothesis Hlon0 : lon !! 0%nat = Some lon0.
Hypothesis Hlon1 : lon !! 1%nat = Some lon1.
Hypothesis Hlat0 : lat !! 0%nat = Some lat0.
Hypothesis Hlat1 : lat !! 1%nat = Some lat1.
Hypothesis Hlen1 : length obslon = length obslat.
Hypothesis Hlen2 : length obslat = length obsvalue.

Local Abbreviation T := (average_table obslon obslat obsvalue).
Local Abbreviation lin := (lin_of lon0 lon1 lat0 lat1 (Z.of_nat (length lon))).
Local Abbreviation len := (length lat * length lon)%nat.

Lemma binaverage_table :
  binaverage obslon obslat obsvalue lon lat =
    (mcount ← bincount_count (map lin T) len
               ≫= reshape_count (length lat) (length lon);
     msum ← bincount (map lin T) (map obs_value T) len
               ≫= reshape (length lat) (length lon);
     let pos := map (λ n, (0 <? n)%nat) mcount in
     Some (put pos (replicate len NaN)
             (zip_with ndiv (select pos msum)
                (map num_of_nat (select pos mcount))))).
Proof.
  destruct (average_table_cols _ _ _ Hlen1 Hlen2) as (E1 & E2 & E3 & _).
  rewrite <- (binaverage_rows T lon lat lon0 lon1 lat0 lat1) by done.
  by rewrite <- E1, <- E2, <- E3.
Qed.

(** With every linear index inside the flat field the call returns, and
    a cell is the mean of the values whose linear index it is. *)
Lemma binaverage_cells_lin :
  Forall (λ o, 0 <= lin o < Z.of_nat len) T →
  ∃ mmean,
    binaverage obslon obslat obsvalue lon lat = Some mmean ∧
    length mmean = len ∧
    ∀ k, (k < len)%nat →
      mmean !! k =
        Some (mean_or_nan
                (map obs_value (filter (λ o, lin o = Z.of_nat k) T))).
Proof.
  intros HF. rewrite binaverage_table.
  destruct (bincount_count_map lin T _ HF) as (mcount & -> & Lc & Hc).
  destruct (bincount_map lin obs_value T _ HF) as (msum & -> & Ls & Hs).
  simpl. unfold reshape_count, reshape. rewrite Lc, Ls, Nat.eqb_refl. simpl.
  eexists. split; [done|]. split.
  - by rewrite length_put, length_replicate.
  - intros k Hk. rewrite <- Lc at 1.
    rewrite (lookup_put_counts mcount msum k _ _ ltac:(lia) (Hc k Hk) (Hs k Hk)).
    by rewrite mean_or_nan_counts.
Qed.

(** Conversely, a call that returns had every linear index inside the
    flat field: a negative one makes [bincount] raise, one beyond the end
    makes [reshape] raise. *)
Lemma binaverage_Some_range mmean :
  binaverage obslon obslat obsvalue lon lat = Some mmean →
  Forall (λ o, 0 <= lin o < Z.of_nat len) T.
Proof.
  rewrite binaverage_table. intros H.
  apply bind_Some in H as (mcount & Hc & _).
  apply bind_Some in Hc as (out & [Hnn Hl]%bincount_count_Some
                            & [-> Hr]%reshape_count_Some).
  apply Forall_forall. intros o Ho.
  assert (lin o ∈ map lin T) as Hin.
  { apply list_elem_of_fmap. by exists o. }
  rewrite Forall_forall in Hnn. specialize (Hnn _ Hin).
  split; [done|].
  destruct (Z_lt_le_dec (lin o) (Z.of_nat len)) as [?|Hge]; [done|].
  exfalso.
  assert (Exists (λ k, Z.of_nat len <= k) (map lin T)) as HE.
  { apply Exists_exists. by exists (lin o). }
  apply bincount_minlength_gt in HE. lia.
Qed.
End binaverage_cells.
Lemma filter_ext_in {A} (P Q : A → Prop)
    `{∀ x, Decision (P x)} `{∀ x, Decision (Q x)} (l : list A) :
  (∀ x, x ∈ l → P x ↔ Q x) → filter P l = filter Q l.
Proof.
  induction l as [|x l IH]; intros HPQ; [done|].
  rewrite !filter_cons.
  rewrite IH by (intros y Hy; apply HPQ; by right).
  destruct (decide (P x)) as [HP|HP], (decide (Q x)) as [HQ|HQ]; try done.
  - exfalso. apply HQ, HPQ; [by left|done].
  - exfalso. apply HP, HPQ; [by left|done].
Qed.

(** X1: [binaverage] returns a field exactly when the linear index
    [j*len(lon) + i] of every observation lies inside the flat field: the
    indices are not filtered, a negative one makes [bincount] raise and
    one beyond the last cell makes [reshape] raise. *)
Theorem binaverage_defined_iff
    obslon obslat obsvalue lon lat lon0 lon1 lat0 lat1 :
  lon !! 0%nat = Some lon0 → lon !! 1%nat = Some lon1 →
  lat !! 0%nat = Some lat0 → lat !! 1%nat = Some lat1 →
  length obslon = length obslat → length obslat = length obsvalue →
  is_Some (binaverage obslon obslat obsvalue lon lat) ↔
  Forall (λ o, 0 <= lin_of lon0 lon1 lat0 lat1 (Z.of_nat (length lon)) o
                 < Z.of_nat (length lat * length lon))
         (average_table obslon obslat obsvalue).
Proof.
  intros Hlon0 Hlon1 Hlat0 Hlat1 Hlen1 Hlen2. split.
  - intros [mmean H].
    by apply (binaverage_Some_range obslon obslat obsvalue lon lat
                lon0 lon1 lat0 lat1 Hlon0 Hlon1 Hlat0 Hlat1 Hlen1 Hlen2 mmean).
  - intros HF.
    destruct (binaverage_cells_lin obslon obslat obsvalue lon lat
                lon0 lon1 lat0 lat1 Hlon0 Hlon1 Hlat0 Hlat1 Hlen1 Hlen2 HF)
      as (mmean & -> & _). by eexists.
Qed.

(** X2: when the rounded indices of every observation are inside the grid,
    [binaverage] returns the field of cell means: a cell holds the
    arithmetic mean of the values of the observations whose nearest grid
    point it is, and NaN when there is none. *)
Theorem binaverage_cell_means
    obslon obslat obsvalue lon lat lon0 lon1 lat0 lat1 :
  lon !! 0%nat = Some lon0 → lon !! 1%nat = Some lon1 →
  lat !! 0%nat = Some lat0 → lat !! 1%nat = Some lat1 →
  length obslon = length obslat → length obslat = length obsvalue →
  Z.of_nat (length lat) * Z.of_nat (length lon) < 2 ^ 63 →
  let T := average_table obslon obslat obsvalue in
  let nlon := length lon in
  let nlat := length lat in
  Forall (λ o, sel_of lon0 lon1 lat0 lat1 (Z.of_nat nlon) (Z.of_nat nlat) o
               = true) T →
  ∃ mmean,
    binaverage obslon obslat obsvalue lon lat = Some mmean ∧
    length mmean = (nlat * nlon)%nat ∧
    ∀ r c, (r < nlat)%nat → (c < nlon)%nat →
      mmean !! (r * nlon + c)%nat =
        Some (mean_or_nan
                (map obs_value
                   (filter (assigned lon0 lon1 lat0 lat1 r c) T))).
Proof.
  intros Hlon0 Hlon1 Hlat0 Hlat1 Hlen1 Hlen2 Hsize T nlon nlat Hsel.
  destruct (binaverage_cells_lin obslon obslat obsvalue lon lat
              lon0 lon1 lat0 lat1 Hlon0 Hlon1 Hlat0 Hlat1 Hlen1 Hlen2)
    as (mmean & Hrun & Lm & Hcells).
  { apply (Forall_impl _ _ _ Hsel). intros o Ho. by apply lin_of_range. }
  exists mmean. split; [done|]. split; [done|].
  intros r c Hr Hc. rewrite Hcells by (subst nlon nlat; nia).
  do 3 f_equal. apply filter_ext_in. intros o Ho.
  rewrite Forall_forall in Hsel. specialize (Hsel o Ho).
  rewrite <- (selected_cell_assigned lon0 lon1 lat0 lat1 nlon nlat Hsize o r c)
    by done.
  tauto.
Qed.

(** X3: [binaverage] does not check the column index: an observation whose
    row index [j] is inside the grid is averaged into the cell with flat
    index [j*len(lon) + i] whenever that index is inside the flat field,
    also when its column index [i] is not a column of the grid (the cell
    is then one of another row). *)
Theorem binaverage_column_unchecked
    obslon obslat obsvalue lon lat lon0 lon1 lat0 lat1 mmean (o : obsrow) k :
  lon !! 0%nat = Some lon0 → lon !! 1%nat = Some lon1 →
  lat !! 0%nat = Some lat0 → lat !! 1%nat = Some lat1 →
  length obslon = length obslat → length obslat = length obsvalue →
  Z.of_nat (length lat) * Z.of_nat (length lon) < 2 ^ 63 →
  let T := average_table obslon obslat obsvalue in
  let lin := lin_of lon0 lon1 lat0 lat1 (Z.of_nat (length lon)) in
  binaverage obslon obslat obsvalue lon lat = Some mmean →
  o ∈ T →
  0 <= grid_index lat0 lat1 o.2.1 < Z.of_nat (length lat) →
  grid_index lat0 lat1 o.2.1 * Z.of_nat (length lon)
    + grid_index lon0 lon1 o.1 = Z.of_nat k →
  (k < length lat * length lon)%nat →
  o ∈ filter (λ o', lin o' = Z.of_nat k) T ∧
  mmean !! k =
    Some (mean_or_nan (map obs_value (filter (λ o', lin o' = Z.of_nat k) T))).
Proof.
  intros Hlon0 Hlon1 Hlat0 Hlat1 Hlen1 Hlen2 Hsize T lin Hrun Ho Hj Hk Hlt.
  pose proof (binaverage_Some_range obslon obslat obsvalue lon lat
                lon0 lon1 lat0 lat1 Hlon0 Hlon1 Hlat0 Hlat1 Hlen1 Hlen2 _ Hrun)
    as HF.
  destruct (binaverage_cells_lin obslon obslat obsvalue lon lat
              lon0 lon1 lat0 lat1 Hlon0 Hlon1 Hlat0 Hlat1 Hlen1 Hlen2 HF)
    as (mmean' & Hrun' & _ & Hcells).
  rewrite Hrun in Hrun'. injection Hrun' as <-.
  split; [|by apply Hcells].
  apply list_elem_of_filter. split; [|done].
  unfold lin, lin_of.
  assert (0 <= grid_index lat0 lat1 o.2.1 * Z.of_nat (length lon)
          < Z.of_nat (length lat) * Z.of_nat (length lon))
    by (clear Hsize; nia).
  rewrite (wrap64_small (_ * _)) by lia.
  rewrite wrap64_small by lia. done.
Qed.
(** On the small grid: the observation east of the grid, in row 0 and
    column 5, is averaged into the last cell of row 1; an observation west
    of the grid in row 0 makes the call raise. *)
Example binaverage_example :
  binaverage ex_obslon ex_obslat ex_obsvalue ex_lon ex_lat
  = Some [Fin (51 # 3); NaN; NaN; NaN; NaN; Fin (34 # 2)].
Proof. vm_compute. reflexivity. Qed.

Example binaverage_raises_west_of_grid :
  binaverage (Fin (-1) :: ex_obslon) (Fin 0 :: ex_obslat)
    (Fin 1 :: ex_obsvalue) ex_lon ex_lat = None.
Proof. vm_compute. reflexivity. Qed.

Lemma binaverage_defined_iff_witness :
  is_Some (binaverage ex_obslon ex_obslat ex_obsvalue ex_lon ex_lat) ↔
  Forall (λ o, 0 <= lin_of (Fin 0) (Fin 1) (Fin 0) (Fin 1)
                      (Z.of_nat (length ex_lon)) o
                 < Z.of_nat (length ex_lat * length ex_lon))
         (average_table ex_obslon ex_obslat ex_obsvalue).
Proof.
  apply (binaverage_defined_iff ex_obslon ex_obslat ex_obsvalue ex_lon ex_lat
           (Fin 0) (Fin 1) (Fin 0) (Fin 1)); reflexivity.
Defined.

Lemma binaverage_cell_means_witness :
  ∃ mmean,
    binaverage ex_in_obslon ex_in_obslat ex_in_obsvalue ex_lon ex_lat
      = Some mmean ∧
    length mmean = (length ex_lat * length ex_lon)%nat ∧
    ∀ r c, (r < length ex_lat)%nat → (c < length ex_lon)%nat →
      mmean !! (r * length ex_lon + c)%nat =
        Some (mean_or_nan
                (map obs_value
                   (filter (assigned (Fin 0) (Fin 1) (Fin 0) (Fin 1) r c)
                      (average_table ex_in_obslon ex_in_obslat
                         ex_in_obsvalue)))).
Proof.
  apply (binaverage_cell_means ex_in_obslon ex_in_obslat ex_in_obsvalue
           ex_lon ex_lat (Fin 0) (Fin 1) (Fin 0) (Fin 1));
    try reflexivity.
  repeat (constructor; [vm_compute; reflexivity|]). constructor.
Defined.

Lemma binaverage_column_unchecked_witness :
  ex_east_obs ∈
    filter (λ o', lin_of (Fin 0) (Fin 1) (Fin 0) (Fin 1)
                    (Z.of_nat (length ex_lon)) o' = Z.of_nat 5)
      (average_table ex_obslon ex_obslat ex_obsvalue) ∧
  [Fin (51 # 3); NaN; NaN; NaN; NaN; Fin (34 # 2)] !! 5%nat =
    Some (mean_or_nan
            (map obs_value
               (filter (λ o', lin_of (Fin 0) (Fin 1) (Fin 0) (Fin 1)
                                (Z.of_nat (length ex_lon)) o' = Z.of_nat 5)
                  (average_table ex_obslon ex_obslat ex_obsvalue)))).
Proof.
  apply (binaverage_column_unchecked ex_obslon ex_obslat ex_obsvalue
           ex_lon ex_lat (Fin 0) (Fin 1) (Fin 0) (Fin 1));
    try reflexivity.
  - unfold average_table, obs_table, ex_east_obs. simpl.
    do 2 right. left.
  - vm_compute. split; [discriminate|reflexivity].
  - simpl. lia.
Defined.
(** ** binaverage and binanalysis with unit weights *)

Lemma average_table_weight obslon obslat obsvalue o :
  length obslon = length obslat → length obslat = length obsvalue →
  o ∈ average_table obslon obslat obsvalue → weight o = Fin 1.
Proof.
  intros H1 H2 Ho.
  destruct (obs_table_cols obslon obslat obsvalue
              (replicate (length obsvalue) (Fin 1))) as (_ & _ & _ & E4).
  { apply same_length4_spec. by rewrite length_replicate. }
  fold (average_table obslon obslat obsvalue) in E4.
  apply list_elem_of_lookup in Ho as [k Hk].
  assert (map weight (average_table obslon obslat obsvalue) !! k
          = Some (weight o)) as Hw by (by rewrite list_lookup_fmap, Hk).
  rewrite <- E4 in Hw. by apply lookup_replicate in Hw as [-> _].
Qed.

(** The two sums of a cell when every weight is one: the count of its
    observations and the sum of their values. *)
Lemma unit_weight_sums (F : list obsrow) (a a' b : Q) :
  (∀ o, o ∈ F → weight o = Fin 1 ∧ isfinite (obs_value o) = true) →
  (a == a')%Q →
  ∃ p p' q,
    fold_left nadd (map weighted F) (Fin a) = Fin p ∧
    fold_left nadd (map obs_value F) (Fin a') = Fin p' ∧
    fold_left nadd (map weight F) (Fin b) = Fin q ∧
    (p == p')%Q ∧ (q == b + inject_Z (Z.of_nat (length F)))%Q.
Proof.
  revert a a' b. induction F as [|o F IH]; intros a a' b HF Ha.
  { exists a, a', b. simpl. split; [done|]. split; [done|]. split; [done|].
    split; [done|]. change (inject_Z (Z.of_nat 0)) with 0%Q. lra. }
  destruct (HF o) as [Hw Hv]; [by left|].
  destruct (obs_value o) as [v| | |] eqn:Ev; try done.
  assert (weighted o = Fin (v * 1)) as Hwd.
  { unfold weighted. unfold obs_value in Ev. unfold weight in Hw.
    by rewrite Ev, Hw. }
  simpl. rewrite Hwd, Hw, Ev. simpl.
  destruct (IH (a + v * 1)%Q (a' + v)%Q (b + 1)%Q)
    as (p & p' & q & Hp & Hp' & Hq & Epp & Eq).
  { intros o' Ho'. apply HF. by right. }
  { rewrite Ha. ring. }
  exists p, p', q. split; [done|]. split; [done|]. split; [done|].
  split; [done|].
  pose proof (inject_Z_plus (Z.of_nat (length F)) 1) as HS.
  rewrite Z.add_1_r, <- Nat2Z.inj_succ in HS.
  change (inject_Z 1) with 1%Q in HS. simpl length. rewrite HS. lra.
Qed.

(** X4: on observations inside the grid, [binaverage] and [binanalysis] with
    the weight one for every observation return the same mean field, for
    every positive [sigma2_min]: the floor scales sum and inverse variance
    alike.  (The numbers are exact here; in floating point the two
    quotients are rounded separately.) *)
Theorem binaverage_agrees_with_binanalysis
    obslon obslat obsvalue lon lat lon0 lon1 lat0 lat1 (s : Q) :
  lon !! 0%nat = Some lon0 → lon !! 1%nat = Some lon1 →
  lat !! 0%nat = Some lat0 → lat !! 1%nat = Some lat1 →
  length obslon = length obslat → length obslat = length obsvalue →
  Z.of_nat (length lat) * Z.of_nat (length lon) < 2 ^ 63 →
  forallb isfinite obsvalue = true →
  (0 < s)%Q →
  Forall (λ o, sel_of lon0 lon1 lat0 lat1 (Z.of_nat (length lon))
                 (Z.of_nat (length lat)) o = true)
         (average_table obslon obslat obsvalue) →
  ∃ mmean mmean' msum minvsigma2,
    binaverage obslon obslat obsvalue lon lat = Some mmean ∧
    binanalysis obslon obslat obsvalue (replicate (length obsvalue) (Fin 1))
      lon lat (Fin s) = Some (mmean', msum, minvsigma2) ∧
    ∀ k, (k < length lat * length lon)%nat →
      ∃ a b, mmean !! k = Some a ∧ mmean' !! k = Some b ∧ a ≡ b.
Proof.
  intros Hlon0 Hlon1 Hlat0 Hlat1 Hlen1 Hlen2 Hsize Hval Hs Hsel.
  destruct (binaverage_cell_means obslon obslat obsvalue lon lat
              lon0 lon1 lat0 lat1 Hlon0 Hlon1 Hlat0 Hlat1 Hlen1 Hlen2 Hsize Hsel)
    as (mmean & Hrun & _ & Hcells).
  assert (same_length4 obslon obslat obsvalue
            (replicate (length obsvalue) (Fin 1)) = true) as Hlen.
  { apply same_length4_spec. by rewrite length_replicate. }
  destruct (binanalysis_accumulate_cells _ _ _ _ _ _ _ _ _ _
              Hlon0 Hlon1 Hlat0 Hlat1 Hlen Hsize)
    as (msum0 & minv0 & Hacc & Ls & Lm & Hcells').
  destruct (binanalysis_result _ _ _ _ _ _ (Fin s) _ _ Hacc Ls Lm)
    as (mmean' & Hres & Lmean & Hmean).
  simpl in Hres, Hmean.
  exists mmean, mmean'. eexists _, _.
  split; [done|]. split; [exact Hres|].
  intros k Hk.
  assert (k = (k / length lon * length lon + k mod length lon)%nat) as Ek.
  { rewrite Nat.mul_comm. apply Nat.div_mod_eq. }
  assert (k / length lon < length lat)%nat as Hr
    by (apply Nat.Div0.div_lt_upper_bound; lia).
  assert (k mod length lon < length lon)%nat as Hc
    by (apply Nat.mod_upper_bound; lia).
  specialize (Hcells _ _ Hr Hc).
  destruct (Hcells' _ _ Hr Hc) as [Hs0 Hm0].
  rewrite <- Ek in Hcells, Hs0, Hm0.
  fold (average_table obslon obslat obsvalue) in Hs0, Hm0.
  set (F := filter (assigned lon0 lon1 lat0 lat1 (k / length lon)
                      (k mod length lon))
              (average_table obslon obslat obsvalue)) in *.
  destruct (average_table_cols _ _ _ Hlen1 Hlen2) as (_ & _ & E3 & _).
  rewrite E3 in Hval.
  pose proof (forallb_map_elem _ _ _ Hval) as Hval'.
  destruct (unit_weight_sums F 0 0 0) as (p & p' & q & Hp & Hp' & Hq & Epp & Eq).
  { intros o [_ Ho]%list_elem_of_filter. split.
    - by apply (average_table_weight obslon obslat obsvalue).
    - by apply Hval'. }
  { done. }
  fold (nsum (map weighted F)) in Hp. fold (nsum (map obs_value F)) in Hp'.
  fold (nsum (map weight F)) in Hq.
  rewrite Hp in Hs0. rewrite Hq in Hm0.
  assert (0 <= inject_Z (Z.of_nat (length F)))%Q as Hn0.
  { change 0%Q with (inject_Z 0). rewrite <- Zle_Qle. lia. }
  assert (0 <= q)%Q as Hq0 by lra.
  pose proof (lookup_scaled (correction_factor (Fin s)) _ _ _ _ _ Hm0 Hs0) as Hs1.
  pose proof (lookup_scaled (correction_factor (Fin s)) _ _ _ _ _ Hm0 Hm0) as Hm1.
  destruct (floor_cell s p q Hs Hq0) as (_ & _ & F3).
  eexists _, _. split; [exact Hcells|].
  split; [exact (Hmean _ _ _ Hs1 Hm1)|].
  etrans; [|symmetry; exact F3].
  rewrite <- mean_or_nan_counts.
  destruct (0 <? length F)%nat eqn:EF.
  2:{ apply Nat.ltb_ge in EF.
      assert (length F = 0%nat) as E0 by lia. rewrite E0 in Eq.
      change (inject_Z (Z.of_nat 0)) with 0%Q in Eq.
      unfold ngt. simpl.
      assert (Qltb 0 q = false) as ->; [|done].
      apply Qltb_ge. lra. }
  apply Nat.ltb_lt in EF.
  assert (0 < inject_Z (Z.of_nat (length F)))%Q as Hpos.
  { change 0%Q with (inject_Z 0). rewrite <- Zlt_Qlt. lia. }
  rewrite Hp'.
  unfold ngt. simpl.
  assert (Qltb 0 q = true) as -> by (apply Qltb_lt; lra).
  unfold num_of_nat, num_of_Z. simpl.
  assert (Qeq_bool (inject_Z (Z.of_nat (length F))) 0 = false) as ->
    by (apply Qeq_bool_false_iff; lra).
  assert (Qeq_bool q 0 = false) as ->
    by (apply Qeq_bool_false_iff; lra).
  simpl. 
  assert (p' / inject_Z (Z.of_nat (length F)) == p / q)%Q as HH; [|exact HH].
  rewrite Epp, Eq. field. lra.
Qed.

Lemma binaverage_agrees_with_binanalysis_witness :
  ∃ mmean mmean' msum minvsigma2,
    binaverage ex_in_obslon ex_in_obslat ex_in_obsvalue ex_lon ex_lat
      = Some mmean ∧
    binanalysis ex_in_obslon ex_in_obslat ex_in_obsvalue
      (replicate (length ex_in_obsvalue) (Fin 1)) ex_lon ex_lat
      (Fin (1 # 25)) = Some (mmean', msum, minvsigma2) ∧
    ∀ k, (k < length ex_lat * length ex_lon)%nat →
      ∃ a b, mmean !! k = Some a ∧ mmean' !! k = Some b ∧ a ≡ b.
Proof.
  apply (binaverage_agrees_with_binanalysis ex_in_obslon ex_in_obslat
           ex_in_obsvalue ex_lon ex_lat (Fin 0) (Fin 1) (Fin 0) (Fin 1));
    try reflexivity.
  repeat (constructor; [vm_compute; reflexivity|]). constructor.
Defined.
(** ** Rounding to the nearest index *)

Lemma rint_Z_floor_or_next (q : Q) :
  rint_Z q = Qfloor q ∨ rint_Z q = Qfloor q + 1.
Proof.
  unfold rint_Z. destruct (_ ?= _)%Q; [destruct (Z.even _)|..]; auto.
Qed.

(** Rounding keeps a value between two integers between them. *)
Lemma rint_Z_bounds (q : Q) (a b : Z) :
  (inject_Z a <= q)%Q → (q <= inject_Z b)%Q → a <= rint_Z q <= b.
Proof.
  intros Ha Hb.
  pose proof (Qfloor_resp_le _ _ Ha) as Hfa. rewrite Qfloor_Z in Hfa.
  pose proof (Qfloor_resp_le _ _ Hb) as Hfb. rewrite Qfloor_Z in Hfb.
  destruct (Z.eq_dec (Qfloor q) b) as [E|E].
  - assert (rint_Z q = Qfloor q) as ->; [|lia].
    unfold rint_Z.
    assert ((q - inject_Z (Qfloor q) ?= 1 # 2)%Q = Lt) as ->; [|done].
    apply -> Qlt_alt. pose proof (Qfloor_le q) as Hf. rewrite E in Hf |- *.
    lra.
  - destruct (rint_Z_floor_or_next q) as [-> | ->]; lia.
Qed.

(** A value less than one half away from an integer rounds to it. *)
Lemma rint_Z_near (q : Q) (k : Z) :
  (Qabs (q - inject_Z k) < 1 # 2)%Q → rint_Z q = k.
Proof.
  intros H. apply Qabs_Qlt_condition in H as [H1 H2].
  pose proof (Qfloor_le q) as Hf1. pose proof (Qlt_floor q) as Hf2.
  rewrite inject_Z_plus in Hf2. change (inject_Z 1) with 1%Q in Hf2.
  destruct (Qlt_le_dec q (inject_Z k)) as [Hlt|Hge].
  - assert (Qfloor q = k - 1) as Ef.
    { assert (inject_Z (k - 1) <= q)%Q as Hk.
      { replace (k - 1) with (k + (-1)) by lia. rewrite inject_Z_plus.
        change (inject_Z (-1)) with (-1 # 1)%Q. lra. }
      apply Qfloor_resp_le in Hk. rewrite Qfloor_Z in Hk.
      assert (Qfloor q < k); [|lia].
      rewrite Zlt_Qlt. lra. }
    unfold rint_Z. rewrite Ef.
    assert ((q - inject_Z (k - 1) ?= 1 # 2)%Q = Gt) as ->; [|lia].
    apply -> Qgt_alt. replace (k - 1) with (k + (-1)) by lia.
    rewrite inject_Z_plus. change (inject_Z (-1)) with (-1 # 1)%Q. lra.
  - assert (Qfloor q = k) as Ef.
    { apply Qfloor_resp_le in Hge as Hk. rewrite Qfloor_Z in Hk.
      assert (Qfloor q < k + 1); [|lia].
      rewrite Zlt_Qlt, inject_Z_plus. change (inject_Z 1) with 1%Q. lra. }
    unfold rint_Z. rewrite Ef.
    assert ((q - inject_Z k ?= 1 # 2)%Q = Lt) as ->; [|done].
    apply -> Qlt_alt. lra.
Qed.
(** The index of a finite observation on an axis of non-zero spacing. *)
Lemma grid_index_finite (a0 a1 o : Q) :
  ¬ (a0 == a1)%Q →
  0 <= rint_Z ((o - a0) / (a1 - a0)) < 2 ^ 63 →
  grid_index (Fin a0) (Fin a1) (Fin o) = rint_Z ((o - a0) / (a1 - a0)).
Proof.
  intros Hd Hr. apply grid_index_nearest; [done|].
  unfold nearest. simpl.
  assert (Qeq_bool (a1 + - a0) 0 = false) as ->.
  { apply Qeq_bool_false_iff. intros E. apply Hd. lra. }
  done.
Qed.

Lemma Qdiv_half_bound (x d : Q) :
  (0 < d)%Q → (- ((1 # 2) * d) < x)%Q → (x < (1 # 2) * d)%Q →
  (- (1 # 2) < x / d ∧ x / d < 1 # 2)%Q.
Proof.
  intros Hd H1 H2. destruct (Qinv_pos_spec _ Hd) as [Hr1 Hr2].
  unfold Qdiv. set (r := (/ d)%Q) in *. split; nra.
Qed.

(** X5: binning is by the nearest grid point: an observation less than half
    a grid spacing away from the point number [k] of a regularly spaced
    axis, [a0 + k * (a1 - a0)], gets the index [k]. *)
Theorem grid_index_nearest_point (a0 a1 o : Q) (k : Z) :
  ¬ (a0 == a1)%Q →
  0 <= k < 2 ^ 63 →
  (Qabs (o - (a0 + inject_Z k * (a1 - a0))) < (1 # 2) * Qabs (a1 - a0))%Q →
  grid_index (Fin a0) (Fin a1) (Fin o) = k.
Proof.
  intros Hd Hk Hnear.
  assert (rint_Z ((o - a0) / (a1 - a0)) = k) as Er.
  { apply rint_Z_near. apply Qabs_Qlt_condition.
    apply Qabs_Qlt_condition in Hnear as [H1 H2].
    set (x := (o - (a0 + inject_Z k * (a1 - a0)))%Q) in *.
    destruct (Qlt_le_dec 0 (a1 - a0)) as [Hpos|Hneg].
    - rewrite Qabs_pos in H1, H2 by lra.
      assert ((o - a0) / (a1 - a0) - inject_Z k == x / (a1 - a0))%Q as ->.
      { unfold x. field. lra. }
      by apply Qdiv_half_bound.
    - assert (0 < - (a1 - a0))%Q as Hpos by (destruct (Qeq_dec a0 a1); lra).
      rewrite Qabs_neg in H1, H2 by lra.
      assert ((o - a0) / (a1 - a0) - inject_Z k == (- x) / (- (a1 - a0)))%Q
        as ->.
      { unfold x. field. lra. }
      apply Qdiv_half_bound; lra. }
  rewrite grid_index_finite by (rewrite ?Er; done). done.
Qed.

Lemma grid_index_nearest_point_witness :
  grid_index (Fin 0) (Fin (1 # 8)) (Fin (3 # 10)) = 2.
Proof.
  apply (grid_index_nearest_point 0 (1 # 8) (3 # 10) 2).
  - intros E. vm_compute in E. discriminate.
  - lia.
  - vm_compute. reflexivity.
Defined.
(** ** loadobs and the grid *)

(** What a call of [loadobs] that returns tells: the grid has a first and a
    last point on each axis, and the five arrays are the columns of the
    records that pass the selection. *)
Lemma loadobs_inv (fs : gmap string dataset) lon lat fname varname
    v lo la d t :
  loadobs fs lon lat fname varname = Some (v, lo, la, d, t) →
  ∃ lon0 lonN lat0 latN (R : list obsrec),
    lon !! 0%nat = Some lon0 ∧ last lon = Some lonN ∧
    lat !! 0%nat = Some lat0 ∧ last lat = Some latN ∧
    let K := filter (λ r, loadobs_keep lon0 lonN lat0 latN r = true) R in
    v = map (λ r : obsrec, r.1.1.1.1) K ∧
    lo = map (λ r : obsrec, r.1.1.1.2) K ∧
    la = map (λ r : obsrec, r.1.1.2) K ∧
    d = map (λ r : obsrec, r.1.2) K ∧
    t = map (λ r : obsrec, r.2) K.
Proof.
  unfold loadobs. intros H.
  apply bind_Some in H as (ds & _ & H).
  apply bind_Some in H as (obslon & _ & H).
  apply bind_Some in H as (obslat & _ & H).
  apply bind_Some in H as (obsdepth & _ & H).
  apply bind_Some in H as (obstime & _ & H).
  apply bind_Some in H as (obsvalue & _ & H).
  apply bind_Some in H as (lon0 & Hlon0 & H).
  apply bind_Some in H as (lonN & HlonN & H).
  apply bind_Some in H as (lat0 & Hlat0 & H).
  apply bind_Some in H as (latN & HlatN & H).
  destruct (same_length5 _ _ _ _ _) eqn:Hlen; [|done].
  destruct (zip5_cols _ _ _ _ _ Hlen) as (E1 & E2 & E3 & E4 & E5).
  set (R := zip5 obsvalue obslon obslat obsdepth (map obstime_of_days obstime))
    in *.
  exists lon0, lonN, lat0, latN, R.
  split; [done|]. split; [done|]. split; [done|]. split; [done|].
  revert H.
  assert (zip_with
            (λ d '(lo, (la, v)), loadobs_sel lon0 lonN lat0 latN d lo la v)
            obsdepth (zip obslon (zip obslat obsvalue))
          = map (loadobs_keep lon0 lonN lat0 latN) R) as ->.
  { rewrite E4 at 1. rewrite E2 at 1. rewrite E3 at 1. rewrite E1 at 1.
    apply loadobs_sel_rows. }
  rewrite E1 at 1. rewrite E2 at 1. rewrite E3 at 1. rewrite E4 at 1.
  rewrite E5 at 1.
  rewrite !select_map, !select_filter.
  intros [= <- <- <- <- <-]. done.
Qed.

(** A coordinate strictly between the first and the last point of a
    regularly spaced axis of [n] points has its rounded index among
    [0 .. n-1]. *)
Lemma grid_index_inside (a0 a1 aN : Q) (n : nat) (o : num) :
  (aN == a0 + inject_Z (Z.of_nat n - 1) * (a1 - a0))%Q →
  (1 <= n)%nat → Z.of_nat n < 2 ^ 63 →
  nlt (Fin a0) o = true → nlt o (Fin aN) = true →
  0 <= grid_index (Fin a0) (Fin a1) o < Z.of_nat n.
Proof.
  intros HN Hn Hsz H0 H1.
  destruct o as [o| | |]; try done. simpl in H0, H1.
  apply Qltb_lt in H0, H1.
  set (m := inject_Z (Z.of_nat n - 1)) in *.
  assert (0 <= m)%Q as Hm.
  { unfold m. change 0%Q with (inject_Z 0). rewrite <- Zle_Qle. lia. }
  assert (0 < a1 - a0)%Q as Hd by nra.
  assert (¬ (a0 == a1)%Q) as Hne by lra.
  destruct (Qinv_pos_spec _ Hd) as [Hr1 Hr2].
  assert (0 <= rint_Z ((o - a0) / (a1 - a0)) <= Z.of_nat n - 1) as Hr.
  { apply rint_Z_bounds.
    - change (inject_Z 0) with 0%Q. unfold Qdiv.
      set (r := (/ (a1 - a0))%Q) in *. nra.
    - fold m. unfold Qdiv. set (r := (/ (a1 - a0))%Q) in *. nra. }
  rewrite grid_index_finite by (done || lia). lia.
Qed.

(** X6: on a regularly spaced grid, the selection of [binanalysis] keeps every
    record that [loadobs] returns: a longitude strictly between the first
    and the last grid longitude and a latitude strictly between the first
    and the last grid latitude round to indices inside the grid. *)
Theorem loadobs_records_inside_grid
    (fs : gmap string dataset) lon lat fname varname v lo la d t
    (lon0 lon1 lonN lat0 lat1 latN : Q) :
  lon !! 0%nat = Some (Fin lon0) → lon !! 1%nat = Some (Fin lon1) →
  last lon = Some (Fin lonN) →
  lat !! 0%nat = Some (Fin lat0) → lat !! 1%nat = Some (Fin lat1) →
  last lat = Some (Fin latN) →
  (lonN == lon0 + inject_Z (Z.of_nat (length lon) - 1) * (lon1 - lon0))%Q →
  (latN == lat0 + inject_Z (Z.of_nat (length lat) - 1) * (lat1 - lat0))%Q →
  Z.of_nat (length lon) < 2 ^ 63 → Z.of_nat (length lat) < 2 ^ 63 →
  loadobs fs lon lat fname varname = Some (v, lo, la, d, t) →
  ∃ lin, binanalysis_lin lo la lon lat
         = Some (replicate (length v) true, lin).
Proof.
  intros Hlon0 Hlon1 HlonN Hlat0 Hlat1 HlatN Elon Elat Slon Slat Hload.
  apply loadobs_inv in Hload
    as (lon0' & lonN' & lat0' & latN' & R & Hlon0' & HlonN' & Hlat0' & HlatN'
        & Hv & Hlo & Hla & _ & _).
  simplify_eq.
  set (K := filter _ R) in *.
  unfold binanalysis_lin. rewrite Hlon0, Hlon1, Hlat0, Hlat1. simpl.
  rewrite !length_map, Nat.eqb_refl. eexists.
  f_equal. f_equal.
  rewrite !map_map. rewrite (zip_with_map_same (in_grid _ _)).
  apply list_eq_same_length with (length K).
  - by rewrite length_replicate.
  - by rewrite length_map.
  - intros k b1 b2 Hk Hb1 Hb2.
    apply lookup_replicate in Hb2 as [-> _].
    rewrite list_lookup_fmap in Hb1.
    destruct (K !! k) as [[[[[v1 lo1] la1] d1] t1]|] eqn:Er; [|done].
    simpl in Hb1. injection Hb1 as <-.
    apply list_elem_of_lookup_2, list_elem_of_filter in Er as [Hkeep _].
    unfold loadobs_keep, loadobs_sel in Hkeep.
    rewrite !andb_true_iff in Hkeep.
    destruct Hkeep as [[[[[_ Hl0] HlN] Ha0] HaN] _].
    assert (1 <= length lon)%nat by (by eapply lookup_lt_Some in Hlon1; lia).
    assert (1 <= length lat)%nat by (by eapply lookup_lt_Some in Hlat1; lia).
    pose proof (grid_index_inside lon0 lon1 lonN (length lon) lo1
                  Elon ltac:(done) Slon Hl0 HlN).
    pose proof (grid_index_inside lat0 lat1 latN (length lat) la1
                  Elat ltac:(done) Slat Ha0 HaN).
    unfold in_grid. rewrite !andb_true_iff, !Z.leb_le, !Z.ltb_lt. lia.
Qed.

Lemma loadobs_records_inside_grid_witness :
  ∃ lin, binanalysis_lin [Fin (1 # 2); Fin (3 # 2)] [Fin (1 # 2); Fin (1 # 2)]
           ex_lon ex_lat
         = Some (replicate (length [Fin 16; Fin (-2)]) true, lin).
Proof.
  apply (loadobs_records_inside_grid ex_fs ex_lon ex_lat
           "Temperature.train.nc" "Temperature"
           [Fin 16; Fin (-2)] [Fin (1 # 2); Fin (3 # 2)]
           [Fin (1 # 2); Fin (1 # 2)] [Fin 5; Fin 0]
           [-2208988800; -2208859200] 0 1 2 0 1 1);
    reflexivity.
Defined.
(** ** binanalysis: cells without observations *)

Lemma correction_factor_zero (s : Q) :
  (0 <= s)%Q → correction_factor (Fin s) (Fin 0) = Fin 1.
Proof.
  intros Hs.
  assert (Qeq_bool (0 * s) 0 = true) as E.
  { apply Qeq_bool_iff. ring. }
  unfold correction_factor.
  rewrite negative_zero_product_nonneg by lra.
  change (ndiv (Fin 1) (nmul (Fin 0) (Fin s)))
    with (if Qeq_bool (0 * s) 0 then inf_of_sign (1 ?= 0)%Q
          else Fin (1 / (0 * s))).
  by rewrite E.
Qed.

(** With a negative floor the product is the negative zero, and its
    reciprocal [-inf] stays. *)
Lemma correction_factor_zero_negative (s : Q) :
  (s < 0)%Q → correction_factor (Fin s) (Fin 0) = NInf.
Proof.
  intros Hs. unfold correction_factor, negative_zero_product.
  assert (Qltb s 0 = true) as -> by (by apply Qltb_lt).
  done.
Qed.

(** The three fields at a cell whose accumulated sum and inverse variance
    are zero. *)
Lemma binanalysis_cell_zero
    obslon obslat obsvalue obsinvsigma2 lon lat (s : Q) msum0 minv0 k :
  binanalysis_accumulate obslon obslat obsvalue obsinvsigma2 lon lat
    = Some (msum0, minv0) →
  length msum0 = (length lat * length lon)%nat →
  length minv0 = (length lat * length lon)%nat →
  msum0 !! k = Some (Fin 0) → minv0 !! k = Some (Fin 0) →
  ∃ mmean msum minvsigma2,
    binanalysis obslon obslat obsvalue obsinvsigma2 lon lat (Fin s)
      = Some (mmean, msum, minvsigma2) ∧
    mmean !! k = Some NaN ∧
    ((0 <= s)%Q →
       msum !! k = Some (Fin 0) ∧ minvsigma2 !! k = Some (Fin 0)) ∧
    ((s < 0)%Q → msum !! k = Some NaN ∧ minvsigma2 !! k = Some NaN).
Proof.
  intros Hacc Ls Lm Hs0 Hm0.
  destruct (binanalysis_result _ _ _ _ _ _ (Fin s) _ _ Hacc Ls Lm)
    as (mmean & Hres & _ & Hmean).
  simpl in Hres, Hmean.
  pose proof (lookup_scaled (correction_factor (Fin s)) _ _ _ _ _ Hm0 Hs0) as Hs1.
  pose proof (lookup_scaled (correction_factor (Fin s)) _ _ _ _ _ Hm0 Hm0) as Hm1.
  eexists mmean, _, _. split; [exact Hres|].
  specialize (Hmean _ _ _ Hs1 Hm1).
  destruct (Qlt_le_dec s 0) as [Hneg|Hpos].
  - rewrite correction_factor_zero_negative in Hs1, Hm1, Hmean by done.
    split; [exact Hmean|]. split; [intros ?; lra|]. intros _.
    split; [exact Hs1|exact Hm1].
  - rewrite correction_factor_zero in Hs1, Hm1, Hmean by done.
    split; [exact Hmean|]. split; [|intros ?; lra]. intros _.
    split; [exact Hs1|exact Hm1].
Qed.

(** X7: a cell that is the nearest one of no observation has the mean NaN.
    With a floor [sigma2_min] that is not negative its sum and its inverse
    variance are zero: [1/(0 * sigma2_min)] is [+inf], which line 131
    replaces by 1.  With a negative [sigma2_min] they are NaN: the product
    is the negative zero, its reciprocal [-inf] is not replaced, and
    [-inf * 0] is NaN.  In particular an empty set of observations gives a
    mean field of NaN. *)
Theorem binanalysis_empty_cell
    obslon obslat obsvalue obsinvsigma2 lon lat lon0 lon1 lat0 lat1
    (s : Q) (r c : nat) :
  lon !! 0%nat = Some lon0 → lon !! 1%nat = Some lon1 →
  lat !! 0%nat = Some lat0 → lat !! 1%nat = Some lat1 →
  same_length4 obslon obslat obsvalue obsinvsigma2 = true →
  Z.of_nat (length lat) * Z.of_nat (length lon) < 2 ^ 63 →
  (r < length lat)%nat → (c < length lon)%nat →
  filter (assigned lon0 lon1 lat0 lat1 r c)
    (obs_table obslon obslat obsvalue obsinvsigma2) = [] →
  ∃ mmean msum minvsigma2,
    binanalysis obslon obslat obsvalue obsinvsigma2 lon lat (Fin s)
      = Some (mmean, msum, minvsigma2) ∧
    mmean !! (r * length lon + c)%nat = Some NaN ∧
    ((0 <= s)%Q →
       msum !! (r * length lon + c)%nat = Some (Fin 0) ∧
       minvsigma2 !! (r * length lon + c)%nat = Some (Fin 0)) ∧
    ((s < 0)%Q →
       msum !! (r * length lon + c)%nat = Some NaN ∧
       minvsigma2 !! (r * length lon + c)%nat = Some NaN).
Proof.
  intros Hlon0 Hlon1 Hlat0 Hlat1 Hlen Hsize Hr Hc Hempty.
  destruct (binanalysis_accumulate_cells _ _ _ _ _ _ _ _ _ _
              Hlon0 Hlon1 Hlat0 Hlat1 Hlen Hsize)
    as (msum0 & minv0 & Hacc & Ls & Lm & Hcells).
  destruct (Hcells r c Hr Hc) as [Hs0 Hm0].
  rewrite Hempty in Hs0, Hm0.
  by apply (binanalysis_cell_zero _ _ _ _ _ _ s msum0 minv0).
Qed.

Lemma binanalysis_empty_cell_witness :
  ∃ mmean msum minvsigma2,
    binanalysis ex_obslon ex_obslat ex_obsvalue ex_obsinvsigma2 ex_lon ex_lat
      (Fin (1 # 25)) = Some (mmean, msum, minvsigma2) ∧
    mmean !! (1 * length ex_lon + 0)%nat = Some NaN ∧
    ((0 <= 1 # 25)%Q →
       msum !! (1 * length ex_lon + 0)%nat = Some (Fin 0) ∧
       minvsigma2 !! (1 * length ex_lon + 0)%nat = Some (Fin 0)) ∧
    ((1 # 25 < 0)%Q →
       msum !! (1 * length ex_lon + 0)%nat = Some NaN ∧
       minvsigma2 !! (1 * length ex_lon + 0)%nat = Some NaN).
Proof.
  apply (binanalysis_empty_cell ex_obslon ex_obslat ex_obsvalue
           ex_obsinvsigma2 ex_lon ex_lat (Fin 0) (Fin 1) (Fin 0) (Fin 1));
    try reflexivity; simpl; lia.
Defined.

(** The small grid with a negative floor: the four cells without an
    observation hold NaN in all three fields. *)
Example binanalysis_negative_floor :
  binanalysis ex_obslon ex_obslat ex_obsvalue ex_obsinvsigma2 ex_lon ex_lat
    (Fin (-1 # 25))
  = Some ([NaN; NaN; NaN; NaN; NaN; NaN],
          [Fin (-1275 # 3); NaN; NaN; NaN; NaN; Fin (-350)],
          [Fin (-75 # 3); NaN; NaN; NaN; NaN; Fin (-25)]).
Proof. reflexivity. Qed.

Lemma filter_none {A} (P : A → Prop) `{∀ x, Decision (P x)} (l : list A) :
  (∀ x, x ∈ l → ¬ P x) → filter P l = [].
Proof.
  induction l as [|x l IH]; intros HP; [done|].
  rewrite filter_cons. rewrite decide_False by (apply HP; by left).
  apply IH. intros y Hy. apply HP. by right.
Qed.



(** ** binanalysis with unit weights, as the generator calls it *)

(** X9: with the weight one for every observation and the default
    [sigma2_min = 0.04], the inverse variance of a cell is the number of
    its observations, capped at 25, and the sum of a cell with
    observations is that capped number times the mean of their values. *)
Theorem binanalysis_unit_weights
    obslon obslat obsvalue lon lat lon0 lon1 lat0 lat1 (r c : nat) :
  lon !! 0%nat = Some lon0 → lon !! 1%nat = Some lon1 →
  lat !! 0%nat = Some lat0 → lat !! 1%nat = Some lat1 →
  length obslon = length obslat → length obslat = length obsvalue →
  Z.of_nat (length lat) * Z.of_nat (length lon) < 2 ^ 63 →
  forallb isfinite obsvalue = true →
  (r < length lat)%nat → (c < length lon)%nat →
  let F := filter (assigned lon0 lon1 lat0 lat1 r c)
             (average_table obslon obslat obsvalue) in
  let capped := num_of_Z (Z.min (Z.of_nat (length F)) 25) in
  ∃ mmean msum minvsigma2 sm m,
    binanalysis obslon obslat obsvalue (replicate (length obsvalue) (Fin 1))
      lon lat sigma2_min_default = Some (mmean, msum, minvsigma2) ∧
    msum !! (r * length lon + c)%nat = Some sm ∧
    minvsigma2 !! (r * length lon + c)%nat = Some m ∧
    m ≡ capped ∧
    ((0 < length F)%nat →
       sm ≡ nmul capped (mean_or_nan (map obs_value F))).
Proof.
  intros Hlon0 Hlon1 Hlat0 Hlat1 Hlen1 Hlen2 Hsize Hval Hr Hc F capped.
  assert (same_length4 obslon obslat obsvalue
            (replicate (length obsvalue) (Fin 1)) = true) as Hlen.
  { apply same_length4_spec. by rewrite length_replicate. }
  destruct (binanalysis_accumulate_cells _ _ _ _ _ _ _ _ _ _
              Hlon0 Hlon1 Hlat0 Hlat1 Hlen Hsize)
    as (msum0 & minv0 & Hacc & Ls & Lm & Hcells).
  destruct (binanalysis_result _ _ _ _ _ _ sigma2_min_default _ _ Hacc Ls Lm)
    as (mmean & Hres & _ & _).
  simpl in Hres.
  destruct (Hcells r c Hr Hc) as [Hs0 Hm0].
  fold (average_table obslon obslat obsvalue) in Hs0, Hm0. fold F in Hs0, Hm0.
  destruct (average_table_cols _ _ _ Hlen1 Hlen2) as (_ & _ & E3 & _).
  rewrite E3 in Hval.
  pose proof (forallb_map_elem _ _ _ Hval) as Hval'.
  destruct (unit_weight_sums F 0 0 0) as (p & p' & q & Hp & Hp' & Hq & Epp & Eq).
  { intros o [_ Ho]%list_elem_of_filter. split.
    - by apply (average_table_weight obslon obslat obsvalue).
    - by apply Hval'. }
  { done. }
  fold (nsum (map weighted F)) in Hp. fold (nsum (map obs_value F)) in Hp'.
  fold (nsum (map weight F)) in Hq.
  rewrite Hp in Hs0. rewrite Hq in Hm0.
  set (n := inject_Z (Z.of_nat (length F))) in *.
  assert (0 <= n)%Q as Hn0.
  { unfold n. change 0%Q with (inject_Z 0). rewrite <- Zle_Qle. lia. }
  assert (0 <= q)%Q as Hq0 by lra.
  pose proof (lookup_scaled (correction_factor sigma2_min_default)
                _ _ _ _ _ Hm0 Hs0) as Hs1.
  pose proof (lookup_scaled (correction_factor sigma2_min_default)
                _ _ _ _ _ Hm0 Hm0) as Hm1.
  unfold sigma2_min_default in Hs1, Hm1.
  destruct (correction_factor_finite (1 # 25) q ltac:(lra) Hq0)
    as (a & Ea & Ha0 & Ha1 & Hle & Hge).
  rewrite Ea in Hs1, Hm1. simpl in Hs1, Hm1.
  eexists mmean, _, _, _, _. split; [exact Hres|].
  split; [exact Hs1|]. split; [exact Hm1|].
  assert (a * q == inject_Z (Z.min (Z.of_nat (length F)) 25))%Q as Ecap.
  { destruct (Z.min_spec (Z.of_nat (length F)) 25) as [[Hlt ->]|[Hge' ->]].
    - fold n. assert (n < 25)%Q as Hn25.
      { unfold n. change 25%Q with (inject_Z 25). by rewrite <- Zlt_Qlt. }
      rewrite Hle by lra. lra.
    - assert (25 <= n)%Q as Hn25.
      { unfold n. change 25%Q with (inject_Z 25). by rewrite <- Zle_Qle. }
      change (inject_Z 25) with 25%Q.
      assert (1 <= q * (1 # 25))%Q as H1 by lra.
      specialize (Hge H1). lra. }
  split; [exact Ecap|].
  intros Hpos. rewrite <- mean_or_nan_counts.
  apply Nat.ltb_lt in Hpos as Hpos'. rewrite Hpos'.
  rewrite Hp'. unfold capped, num_of_nat, num_of_Z. fold n.
  assert (0 < n)%Q as Hn.
  { unfold n. change 0%Q with (inject_Z 0). rewrite <- Zlt_Qlt. lia. }
  simpl.
  assert (Qeq_bool n 0 = false) as -> by (apply Qeq_bool_false_iff; lra).
  simpl.
  assert (a * p == inject_Z (Z.min (Z.of_nat (length F)) 25) * (p' / n))%Q
    as HH; [|exact HH].
  rewrite <- Ecap, Epp.
  assert (q == n)%Q as -> by lra. field. lra.
Qed.

Lemma binanalysis_unit_weights_witness :
  let F := filter (assigned (Fin 0) (Fin 1) (Fin 0) (Fin 1) 0 0)
             (average_table ex_obslon ex_obslat ex_obsvalue) in
  let capped := num_of_Z (Z.min (Z.of_nat (length F)) 25) in
  ∃ mmean msum minvsigma2 sm m,
    binanalysis ex_obslon ex_obslat ex_obsvalue
      (replicate (length ex_obsvalue) (Fin 1))
      ex_lon ex_lat sigma2_min_default = Some (mmean, msum, minvsigma2) ∧
    msum !! (0 * length ex_lon + 0)%nat = Some sm ∧
    minvsigma2 !! (0 * length ex_lon + 0)%nat = Some m ∧
    m ≡ capped ∧
    ((0 < length F)%nat →
       sm ≡ nmul capped (mean_or_nan (map obs_value F))).
Proof.
  apply (binanalysis_unit_weights ex_obslon ex_obslat ex_obsvalue
           ex_lon ex_lat (Fin 0) (Fin 1) (Fin 0) (Fin 1) 0 0);
    try reflexivity; simpl; lia.
Defined.

(** Thirty observations of value 3 at one grid point: the cell holds the
    inverse variance 25 and the sum 75, the values of 25 observations. *)
Example binanalysis_unit_weights_capped :
  (λ r : list num * list num * list num,
     (head r.1.1, head r.1.2, head r.2)) <$>
    binanalysis (replicate 30 (Fin 0)) (replicate 30 (Fin 0))
      (replicate 30 (Fin 3)) (replicate 30 (Fin 1)) ex_lon ex_lat
      sigma2_min_default
  = Some (Some (Fin (67500 # 22500)), Some (Fin (2250 # 30)),
          Some (Fin (750 # 30))).
Proof. vm_compute. reflexivity. Qed.
(** ** The generator: what it needs and what it leaves alone *)

Section needs_cells.
Context (np_sqrt np_cos np_sin : num → num) (math_pi : num).
Context (uniform randn : nat → num) (month_index : Z → Z).
Context (lon lat : list num).
Context (obsvalue obslon obslat obsdepth : list num) (obstime : list Z).
Context (jlon jlat jsv : num).

Local Abbreviation body train :=
  (datagen_body np_sqrt np_cos np_sin math_pi uniform randn month_index
     lon lat obsvalue obslon obslat obsdepth obstime train jlon jlat jsv).
Local Abbreviation binned :=
  (month_binned month_index lon lat obsvalue obslon obslat obstime).
Local Abbreviation clean := (clean_tensor np_cos np_sin math_pi lon lat).
Local Abbreviation ncell := (length lat * length lon)%nat.

(** X10: the loop of lines 244-250 has no other exit than a gap of at least
    50 cells with data.  In a month in which fewer than 50 grid cells hold
    an observation (on a grid of fewer than 50 cells: in every month) no
    candidate can reach that count, and the training generator yields
    nothing, whatever the random draws and however long it runs. *)
Theorem datagen_training_needs_fifty_cells fuel month s mmean msum minv :
  month_binned month_index lon lat obsvalue obslon obslat obstime month
    = Some (mmean, msum, minv) →
  (count_true (map (λ m, ngt m (Fin 0)) minv) < min_gap_count)%nat →
  datagen_body np_sqrt np_cos np_sin math_pi uniform randn month_index
    lon lat obsvalue obslon obslat obsdepth obstime true jlon jlat jsv
    fuel month s = None.
Proof.
  intros Hb Hfew.
  destruct (body true fuel month s) as [[[xin x] s']|] eqn:E; [|done].
  exfalso.
  apply datagen_body_train in E
    as (mmean' & msum' & minv' & s1 & s2 & s3 & selmask & Hb' & Lm & Hne & Hx
        & Hxin & Hpos & Hnoise & Hh2 & Hloop & Lsel & Hgap & Hh').
  rewrite Hb in Hb'. simplify_eq.
  apply gap_loop_inv in Hloop
    as (_ & _ & lon0 & lonN & lat0 & latN & n & tx & txin & _ & _ & _ & _
        & Htx & Htxin & _ & _ & Hsel & Hcount).
  rewrite Hh2, lookup_insert_eq in Htxin. injection Htxin as <-.
  assert (count_true selmask
          <= count_true (map (λ m, ngt m (Fin 0)) minv'))%nat; [|lia].
  apply count_true_mono. intros k Hk.
  assert (k < ncell)%nat as Hkn.
  { rewrite <- Lsel. by eapply lookup_lt_Some. }
  rewrite Hsel in Hk. apply gap_mask_positive in Hk as (b1 & Hb1 & Hgt).
  destruct (noise_clean_cell np_cos np_sin math_pi randn lon lat jlon jlat jsv
              (np_pos s1) month msum' minv' k Lm Hkn)
    as (a0 & m & a2 & a3 & a4 & a5 & b0 & b1' & b2 & b3 & Hm & _ & Hn & Himp).
  rewrite (lookup_channel 1 _ _ _ Hn) in Hb1. simpl in Hb1.
  injection Hb1 as <-.
  rewrite list_lookup_fmap, Hm. simpl. by rewrite Himp.
Qed.

(** X11: every sample the training generator yields has a gap: at least 50
    cells in which the clean tensor, and so the target, has a positive
    inverse variance, while channels 0 and 1 of the input are zero. *)
Theorem datagen_training_blanks_fifty_cells fuel month s xin x s' :
  datagen_body np_sqrt np_cos np_sin math_pi uniform randn month_index
    lon lat obsvalue obslon obslat obsdepth obstime true jlon jlat jsv
    fuel month s = Some ((xin, x), s') →
  ∃ (t_in target : tensor) (selmask : list bool),
    yielded s' (xin, x) = Some (t_in, target) ∧
    length selmask = (length lat * length lon)%nat ∧
    (min_gap_count <= count_true selmask)%nat ∧
    ∀ k, selmask !! k = Some true →
      ∃ b2 b3 b4 b5 a0 a1,
        t_in !! k = Some [Fin 0; Fin 0; b2; b3; b4; b5] ∧
        target !! k = Some [a0; a1] ∧
        ngt a1 (Fin 0) = true.
Proof.
  intros E.
  apply datagen_body_train in E
    as (mmean & msum & minv & s1 & s2 & s3 & selmask & Hb & Lm & Hne & Hx
        & Hxin & Hpos & Hnoise & Hh2 & Hloop & Lsel & Hgap & Hh').
  apply gap_loop_inv in Hloop
    as (_ & _ & lon0 & lonN & lat0 & latN & n & tx & txin & _ & _ & _ & _
        & Htx & Htxin & _ & _ & Hsel & Hcount).
  rewrite Hh2, lookup_insert_eq in Htxin. injection Htxin as <-.
  eexists _, _, selmask. split.
  { unfold yielded. simpl. rewrite Hh', lookup_insert_eq. simpl.
    rewrite lookup_insert_ne by done. rewrite Hx. done. }
  split; [done|]. split; [done|].
  intros k Hk.
  assert (k < ncell)%nat as Hkn.
  { rewrite <- Lsel. by eapply lookup_lt_Some. }
  destruct (noise_clean_cell np_cos np_sin math_pi randn lon lat jlon jlat jsv
              (np_pos s1) month msum minv k Lm Hkn)
    as (a0 & m & a2 & a3 & a4 & a5 & b0 & b1 & b2 & b3 & Hm & Hc & Hn & Himp).
  pose proof Hk as Hk'. rewrite Hsel in Hk'.
  apply gap_mask_positive in Hk' as (b1' & Hb1 & Hgt).
  rewrite (lookup_channel 1 _ _ _ Hn) in Hb1. simpl in Hb1.
  injection Hb1 as <-.
  exists b2, b3, a4, a5, a0, m.
  split; [|split].
  - by rewrite (gap_tensor_cell selmask _ k _ _ _ _ _ _ true Hn Hk).
  - by rewrite list_lookup_fmap, Hc.
  - by apply Himp.
Qed.

(** X12: an iteration of the generator allocates its two arrays and writes to
    no other: [x] and [xin] are two different arrays that did not exist
    before, and every array that existed, the ones of the samples yielded
    earlier among them, is as it was. *)
Theorem datagen_body_writes_fresh_arrays train fuel month s xin x s' :
  datagen_body np_sqrt np_cos np_sin math_pi uniform randn month_index
    lon lat obsvalue obslon obslat obsdepth obstime train jlon jlat jsv
    fuel month s = Some ((xin, x), s') →
  x ≠ xin ∧ heap s !! x = None ∧ heap s !! xin = None ∧
  ∀ l t, heap s !! l = Some t → heap s' !! l = Some t.
Proof.
  intros (mmean & msum & minv & s2 & Hb & Lm & -> & -> & Hne & H1 & H2)
    %datagen_body_inv.
  set (x := fresh (dom (heap s))) in *.
  set (xin := fresh (dom (<[x := clean month msum minv]> (heap s)))) in *.
  assert (heap s !! x = None) as Hfx by apply fresh_not_in_heap.
  assert (heap s !! xin = None) as Hfxin.
  { pose proof (fresh_not_in_heap (<[x := clean month msum minv]> (heap s)))
      as Hf. fold xin in Hf.
    by rewrite lookup_insert_ne in Hf. }
  split; [done|]. split; [done|]. split; [done|].
  intros l t Hl.
  assert (l ≠ x) as Hlx by (intros ->; congruence).
  assert (l ≠ xin) as Hlxin by (intros ->; congruence).
  destruct train.
  - set (s1 := State _ _ _) in H1.
    assert (heap s1 !! xin = Some (clean month msum minv)) as Hxin.
    { unfold s1. simpl. apply lookup_insert_eq. }
    rewrite (noise_step_run _ _ _ _ _ _ _ _ _ _ Hxin) in H1;
      [|apply length_clean_tensor|by rewrite length_clean_tensor].
    simplify_eq.
    destruct (gap_step_inv _ _ _ _ _ _ _ _ _ _ H2)
      as (selmask & s3 & txin & _ & _ & _ & ->).
    simpl. rewrite !lookup_insert_ne by done. done.
  - unfold ret in H1, H2. simplify_eq. simpl.
    rewrite !lookup_insert_ne by done. done.
Qed.
End needs_cells.
(** On the small grid of six cells the training generator yields nothing
    and the generator for testing does. *)
Example datagen_small_grid :
  ex_datagen_body true 20 1 = None ∧ is_Some (ex_datagen_body false 0 1).
Proof. split; [vm_compute; reflexivity|]. vm_compute. by eexists. Qed.

Lemma datagen_training_needs_fifty_cells_witness :
  ex_datagen_body true 20 1 = None.
Proof.
  unfold ex_datagen_body.
  apply (datagen_training_needs_fifty_cells sqrt_floor cos_at_zero
           sin_at_zero pi_approx run_uniform run_randn month_index_1970
           ex_lon ex_lat ex_obsvalue ex_obslon ex_obslat ex_obsdepth
           ex_obstime (Fin (1 # 10)) (Fin (1 # 10)) (Fin (1 # 2)) 20 1 state0
           [Fin (6 # 3); NaN; NaN; NaN; NaN; Fin (-1)]
           [Fin 6; Fin 0; Fin 0; Fin 0; Fin 0; Fin (-1)]
           [Fin 3; Fin 0; Fin 0; Fin 0; Fin 0; Fin 1]).
  - vm_compute. reflexivity.
  - vm_compute. lia.
Defined.

Lemma datagen_training_blanks_fifty_cells_witness :
  ∃ xin x s' (t_in target : tensor) (selmask : list bool),
    run_datagen_body true 1 = Some ((xin, x), s') ∧
    yielded s' (xin, x) = Some (t_in, target) ∧
    length selmask = (length run_lat * length run_lon)%nat ∧
    (min_gap_count <= count_true selmask)%nat ∧
    ∀ k, selmask !! k = Some true →
      ∃ b2 b3 b4 b5 a0 a1,
        t_in !! k = Some [Fin 0; Fin 0; b2; b3; b4; b5] ∧
        target !! k = Some [a0; a1] ∧
        ngt a1 (Fin 0) = true.
Proof.
  unfold run_datagen_body.
  destruct (datagen_body _ _ _ _ _ _ _ _ _ _ _ _ _ _ _ _ _ _ _ _ _)
    as [[[xin x] s']|] eqn:E; [|vm_compute in E; discriminate E].
  destruct (datagen_training_blanks_fifty_cells _ _ _ _ _ _ _ _ _ _ _ _ _ _
              _ _ _ _ _ _ _ _ _ E) as (t_in & target & selmask & H).
  exists xin, x, s', t_in, target, selmask. split; [reflexivity|exact H].
Defined.

Lemma datagen_body_writes_fresh_arrays_witness :
  ∃ xin x s',
    run_datagen_body true 1 = Some ((xin, x), s') ∧
    x ≠ xin ∧ heap state0 !! x = None ∧ heap state0 !! xin = None ∧
    ∀ l t, heap state0 !! l = Some t → heap s' !! l = Some t.
Proof.
  unfold run_datagen_body.
  destruct (datagen_body _ _ _ _ _ _ _ _ _ _ _ _ _ _ _ _ _ _ _ _ _)
    as [[[xin x] s']|] eqn:E; [|vm_compute in E; discriminate E].
  exists xin, x, s'. split; [reflexivity|].
  exact (datagen_body_writes_fresh_arrays _ _ _ _ _ _ _ _ _ _ _ _ _ _ _ _ _
           _ _ _ _ _ _ _ E).
Defined.
(** ** The generator for testing *)

Section test_generator.
Context (np_cos np_sin : num → num) (math_pi : num) (month_index : Z → Z).
Context (lon lat : list num).
Context (obsvalue obslon obslat obsdepth : list num) (obstime : list Z).

Local Abbreviation gen np_sqrt uniform randn jlon jlat jsv fuel :=
  (datagen_months np_sqrt np_cos np_sin math_pi uniform randn month_index
     lon lat obsvalue obslon obslat obsdepth obstime false jlon jlat jsv fuel).

(** With [train=False] nothing of the random streams, of the jitter
    parameters or of the square root enters an iteration. *)
Lemma datagen_months_test_params
    np_sqrt uniform randn jlon jlat jsv fuel
    np_sqrt' uniform' randn' jlon' jlat' jsv' fuel' months s :
  gen np_sqrt uniform randn jlon jlat jsv fuel months s
  = gen np_sqrt' uniform' randn' jlon' jlat' jsv' fuel' months s.
Proof.
  revert s. induction months as [|month months IH]; intros s; [done|].
  simpl.
  assert (datagen_body np_sqrt np_cos np_sin math_pi uniform randn
            month_index lon lat obsvalue obslon obslat obsdepth obstime
            false jlon jlat jsv fuel month s
          = datagen_body np_sqrt' np_cos np_sin math_pi uniform' randn'
              month_index lon lat obsvalue obslon obslat obsdepth obstime
              false jlon' jlat' jsv' fuel' month s) as ->.
  { unfold datagen_body. cbv iota. reflexivity. }
  destruct (datagen_body _ _ _ _ _ _ _ _ _ _ _ _ _ _ _ _ _ _ _ _ _)
    as [[p s1]|]; [|done].
  simpl. destruct (yielded s1 p); [|done]. simpl. by rewrite IH.
Qed.

Lemma datagen_months_test_positions
    np_sqrt uniform randn jlon jlat jsv fuel months s smps s' :
  gen np_sqrt uniform randn jlon jlat jsv fuel months s = Some (smps, s') →
  length smps = length months ∧
  py_pos s' = py_pos s ∧ np_pos s' = np_pos s.
Proof.
  revert s smps. induction months as [|month months IH]; intros s smps H.
  { simpl in H. by simplify_eq. }
  simpl in H.
  apply bind_Some in H as ([[xin x] s1] & Hbody & H). simpl in H.
  apply bind_Some in H as (smp & Hy & H).
  apply bind_Some in H as ([smps' s2] & Hrest & H). simpl in H. simplify_eq.
  destruct (IH _ _ Hrest) as (Hl & Hp & Hn).
  apply datagen_body_inv in Hbody
    as (mmean & msum & minv & s2' & _ & _ & _ & _ & _ & H1 & H2).
  unfold ret in H1, H2. simplify_eq. simpl in *.
  split; [by rewrite Hl|]. done.
Qed.

(** X13: the generator for testing draws no random number: a run that
    returns yields twelve samples and leaves the positions in both random
    streams where they were; and the same samples come out for every
    other random stream, jitter, square root and bound on the gap loop. *)
Theorem datagen_test_draws_nothing
    np_sqrt uniform randn jlon jlat jsv fuel s smps s' :
  datagen np_sqrt np_cos np_sin math_pi uniform randn month_index
    lon lat obsvalue obslon obslat obsdepth obstime false jlon jlat jsv
    fuel s = Some (smps, s') →
  length smps = 12%nat ∧
  py_pos s' = py_pos s ∧ np_pos s' = np_pos s ∧
  ∀ np_sqrt' uniform' randn' jlon' jlat' jsv' fuel',
    datagen np_sqrt' np_cos np_sin math_pi uniform' randn' month_index
      lon lat obsvalue obslon obslat obsdepth obstime false jlon' jlat' jsv'
      fuel' s = Some (smps, s').
Proof.
  unfold datagen. intros H.
  destruct (datagen_months_test_positions _ _ _ _ _ _ _ _ _ _ _ H)
    as (Hl & Hp & Hn).
  split; [by rewrite Hl, length_map, length_seq|].
  split; [done|]. split; [done|].
  intros. rewrite <- H. apply datagen_months_test_params.
Qed.
End test_generator.

Lemma datagen_test_draws_nothing_witness :
  ∃ smps s',
    run_datagen false 0 = Some (smps, s') ∧
    length smps = 12%nat ∧
    py_pos s' = py_pos state0 ∧ np_pos s' = np_pos state0 ∧
    ∀ np_sqrt' uniform' randn' jlon' jlat' jsv' fuel',
      datagen np_sqrt' cos_at_zero sin_at_zero pi_approx uniform' randn'
        month_index_1970 run_lon run_lat run_obsvalue run_obslon run_obslat
        run_obsdepth run_obstime false jlon' jlat' jsv' fuel' state0
      = Some (smps, s').
Proof.
  unfold run_datagen.
  destruct (datagen _ _ _ _ _ _ _ _ _ _ _ _ _ _ _ _ _ _ _ _)
    as [[smps s']|] eqn:E; [|vm_compute in E; discriminate E].
  exists smps, s'. split; [reflexivity|].
  exact (datagen_test_draws_nothing _ _ _ _ _ _ _ _ _ _ _ _ _ _ _ _ _ _ _ _
           _ E).
Defined.
(** ** From the observation file to the samples *)

(** The binning of a month returns for every grid of at least two points
    per axis and observation arrays of one length. *)
Lemma month_binned_total month_index lon lat obsvalue obslon obslat
    (obstime : list Z) month :
  (2 <= length lon)%nat → (2 <= length lat)%nat →
  Z.of_nat (length lat) * Z.of_nat (length lon) < 2 ^ 63 →
  length obsvalue = length obstime → length obslon = length obstime →
  length obslat = length obstime →
  is_Some (month_binned month_index lon lat obsvalue obslon obslat obstime
             month).
Proof.
  intros (lon0 & lon1 & Hlon0 & Hlon1)%lookup_two_of_length.
  intros (lat0 & lat1 & Hlat0 & Hlat1)%lookup_two_of_length.
  intros Hsize Hv Hlo Hla. unfold month_binned.
  set (sel := map (Z.eqb month) (obsmonths month_index obstime)).
  assert (length sel = length obstime) as Ls.
  { unfold sel, obsmonths. by rewrite !length_map. }
  rewrite !getmask_run by lia. simpl.
  assert (same_length4 (select sel obslon) (select sel obslat)
            (map (λ v, nsub v meandataval) (select sel obsvalue))
            (replicate (length (select sel obsvalue)) (Fin 1)) = true) as Hlen.
  { apply same_length4_spec.
    rewrite length_map, length_replicate, !length_select by lia. done. }
  destruct (binanalysis_accumulate_cells _ _ _ _ _ _ _ _ _ _
              Hlon0 Hlon1 Hlat0 Hlat1 Hlen Hsize)
    as (msum0 & minv0 & Hacc & Lsum & Lm & _).
  destruct (binanalysis_result _ _ _ _ _ _ sigma2_min_default _ _ Hacc Lsum Lm)
    as (mmean & Hres & _).
  simpl in Hres. rewrite Hres. by eexists.
Qed.

Section pipeline.
Context (np_sqrt np_cos np_sin : num → num) (math_pi : num).
Context (uniform randn : nat → num) (month_index : Z → Z).
Context (lon lat : list num).
Context (jlon jlat jsv : num).

(** X14: the module runs [loadobs] and hands its five arrays to the generator
    (lines 155 and 352).  Whatever the file holds, when [loadobs] returns
    and the grid has at least two points on each axis, the generator for
    testing runs through: it yields its twelve samples, one per month,
    months without observations included. *)
Theorem loadobs_feeds_test_generator
    (fs : gmap string dataset) fname varname v lo la d t fuel s :
  (2 <= length lon)%nat → (2 <= length lat)%nat →
  Z.of_nat (length lat) * Z.of_nat (length lon) < 2 ^ 63 →
  loadobs fs lon lat fname varname = Some (v, lo, la, d, t) →
  ∃ smps s',
    datagen np_sqrt np_cos np_sin math_pi uniform randn month_index
      lon lat v lo la d t false jlon jlat jsv fuel s = Some (smps, s') ∧
    length smps = 12%nat.
Proof.
  intros Hlon Hlat Hsize Hload.
  apply loadobs_inv in Hload
    as (lon0 & lonN & lat0 & latN & R & _ & _ & _ & _ & Hv & Hlo & Hla & Hd & Ht).
  set (K := filter _ R) in *.
  assert (length v = length t ∧ length lo = length t ∧ length la = length t
          ∧ length d = length t) as (Lv & Llo & Lla & Ld).
  { subst. by rewrite !length_map. }
  assert (∀ months s0,
            is_Some (datagen_months np_sqrt np_cos np_sin math_pi uniform
                       randn month_index lon lat v lo la d t false
                       jlon jlat jsv fuel months s0)) as Hrun.
  { induction months as [|month months IH]; intros s0; [by eexists|].
    destruct (month_binned_total month_index lon lat v lo la t month
                Hlon Hlat Hsize Lv Llo Lla) as [[[mmean msum] minv] Hb].
    destruct (datagen_body_test_run np_sqrt np_cos np_sin math_pi uniform
                randn month_index lon lat v lo la d t jlon jlat jsv fuel
                month s0 mmean msum minv Hb Ld) as [[[xin x] s1] Hbody].
    destruct (datagen_body_test _ _ _ _ _ _ _ _ _ _ _ _ _ _ _ _ _ _ _ _ _ _ _
                Hbody) as (? & ? & ? & _ & Hy).
    destruct (IH s1) as [[smps s2] Hrest].
    simpl. rewrite Hbody. simpl. rewrite Hy. simpl. rewrite Hrest. simpl.
    by eexists. }
  destruct (Hrun (map Z.of_nat (seq 1 ntime)) s) as [[smps s'] Hsome].
  exists smps, s'. split; [exact Hsome|].
  apply datagen_months_samples in Hsome as [Hl _].
  by rewrite Hl, length_map, length_seq.
Qed.
End pipeline.

Lemma loadobs_feeds_test_generator_witness :
  ∃ smps s',
    datagen sqrt_floor cos_at_zero sin_at_zero pi_approx run_uniform
      run_randn month_index_1970 ex_lon ex_lat
      [Fin 16; Fin (-2)] [Fin (1 # 2); Fin (3 # 2)]
      [Fin (1 # 2); Fin (1 # 2)] [Fin 5; Fin 0]
      [-2208988800; -2208859200] false
      (Fin (1 # 10)) (Fin (1 # 10)) (Fin (1 # 2)) 0 state0
      = Some (smps, s') ∧
    length smps = 12%nat.
Proof.
  apply (loadobs_feeds_test_generator sqrt_floor cos_at_zero sin_at_zero
           pi_approx run_uniform run_randn month_index_1970 ex_lon ex_lat
           (Fin (1 # 10)) (Fin (1 # 10)) (Fin (1 # 2))
           ex_fs "Temperature.train.nc" "Temperature").
  - simpl. lia.
  - simpl. lia.
  - reflexivity.
  - vm_compute. reflexivity.
Defined.
(** ** savesample: batches and errors *)

Section savesample_batches.
Context (np_sqrt : num → num) (meandata : marray).

Lemma save_row_same X sX Y sY offset f n :
  X !! n = Y !! n → sX !! n = sY !! n →
  save_row X sX meandata offset f n = save_row Y sY meandata offset f n.
Proof. intros H1 H2. unfold save_row. by rewrite H1, H2. Qed.

Lemma save_row_shift X sX Y sY offset a f n :
  X !! (n + a)%nat = Y !! n → sX !! (n + a)%nat = sY !! n →
  save_row X sX meandata offset f (n + a)
  = save_row Y sY meandata (offset + a) f n.
Proof.
  intros H1 H2. unfold save_row. rewrite H1, H2.
  by replace (n + a + offset)%nat with (n + (offset + a))%nat by lia.
Qed.

Lemma save_rows_app X sX offset f ns1 ns2 :
  save_rows X sX meandata offset f (ns1 ++ ns2) =
    (f1 ← save_rows X sX meandata offset f ns1;
     save_rows X sX meandata offset f1 ns2).
Proof.
  revert f. induction ns1 as [|n ns1 IH]; intros f; simpl; [done|].
  destruct (save_row X sX meandata offset f n) as [f1|]; simpl; [|done].
  apply IH.
Qed.

Lemma save_rows_same X sX Y sY offset f ns :
  (∀ n, n ∈ ns → X !! n = Y !! n ∧ sX !! n = sY !! n) →
  save_rows X sX meandata offset f ns = save_rows Y sY meandata offset f ns.
Proof.
  revert f. induction ns as [|n ns IH]; intros f H; simpl; [done|].
  destruct (H n) as [H1 H2]; [by left|].
  rewrite (save_row_same X sX Y sY offset f n H1 H2).
  destruct (save_row Y sY meandata offset f n) as [f1|]; simpl; [|done].
  apply IH. intros n' Hn'. apply H. by right.
Qed.

Lemma save_rows_shift X sX Y sY offset a f ns :
  (∀ n, n ∈ ns → X !! (n + a)%nat = Y !! n ∧ sX !! (n + a)%nat = sY !! n) →
  save_rows X sX meandata offset f (map (λ n, n + a)%nat ns)
  = save_rows Y sY meandata (offset + a) f ns.
Proof.
  revert f. induction ns as [|n ns IH]; intros f H; simpl; [done|].
  destruct (H n) as [H1 H2]; [by left|].
  rewrite (save_row_shift X sX Y sY offset a f n H1 H2).
  destruct (save_row Y sY meandata (offset + a) f n) as [f1|]; simpl; [|done].
  apply IH. intros n' Hn'. apply H. by right.
Qed.

Lemma seq_shift_add (a s n : nat) :
  map (λ k, k + a)%nat (seq s n) = seq (s + a) n.
Proof.
  revert s. induction n as [|n IH]; intros s; simpl; [done|].
  f_equal. apply (IH (S s)).
Qed.

(** X15: writing a batch in two calls, the second one appending at the offset
    where the first one stopped, gives what writing it in one call gives:
    the same file when both return, and no file when one of them
    raises. *)
Theorem savesample_in_two_batches
    (fs : gmap string ncfile) (fname : string)
    (A sA B sB : list (list num)) (lon lat : list num) (ii0 ii : Z)
    (offset : nat) :
  length sA = length A → ii ≠ 0 →
  savesample np_sqrt fs fname (A ++ B) (sA ++ sB) meandata lon lat ii0 offset
  = (fs1 ← savesample np_sqrt fs fname A sA meandata lon lat ii0 offset;
     savesample np_sqrt fs1 fname B sB meandata lon lat ii
       (offset + length A)).
Proof.
  intros HsA Hii. unfold savesample.
  destruct (if ii0 =? 0 then _ else _) as [root|]; simpl; [|done].
  rewrite length_app, seq_app, save_rows_app. simpl.
  rewrite (save_rows_same (A ++ B) (map (map np_sqrt) (sA ++ sB))
             A (map (map np_sqrt) sA)).
  2:{ intros n Hn%elem_of_seq. split.
      - apply lookup_app_l. lia.
      - rewrite map_app. apply lookup_app_l. rewrite length_map. lia. }
  destruct (save_rows A _ meandata offset root (seq 0 (length A)))
    as [f1|]; simpl; [|done].
  destruct (Z.eqb_spec ii 0) as [|_]; [done|].
  rewrite lookup_insert_eq. simpl.
  replace (seq (length A) (length B))
    with (map (λ n, n + length A)%nat (seq 0 (length B))).
  2:{ apply (seq_shift_add (length A) 0). }
  rewrite (save_rows_shift (A ++ B) (map (map np_sqrt) (sA ++ sB))
             B (map (map np_sqrt) sB)).
  2:{ intros n Hn. split.
      - rewrite lookup_app_r by lia. f_equal. lia.
      - rewrite map_app, lookup_app_r by (rewrite length_map; lia).
        rewrite length_map. f_equal. lia. }
  destruct (save_rows B _ meandata _ f1 _) as [f2|]; simpl; [|done].
  by rewrite insert_insert_eq.
Qed.
End savesample_batches.

Lemma savesample_in_two_batches_witness :
  savesample sqrt_floor ∅ "out.nc"
    (take 1 ex_batch_m_rec ++ drop 1 ex_batch_m_rec)
    (take 1 ex_batch_sigma2_rec ++ drop 1 ex_batch_sigma2_rec)
    ex_meandata ex_lon ex_lat 0 0
  = (fs1 ← savesample sqrt_floor ∅ "out.nc" (take 1 ex_batch_m_rec)
             (take 1 ex_batch_sigma2_rec) ex_meandata ex_lon ex_lat 0 0;
     savesample sqrt_floor fs1 "out.nc" (drop 1 ex_batch_m_rec)
       (drop 1 ex_batch_sigma2_rec) ex_meandata ex_lon ex_lat 1
       (0 + length (take 1 ex_batch_m_rec))).
Proof.
  apply (savesample_in_two_batches sqrt_floor ex_meandata ∅ "out.nc"
           (take 1 ex_batch_m_rec) (take 1 ex_batch_sigma2_rec)
           (drop 1 ex_batch_m_rec) (drop 1 ex_batch_sigma2_rec)
           ex_lon ex_lat 0 1 0).
  - reflexivity.
  - lia.
Defined.

(** A mask of another size than the data, and not of one element, is
    refused. *)
Lemma masked_array_refused (data : list num) (mask : list bool) :
  length data ≠ length mask → length mask ≠ 1%nat →
  masked_array data mask = None.
Proof.
  intros Hne Hone. unfold masked_array.
  destruct (Nat.eqb_spec (length mask) (length data)) as [E|_]; [lia|].
  by destruct mask as [|m [|m' mask]].
Qed.

Section savesample_raises.
Context (np_sqrt : num → num) (meandata : marray).

(** A row that cannot be written makes the loop over the rows fail,
    whatever was written before it. *)
Lemma save_rows_fails X sX offset f ns n :
  n ∈ ns → (∀ f', save_row X sX meandata offset f' n = None) →
  save_rows X sX meandata offset f ns = None.
Proof.
  revert f. induction ns as [|n' ns IH]; intros f Hn Hfail.
  { by apply not_elem_of_nil in Hn. }
  simpl. destruct (save_row X sX meandata offset f n') as [f1|] eqn:E;
    simpl; [|done].
  apply elem_of_cons in Hn as [->|Hn]; [by rewrite Hfail in E|].
  by apply IH.
Qed.

(** X16: [savesample] raises when it is to append to a file that does not
    exist, when a row of one of the two batches has not the size of the
    mask of [meandata] and that mask has more than one element or none
    ("Mask and data not compatible"), and when [batch_σ2_rec] has fewer
    rows than [batch_m_rec]. *)
Theorem savesample_raises
    (fs : gmap string ncfile) (fname : string)
    (batch_m_rec batch_sigma2_rec : list (list num))
    (lon lat : list num) (ii : Z) (offset : nat) :
  (ii ≠ 0 ∧ fs !! fname = None) ∨
  (∃ n row, batch_m_rec !! n = Some row ∧
            length row ≠ length (ma_mask meandata) ∧
            length (ma_mask meandata) ≠ 1%nat) ∨
  (∃ n srow, (n < length batch_m_rec)%nat ∧
             batch_sigma2_rec !! n = Some srow ∧
             length srow ≠ length (ma_mask meandata) ∧
             length (ma_mask meandata) ≠ 1%nat) ∨
  (length batch_sigma2_rec < length batch_m_rec)%nat →
  savesample np_sqrt fs fname batch_m_rec batch_sigma2_rec meandata
    lon lat ii offset = None.
Proof.
  intros H. unfold savesample.
  destruct H as [[Hii Hnone]|H].
  { destruct (Z.eqb_spec ii 0); [done|]. by rewrite Hnone. }
  destruct (if ii =? 0 then _ else _) as [root|]; simpl; [|done].
  assert (∃ n, (n < length batch_m_rec)%nat ∧
               ∀ f', save_row batch_m_rec (map (map np_sqrt) batch_sigma2_rec)
                       meandata offset f' n = None) as (n & Hn & Hfail).
  { destruct H as [(n & row & Hrow & Hlen & Hone)
                  |[(n & srow & Hn & Hsrow & Hlen & Hone)|Hlt]].
    - exists n. split; [by eapply lookup_lt_Some|].
      intros f'. unfold save_row. rewrite Hrow. simpl.
      by rewrite masked_array_refused.
    - exists n. split; [done|].
      intros f'. unfold save_row.
      destruct (batch_m_rec !! n) as [row|]; simpl; [|done].
      destruct (masked_array row _) as [m|]; simpl; [|done].
      destruct (ma_add m meandata) as [m'|]; simpl; [|done].
      destruct (record_data f' (filled m')) as [g|]; simpl; [|done].
      rewrite list_lookup_fmap, Hsrow. simpl.
      by rewrite masked_array_refused by (by rewrite ?length_map).
    - exists (length batch_sigma2_rec). split; [done|].
      intros f'. unfold save_row.
      destruct (batch_m_rec !! _) as [row|]; simpl; [|done].
      destruct (masked_array row _) as [m|]; simpl; [|done].
      destruct (ma_add m meandata) as [m'|]; simpl; [|done].
      destruct (record_data f' (filled m')) as [g|]; simpl; [|done].
      rewrite list_lookup_fmap.
      rewrite (lookup_ge_None_2 batch_sigma2_rec) by lia. done. }
  rewrite (save_rows_fails _ _ _ _ _ n); [done| |done].
  apply elem_of_seq. lia.
Qed.
End savesample_raises.

Lemma savesample_raises_witness :
  savesample sqrt_floor ∅ "out.nc" [replicate 4 (Fin 1)]
    ex_batch_sigma2_rec ex_meandata ex_lon ex_lat 0 0 = None.
Proof.
  apply (savesample_raises sqrt_floor ex_meandata ∅ "out.nc"
           [replicate 4 (Fin 1)] ex_batch_sigma2_rec ex_lon ex_lat 0 0).
  right. left. exists 0%nat, (replicate 4 (Fin 1)).
  split; [reflexivity|]. split; [simpl; lia|simpl; lia].
Defined.

(** Too few rows of variances for the rows of means. *)
Example savesample_too_few_variances :
  savesample sqrt_floor ∅ "out.nc" ex_batch_m_rec
    (take 1 ex_batch_sigma2_rec) ex_meandata ex_lon ex_lat 0 0 = None.
Proof. vm_compute. reflexivity. Qed.

(** ** monthlyCVRMS: months without a finite value, and the fields read *)

Lemma nadd_nan_r a : nadd a NaN = NaN.
Proof. by destruct a. Qed.

Lemma fold_nadd_nan_acc l : fold_left nadd l NaN = NaN.
Proof. induction l as [|x l IH]; simpl; [done|]. exact IH. Qed.

Lemma fold_nadd_nan l acc : NaN ∈ l → fold_left nadd l acc = NaN.
Proof.
  revert acc. induction l as [|x l IH]; intros acc H.
  { by apply not_elem_of_nil in H. }
  simpl. apply elem_of_cons in H as [<-|H].
  - rewrite nadd_nan_r. apply fold_nadd_nan_acc.
  - by apply IH.
Qed.

Lemma np_mean_nan l : NaN ∈ l → np_mean l = NaN.
Proof. intros H. unfold np_mean, nsum. by rewrite fold_nadd_nan. Qed.

Section monthlyCVRMS_more.
Context (np_sqrt : num → num) (month_index : Z → Z).
Context (interpn :
  list num * list num → list num → list (num * num) → option (list num)).
Context (lon lat : list num).
Context (obsvalue obslon obslat obsdepth : list num) (obstime : list Z).

Local Abbreviation sel := (month_sel month_index obstime).
Local Abbreviation points :=
  (month_points month_index obstime obslat obslon).
Local Abbreviation score value :=
  (month_score np_sqrt month_index interpn lon lat value obsvalue obslon
     obslat obsdepth obstime).
Local Abbreviation cvrms value :=
  (monthlyCVRMS np_sqrt month_index interpn lon lat value obsvalue obslon
     obslat obsdepth obstime).

(** What a monthly value that is returned was computed from. *)
Lemma month_score_inv value month r :
  score value month = Some r →
  ∃ field mclim,
    value !! month = Some field ∧
    interpn (lat, lon) field (points month) = Some mclim ∧
    length mclim = length (select (sel month) obsvalue) ∧
    r = rms_finite np_sqrt mclim (select (sel month) obsvalue).
Proof.
  unfold month_score. fold (sel month). intros H.
  apply bind_Some in H as (mv & [_ ->]%getmask_Some & H).
  apply bind_Some in H as (mlo & [_ ->]%getmask_Some & H).
  apply bind_Some in H as (mla & [_ ->]%getmask_Some & H).
  apply bind_Some in H as (md & _ & H).
  apply bind_Some in H as (mt & _ & H).
  apply bind_Some in H as (field & Hf & H).
  unfold month_rms in H.
  apply bind_Some in H as (mclim & Hi & H).
  apply bind_Some in H as (a & [_ ->]%getmask_Some & H).
  apply bind_Some in H as (b & [Lb ->]%getmask_Some & H).
  rewrite length_map in Lb. injection H as <-.
  exists field, mclim. split; [done|]. split; [exact Hi|]. split; [done|].
  unfold rms_finite. rewrite select_pairs_finite by done.
  by rewrite map_map.
Qed.

Lemma monthlyCVRMS_inv value RMS totRMS :
  cvrms value = Some (RMS, totRMS) →
  length RMS = 12%nat ∧ totRMS = np_sqrt (np_mean (map nsq RMS)) ∧
  ∀ month, (month < 12)%nat →
    ∃ r, RMS !! month = Some r ∧ score value month = Some r.
Proof.
  unfold monthlyCVRMS. intros H.
  apply bind_Some in H as (RMS' & HM & H). injection H as -> <-.
  apply mapM_Some in HM.
  split; [|split; [done|]].
  { apply Forall2_length in HM. by rewrite length_seq in HM. }
  intros month Hm.
  destruct (Forall2_lookup_l _ _ _ month month HM) as (r & Hr & Hs).
  { by apply lookup_seq_lt. }
  eauto.
Qed.

(** X17: a month for which no interpolated value is finite (a month without
    observations, or one whose observations all lie where the
    reconstruction is NaN) has the monthly value NaN, the mean of an empty
    array, and it makes the total NaN. *)
Theorem monthlyCVRMS_nan_month value RMS totRMS month field mclim :
  np_sqrt NaN = NaN →
  monthlyCVRMS np_sqrt month_index interpn lon lat value obsvalue obslon
    obslat obsdepth obstime = Some (RMS, totRMS) →
  (month < 12)%nat →
  value !! month = Some field →
  interpn (lat, lon) field
    (month_points month_index obstime obslat obslon month) = Some mclim →
  Forall (λ c, isfinite c = false) mclim →
  RMS !! month = Some NaN ∧ totRMS = NaN.
Proof.
  intros Hsqrt Hrun Hm Hf Hi Hnan.
  apply monthlyCVRMS_inv in Hrun as (_ & -> & Hmonths).
  destruct (Hmonths month Hm) as (r & Hr & Hs).
  apply month_score_inv in Hs as (field' & mclim' & Hf' & Hi' & _ & ->).
  rewrite Hf in Hf'. injection Hf' as <-.
  rewrite Hi in Hi'. injection Hi' as <-.
  assert (rms_finite np_sqrt mclim (select (sel month) obsvalue) = NaN) as E.
  { unfold rms_finite. rewrite filter_none; [done|].
    intros [c o] Hin Hfin. simpl in Hfin.
    apply elem_of_zip_l in Hin. simpl in Hin.
    rewrite Forall_forall in Hnan. rewrite (Hnan c Hin) in Hfin. done. }
  rewrite E in Hr. split; [done|].
  rewrite np_mean_nan; [done|].
  apply list_elem_of_fmap. exists NaN. split; [done|].
  by eapply list_elem_of_lookup_2.
Qed.

(** X18: [monthlyCVRMS] reads the first twelve fields of [value] and no other:
    with fewer it raises, and fields after the twelfth do not change the
    result. *)
Theorem monthlyCVRMS_twelve_fields value :
  ((length value < 12)%nat →
   monthlyCVRMS np_sqrt month_index interpn lon lat value obsvalue obslon
     obslat obsdepth obstime = None) ∧
  monthlyCVRMS np_sqrt month_index interpn lon lat (take 12 value) obsvalue
    obslon obslat obsdepth obstime
  = monthlyCVRMS np_sqrt month_index interpn lon lat value obsvalue obslon
      obslat obsdepth obstime.
Proof.
  split.
  - intros Hlt. unfold monthlyCVRMS.
    rewrite (proj2 (mapM_None _ _)); [done|].
    apply Exists_exists. exists 11%nat. split; [apply elem_of_seq; lia|].
    unfold month_score.
    destruct (getmask _ obsvalue); simpl; [|done].
    destruct (getmask _ obslon); simpl; [|done].
    destruct (getmask _ obslat); simpl; [|done].
    destruct (getmask _ obsdepth); simpl; [|done].
    destruct (getmask _ obstime); simpl; [|done].
    rewrite (lookup_ge_None_2 value) by lia. done.
  - unfold monthlyCVRMS.
    rewrite (Forall_mapM_ext (score (take 12 value)) (score value)); [done|].
    apply Forall_forall. intros month Hm%elem_of_seq.
    unfold month_score. rewrite lookup_take_lt by lia. done.
Qed.
End monthlyCVRMS_more.
Lemma monthlyCVRMS_nan_month_witness :
  [Fin (445051015374261 # 1125899906842624); Fin (65536 # 131072);
   NaN; NaN; NaN; NaN; NaN; NaN; NaN; NaN; NaN; NaN] !! 2%nat = Some NaN ∧
  NaN = NaN.
Proof.
  apply (monthlyCVRMS_nan_month sqrt_floor month_index_1970 interp_bilinear
           ex_lon ex_lat ex_cv_obsvalue ex_cv_obslon ex_cv_obslat
           ex_cv_obsdepth ex_cv_obstime ex_value _ _ 2
           [Fin 2; Fin 3; Fin 4; Fin 2; Fin 3; Fin 4] []).
  - reflexivity.
  - vm_compute. reflexivity.
  - lia.
  - vm_compute. reflexivity.
  - vm_compute. reflexivity.
  - constructor.
Defined.

(** ** monthlyCVRMS_files *)

Section monthlyCVRMS_files_spec.
Context (np_sqrt : num → num) (month_index : Z → Z).
Context (interpn :
  list num * list num → list num → list (num * num) → option (list num)).
Context (lon lat : list num).

(** X19: what [monthlyCVRMS_files] scores when it returns: the observations of
    the cross-validation file that pass the selection of [loadobs], which
    is made with the first and last points of the grid of the module, not
    with the axes of the file of reconstructions; and for every month the
    field [mean_rec] of that month with NaN in its masked cells,
    interpolated on the axes of the file of reconstructions. *)
Theorem monthlyCVRMS_files_scores
    (recs : gmap string recfile) (fs : gmap string dataset)
    (fname fnamecv varname : string) RMS totRMS :
  monthlyCVRMS_files np_sqrt month_index interpn lon lat recs fs
    fname fnamecv varname = Some (RMS, totRMS) →
  ∃ ds lon0 lonN lat0 latN v lo la d t,
    recs !! fname = Some ds ∧
    lon !! 0%nat = Some lon0 ∧ last lon = Some lonN ∧
    lat !! 0%nat = Some lat0 ∧ last lat = Some latN ∧
    loadobs fs lon lat fnamecv varname = Some (v, lo, la, d, t) ∧
    (∀ k vk lok lak dk,
       v !! k = Some vk → lo !! k = Some lok → la !! k = Some lak →
       d !! k = Some dk →
       loadobs_sel lon0 lonN lat0 latN dk lok lak vk = true) ∧
    length RMS = 12%nat ∧
    totRMS = np_sqrt (np_mean (map nsq RMS)) ∧
    ∀ month, (month < 12)%nat →
      ∃ field mclim,
        rec_mean_rec ds !! month = Some field ∧
        interpn (rec_lat ds, rec_lon ds) (filled_nan field)
          (month_points month_index t la lo month) = Some mclim ∧
        RMS !! month =
          Some (rms_finite np_sqrt mclim
                  (select (month_sel month_index t month) v)).
Proof.
  unfold monthlyCVRMS_files. intros H.
  apply bind_Some in H as (ds & Hds & H).
  apply bind_Some in H as ([[[[v lo] la] d] t] & Hload & H).
  pose proof Hload as Hinv.
  apply loadobs_inv in Hinv
    as (lon0 & lonN & lat0 & latN & R & Hlon0 & HlonN & Hlat0 & HlatN
        & Hv & Hlo & Hla & Hd & Ht).
  set (K := filter _ R) in *.
  apply monthlyCVRMS_inv in H as (LR & Htot & Hmonths).
  exists ds, lon0, lonN, lat0, latN, v, lo, la, d, t.
  split; [done|]. split; [done|]. split; [done|]. split; [done|].
  split; [done|]. split; [done|]. split.
  { intros k vk lok lak dk Hvk Hlok Hlak Hdk.
    rewrite Hv in Hvk. rewrite Hlo in Hlok. rewrite Hla in Hlak.
    rewrite Hd in Hdk. rewrite list_lookup_fmap in Hvk, Hlok, Hlak, Hdk.
    destruct (K !! k) as [[[[[v1 lo1] la1] d1] t1]|] eqn:Er; [|done].
    simpl in *. simplify_eq.
    apply list_elem_of_lookup_2, list_elem_of_filter in Er as [Hkeep _].
    exact Hkeep. }
  split; [done|]. split; [done|].
  intros month Hm.
  destruct (Hmonths month Hm) as (r & Hr & Hs).
  apply month_score_inv in Hs as (field & mclim & Hf & Hi & _ & ->).
  rewrite list_lookup_fmap in Hf.
  destruct (rec_mean_rec ds !! month) as [rec|] eqn:Erec; [|done].
  simpl in Hf. injection Hf as <-.
  exists rec, mclim. done.
Qed.
End monthlyCVRMS_files_spec.

Example monthlyCVRMS_files_example :
  (λ r : list num * num, (take 3 r.1, r.2)) <$>
    monthlyCVRMS_files sqrt_floor month_index_1970 interp_bilinear
      ex_lon ex_lat ex_recs ex_cv_fs "rec.nc" "Temperature.cv.nc"
      "Temperature"
  = Some ([Fin (445051015374261 # 1125899906842624); Fin (65536 # 131072);
           NaN], NaN).
Proof. vm_compute. reflexivity. Qed.

Example monthlyCVRMS_files_missing_file :
  monthlyCVRMS_files sqrt_floor month_index_1970 interp_bilinear
    ex_lon ex_lat ex_recs ex_cv_fs "rec.nc" "Temperature.train.nc"
    "Temperature" = None.
Proof. vm_compute. reflexivity. Qed.

Lemma monthlyCVRMS_files_scores_witness :
  ∃ RMS totRMS ds lon0 lonN lat0 latN v lo la d t,
    monthlyCVRMS_files sqrt_floor month_index_1970 interp_bilinear
      ex_lon ex_lat ex_recs ex_cv_fs "rec.nc" "Temperature.cv.nc"
      "Temperature" = Some (RMS, totRMS) ∧
    ex_recs !! "rec.nc" = Some ds ∧
    ex_lon !! 0%nat = Some lon0 ∧ last ex_lon = Some lonN ∧
    ex_lat !! 0%nat = Some lat0 ∧ last ex_lat = Some latN ∧
    loadobs ex_cv_fs ex_lon ex_lat "Temperature.cv.nc" "Temperature"
      = Some (v, lo, la, d, t) ∧
    (∀ k vk lok lak dk,
       v !! k = Some vk → lo !! k = Some lok → la !! k = Some lak →
       d !! k = Some dk →
       loadobs_sel lon0 lonN lat0 latN dk lok lak vk = true) ∧
    length RMS = 12%nat ∧
    totRMS = sqrt_floor (np_mean (map nsq RMS)) ∧
    ∀ month, (month < 12)%nat →
      ∃ field mclim,
        rec_mean_rec ds !! month = Some field ∧
        interp_bilinear (rec_lat ds, rec_lon ds) (filled_nan field)
          (month_points month_index_1970 t la lo month) = Some mclim ∧
        RMS !! month =
          Some (rms_finite sqrt_floor mclim
                  (select (month_sel month_index_1970 t month) v)).
Proof.
  destruct (monthlyCVRMS_files sqrt_floor month_index_1970 interp_bilinear
              ex_lon ex_lat ex_recs ex_cv_fs "rec.nc" "Temperature.cv.nc"
              "Temperature") as [[RMS totRMS]|] eqn:E;
    [|vm_compute in E; discriminate E].
  exists RMS, totRMS.
  destruct (monthlyCVRMS_files_scores _ _ _ _ _ _ _ _ _ _ _ _ E)
    as (ds & lon0 & lonN & lat0 & latN & v & lo & la & d & t & H).
  exists ds, lon0, lonN, lat0, latN, v, lo, la, d, t.
  split; [reflexivity|exact H].
Defined.
(** ** The months of the generator and of the score *)

(** X20: the generator numbers the months from 1 (line 156, [% 12 + 1])
    and [monthlyCVRMS] from 0 (line 306, [% 12]); the two agree: the
    observations binned for the sample of number [i] (month [i + 1]) are
    the ones scored against the field [value[i]]. *)
Theorem datagen_months_match_score_months
    (month_index : Z → Z) (obstime : list Z) (i : nat) :
  map (Z.eqb (Z.of_nat i + 1)) (obsmonths month_index obstime)
  = month_sel month_index obstime i.
Proof.
  unfold obsmonths, month_sel. rewrite !map_map.
  apply map_ext. intros t.
  destruct (Z.eqb_spec (Z.of_nat i + 1) (month_index t mod 12 + 1)),
           (Z.eqb_spec (Z.of_nat i) (month_index t mod 12)); (done || lia).
Qed.

(** ** loadobs on an axis that does not ascend *)

Lemma nlt_chain a b c : nlt a b = true → nlt b c = true → nle c a = false.
Proof.
  destruct a as [p| | |], b as [q| | |], c as [r| | |]; simpl; try done.
  intros H1%Qltb_lt H2%Qltb_lt. apply Qle_bool_gt. lra.
Qed.

(** X21: the selection of line 86 takes [lon[0]] for the western and
    [lon[-1]] for the eastern bound (and likewise for the latitude).  On an
    axis whose last point is not greater than its first, as for latitudes
    stored from north to south, no record passes: [loadobs] returns five
    empty arrays and raises nothing. *)
Theorem loadobs_descending_axis
    (fs : gmap string dataset) lon lat fname varname v lo la d t
    lon0 lonN lat0 latN :
  lon !! 0%nat = Some lon0 → last lon = Some lonN →
  lat !! 0%nat = Some lat0 → last lat = Some latN →
  nle lonN lon0 = true ∨ nle latN lat0 = true →
  loadobs fs lon lat fname varname = Some (v, lo, la, d, t) →
  v = [] ∧ lo = [] ∧ la = [] ∧ d = [] ∧ t = [].
Proof.
  intros Hlon0 HlonN Hlat0 HlatN Hdesc Hload.
  apply loadobs_inv in Hload
    as (lon0' & lonN' & lat0' & latN' & R & Hlon0' & HlonN' & Hlat0' & HlatN'
        & Hv & Hlo & Hla & Hd & Ht).
  simplify_eq.
  rewrite filter_none; [done|].
  intros [[[[v1 lo1] la1] d1] t1] _ Hkeep.
  unfold loadobs_keep, loadobs_sel in Hkeep.
  rewrite !andb_true_iff in Hkeep.
  destruct Hkeep as [[[[[_ Hl0] HlN] Ha0] HaN] _].
  destruct Hdesc as [Hdesc|Hdesc].
  - by rewrite (nlt_chain _ _ _ Hl0 HlN) in Hdesc.
  - by rewrite (nlt_chain _ _ _ Ha0 HaN) in Hdesc.
Qed.

Lemma loadobs_descending_axis_witness :
  @nil num = [] ∧ @nil num = [] ∧ @nil num = [] ∧ @nil num = [] ∧
  @nil Z = [].
Proof.
  apply (loadobs_descending_axis ex_fs ex_lon [Fin 1; Fin 0]
           "Temperature.train.nc" "Temperature" [] [] [] [] []
           (Fin 0) (Fin 2) (Fin 1) (Fin 0)); try reflexivity.
  - right. reflexivity.
Defined.

Example loadobs_descending_latitude :
  loadobs ex_fs ex_lon [Fin 1; Fin 0] "Temperature.train.nc" "Temperature"
  = Some ([], [], [], [], []).
Proof. vm_compute. reflexivity. Qed.
